(** * slack_emoji_exporter: a shallow embedding and its properties

    The program lists the custom emoji of a source workspace, downloads
    their images and uploads them to a destination workspace.  Its
    functions are embedded as state-passing computations over a [world]
    that records every observable effect (text printed, sleeps, HTTP
    requests, file writes) in the order it happens; the network and the
    parts of the operating system the program cannot control are an
    [env] of oracles.

    A Python [str] is a [string] that holds its UTF-8 bytes; the text
    of a file and the text printed are UTF-8 as well.  Paths are POSIX
    paths.  A computation ends by
    returning, by an exception that nobody caught, or by [sys.exit]. *)

From Stdlib Require Import ZArith String Ascii List Lia DecimalString Permutation.
From stdpp Require Import base list strings.

#[local] Open Scope Z_scope.

(** ** Python strings *)

Module Str.

(** [str(n)] for an integer. *)
Definition of_Z (n : Z) : string := NilZero.string_of_int (Z.to_int n).

(** [str(len(x))] and the like: a natural number printed in decimal. *)
Definition of_nat (n : nat) : string := of_Z (Z.of_nat n).

(** [s] without the prefix [p], if it starts with it. *)
Fixpoint strip_prefix (p s : string) : option string :=
  match p, s with
  | EmptyString, _ => Some s
  | String a p', String b s' => if Ascii.eqb a b then strip_prefix p' s' else None
  | String _ _, EmptyString => None
  end.

(** [s.startswith(p)]. *)
Definition startswith (s p : string) : bool :=
  match strip_prefix p s with
  | Some _ => true
  | None => false
  end.

(** [s.endswith(p)]. *)
Fixpoint endswith (s p : string) : bool :=
  if String.eqb s p then true
  else match s with
       | EmptyString => false
       | String _ s' => endswith s' p
       end.

(** [s] split around the last occurrence of [c], if [c] occurs:
    what is before it and what is after it. *)
Fixpoint rpartition (c : ascii) (s : string) : option (string * string) :=
  match s with
  | EmptyString => None
  | String a s' =>
      match rpartition c s' with
      | Some (before, after) => Some (String a before, after)
      | None => if Ascii.eqb a c then Some (EmptyString, s') else None
      end
  end.

(** The part of [s] after the first occurrence of [c]; empty if [c]
    does not occur. *)
Fixpoint after_first (c : ascii) (s : string) : string :=
  match s with
  | EmptyString => EmptyString
  | String a s' => if Ascii.eqb a c then s' else after_first c s'
  end.

(** The part of [s] before the first occurrence of [c]; all of [s] if
    [c] does not occur ([s.split(c, 1)[0]]). *)
Fixpoint before_first (c : ascii) (s : string) : string :=
  match s with
  | EmptyString => EmptyString
  | String a s' => if Ascii.eqb a c then EmptyString else String a (before_first c s')
  end.

(** [c in s]. *)
Fixpoint contains (c : ascii) (s : string) : bool :=
  match s with
  | EmptyString => false
  | String a s' => Ascii.eqb a c || contains c s'
  end.

(** [s] without its leading characters that satisfy [p]. *)
Fixpoint drop_while (p : ascii -> bool) (s : string) : string :=
  match s with
  | EmptyString => EmptyString
  | String a s' => if p a then drop_while p s' else s
  end.

(** The leading characters of [s] that satisfy [p]. *)
Fixpoint take_while (p : ascii -> bool) (s : string) : string :=
  match s with
  | EmptyString => EmptyString
  | String a s' => if p a then String a (take_while p s') else EmptyString
  end.

(** The characters of [s] that satisfy [p]. *)
Fixpoint filter (p : ascii -> bool) (s : string) : string :=
  match s with
  | EmptyString => EmptyString
  | String a s' => if p a then String a (filter p s') else filter p s'
  end.

Fixpoint forallb (p : ascii -> bool) (s : string) : bool :=
  match s with
  | EmptyString => true
  | String a s' => p a && forallb p s'
  end.

Definition code (c : ascii) : N := N_of_ascii c.

Definition in_range (lo hi : N) (c : ascii) : bool :=
  ((lo <=? code c) && (code c <=? hi))%N.

Definition is_upper : ascii -> bool := in_range 65 90.
Definition is_lower : ascii -> bool := in_range 97 122.
Definition is_digit : ascii -> bool := in_range 48 57.

(** [s.lower()] on ASCII letters. *)
Definition lower_char (c : ascii) : ascii :=
  if is_upper c then ascii_of_N (code c + 32) else c.

Fixpoint lower (s : string) : string :=
  match s with
  | EmptyString => EmptyString
  | String a s' => String (lower_char a) (lower s')
  end.

End Str.

(** ** Python dictionaries with string keys

    A [dict] keeps its keys in insertion order; assigning to a key that
    is present replaces the value where it stands. *)

Module Dict.
Section WithValue.
Context {V : Type}.

Fixpoint get (k : string) (d : list (string * V)) : option V :=
  match d with
  | [] => None
  | (k', v) :: d' => if String.eqb k' k then Some v else get k d'
  end.

Fixpoint set (k : string) (v : V) (d : list (string * V)) : list (string * V) :=
  match d with
  | [] => [(k, v)]
  | (k', v') :: d' =>
      if String.eqb k' k then (k', v) :: d' else (k', v') :: set k v d'
  end.

(** [dict(pairs)]. *)
Definition of_pairs (pairs : list (string * V)) : list (string * V) :=
  fold_left (fun d kv => set (fst kv) (snd kv) d) pairs [].

End WithValue.
End Dict.

(** ** Unicode

    A Python [str] is a sequence of code points.  The [string] that
    stands for it holds its UTF-8 bytes, a surrogate being written like
    any other code point of three bytes (the "surrogatepass" of the
    codec), so that every [str] has its [string]. *)

Module Utf8.

Definition byte (n : N) : ascii := ascii_of_N n.

(** The bytes of a code point. *)
Definition encode (cp : N) : string :=
  (if cp <? 128 then String (byte cp) ""
   else if cp <? 2048 then
     String (byte (192 + cp / 64)) (String (byte (128 + cp mod 64)) "")
   else if cp <? 65536 then
     String (byte (224 + cp / 4096))
       (String (byte (128 + (cp / 64) mod 64)) (String (byte (128 + cp mod 64)) ""))
   else
     String (byte (240 + cp / 262144))
       (String (byte (128 + (cp / 4096) mod 64))
          (String (byte (128 + (cp / 64) mod 64))
             (String (byte (128 + cp mod 64)) ""))))%N.

(** The [string] of a [str] given by its code points. *)
Fixpoint str (cps : list N) : string :=
  match cps with
  | [] => EmptyString
  | cp :: cps' => encode cp +:+ str cps'
  end.

(** What a continuation byte carries. *)
Definition continuation (c : ascii) : option N :=
  if Str.in_range 128 191 c then Some (Str.code c - 128)%N else None.

(** The code points of a [string].  A byte that does not begin a
    sequence stands for itself. *)
Fixpoint decode (s : string) : list N :=
  match s with
  | EmptyString => []
  | String a rest =>
      let n := Str.code a in
      let stray := n :: decode rest in
      if Str.in_range 192 223 a then
        match rest with
        | String b rest1 =>
            match continuation b with
            | Some x => ((n - 192) * 64 + x)%N :: decode rest1
            | None => stray
            end
        | EmptyString => stray
        end
      else if Str.in_range 224 239 a then
        match rest with
        | String b (String c rest2) =>
            match continuation b, continuation c with
            | Some x, Some y => ((n - 224) * 4096 + x * 64 + y)%N :: decode rest2
            | _, _ => stray
            end
        | _ => stray
        end
      else if Str.in_range 240 247 a then
        match rest with
        | String b (String c (String d rest3)) =>
            match continuation b, continuation c, continuation d with
            | Some x, Some y, Some z =>
                ((n - 240) * 262144 + x * 4096 + y * 64 + z)%N :: decode rest3
            | _, _, _ => stray
            end
        | _ => stray
        end
      else stray
  end.

(** The surrogates, which UTF-16 pairs up to write a code point above
    65535. *)
Definition is_high_surrogate (cp : N) : bool := ((55296 <=? cp) && (cp <=? 56319))%N.
Definition is_low_surrogate (cp : N) : bool := ((56320 <=? cp) && (cp <=? 57343))%N.

Definition hex_digit (n : N) : ascii :=
  if (n <? 10)%N then ascii_of_N (48 + n) else ascii_of_N (87 + n).

(** [n] in hexadecimal, in lower case, on [digits] digits. *)
Fixpoint hex (digits : nat) (n : N) : string :=
  match digits with
  | O => EmptyString
  | S digits' => hex digits' (n / 16) +:+ String (hex_digit (n mod 16)) ""
  end.

End Utf8.

(** ** [repr] of a string

    The code points that [repr] writes as escapes, above the ASCII
    range: those that [str.isprintable] refuses, by ranges, as in the
    Unicode database (14.0) of CPython 3.11. *)
Definition not_printable : list (N * N) :=
  [(128, 160); (173, 173); (888, 889); (896, 899); (907, 907); (909, 909);
   (930, 930); (1328, 1328); (1367, 1368); (1419, 1420); (1424, 1424);
   (1480, 1487); (1515, 1518); (1525, 1541); (1564, 1564); (1757, 1757);
   (1806, 1807); (1867, 1868); (1970, 1983); (2043, 2044); (2094, 2095);
   (2111, 2111); (2140, 2141); (2143, 2143); (2155, 2159); (2191, 2199);
   (2274, 2274); (2436, 2436); (2445, 2446); (2449, 2450); (2473, 2473);
   (2481, 2481); (2483, 2485); (2490, 2491); (2501, 2502); (2505, 2506);
   (2511, 2518); (2520, 2523); (2526, 2526); (2532, 2533); (2559, 2560);
   (2564, 2564); (2571, 2574); (2577, 2578); (2601, 2601); (2609, 2609);
   (2612, 2612); (2615, 2615); (2618, 2619); (2621, 2621); (2627, 2630);
   (2633, 2634); (2638, 2640); (2642, 2648); (2653, 2653); (2655, 2661);
   (2679, 2688); (2692, 2692); (2702, 2702); (2706, 2706); (2729, 2729);
   (2737, 2737); (2740, 2740); (2746, 2747); (2758, 2758); (2762, 2762);
   (2766, 2767); (2769, 2783); (2788, 2789); (2802, 2808); (2816, 2816);
   (2820, 2820); (2829, 2830); (2833, 2834); (2857, 2857); (2865, 2865);
   (2868, 2868); (2874, 2875); (2885, 2886); (2889, 2890); (2894, 2900);
   (2904, 2907); (2910, 2910); (2916, 2917); (2936, 2945); (2948, 2948);
   (2955, 2957); (2961, 2961); (2966, 2968); (2971, 2971); (2973, 2973);
   (2976, 2978); (2981, 2983); (2987, 2989); (3002, 3005); (3011, 3013);
   (3017, 3017); (3022, 3023); (3025, 3030); (3032, 3045); (3067, 3071);
   (3085, 3085); (3089, 3089); (3113, 3113); (3130, 3131); (3141, 3141);
   (3145, 3145); (3150, 3156); (3159, 3159); (3163, 3164); (3166, 3167);
   (3172, 3173); (3184, 3190); (3213, 3213); (3217, 3217); (3241, 3241);
   (3252, 3252); (3258, 3259); (3269, 3269); (3273, 3273); (3278, 3284);
   (3287, 3292); (3295, 3295); (3300, 3301); (3312, 3312); (3315, 3327);
   (3341, 3341); (3345, 3345); (3397, 3397); (3401, 3401); (3408, 3411);
   (3428, 3429); (3456, 3456); (3460, 3460); (3479, 3481); (3506, 3506);
   (3516, 3516); (3518, 3519); (3527, 3529); (3531, 3534); (3541, 3541);
   (3543, 3543); (3552, 3557); (3568, 3569); (3573, 3584); (3643, 3646);
   (3676, 3712); (3715, 3715); (3717, 3717); (3723, 3723); (3748, 3748);
   (3750, 3750); (3774, 3775); (3781, 3781); (3783, 3783); (3790, 3791);
   (3802, 3803); (3808, 3839); (3912, 3912); (3949, 3952); (3992, 3992);
   (4029, 4029); (4045, 4045); (4059, 4095); (4294, 4294); (4296, 4300);
   (4302, 4303); (4681, 4681); (4686, 4687); (4695, 4695); (4697, 4697);
   (4702, 4703); (4745, 4745); (4750, 4751); (4785, 4785); (4790, 4791);
   (4799, 4799); (4801, 4801); (4806, 4807); (4823, 4823); (4881, 4881);
   (4886, 4887); (4955, 4956); (4989, 4991); (5018, 5023); (5110, 5111);
   (5118, 5119); (5760, 5760); (5789, 5791); (5881, 5887); (5910, 5918);
   (5943, 5951); (5972, 5983); (5997, 5997); (6001, 6001); (6004, 6015);
   (6110, 6111); (6122, 6127); (6138, 6143); (6158, 6158); (6170, 6175);
   (6265, 6271); (6315, 6319); (6390, 6399); (6431, 6431); (6444, 6447);
   (6460, 6463); (6465, 6467); (6510, 6511); (6517, 6527); (6572, 6575);
   (6602, 6607); (6619, 6621); (6684, 6685); (6751, 6751); (6781, 6782);
   (6794, 6799); (6810, 6815); (6830, 6831); (6863, 6911); (6989, 6991);
   (7039, 7039); (7156, 7163); (7224, 7226); (7242, 7244); (7305, 7311);
   (7355, 7356); (7368, 7375); (7419, 7423); (7958, 7959); (7966, 7967);
   (8006, 8007); (8014, 8015); (8024, 8024); (8026, 8026); (8028, 8028);
   (8030, 8030); (8062, 8063); (8117, 8117); (8133, 8133); (8148, 8149);
   (8156, 8156); (8176, 8177); (8181, 8181); (8191, 8207); (8232, 8239);
   (8287, 8303); (8306, 8307); (8335, 8335); (8349, 8351); (8385, 8399);
   (8433, 8447); (8588, 8591); (9255, 9279); (9291, 9311); (11124, 11125);
   (11158, 11158); (11508, 11512); (11558, 11558); (11560, 11564);
   (11566, 11567); (11624, 11630); (11633, 11646); (11671, 11679);
   (11687, 11687); (11695, 11695); (11703, 11703); (11711, 11711);
   (11719, 11719); (11727, 11727); (11735, 11735); (11743, 11743);
   (11870, 11903); (11930, 11930); (12020, 12031); (12246, 12271);
   (12284, 12288); (12352, 12352); (12439, 12440); (12544, 12548);
   (12592, 12592); (12687, 12687); (12772, 12783); (12831, 12831);
   (42125, 42127); (42183, 42191); (42540, 42559); (42744, 42751);
   (42955, 42959); (42962, 42962); (42964, 42964); (42970, 42993);
   (43053, 43055); (43066, 43071); (43128, 43135); (43206, 43213);
   (43226, 43231); (43348, 43358); (43389, 43391); (43470, 43470);
   (43482, 43485); (43519, 43519); (43575, 43583); (43598, 43599);
   (43610, 43611); (43715, 43738); (43767, 43776); (43783, 43784);
   (43791, 43792); (43799, 43807); (43815, 43815); (43823, 43823);
   (43884, 43887); (44014, 44015); (44026, 44031); (55204, 55215);
   (55239, 55242); (55292, 63743); (64110, 64111); (64218, 64255);
   (64263, 64274); (64280, 64284); (64311, 64311); (64317, 64317);
   (64319, 64319); (64322, 64322); (64325, 64325); (64451, 64466);
   (64912, 64913); (64968, 64974); (64976, 65007); (65050, 65055);
   (65107, 65107); (65127, 65127); (65132, 65135); (65141, 65141);
   (65277, 65280); (65471, 65473); (65480, 65481); (65488, 65489);
   (65496, 65497); (65501, 65503); (65511, 65511); (65519, 65531);
   (65534, 65535); (65548, 65548); (65575, 65575); (65595, 65595);
   (65598, 65598); (65614, 65615); (65630, 65663); (65787, 65791);
   (65795, 65798); (65844, 65846); (65935, 65935); (65949, 65951);
   (65953, 65999); (66046, 66175); (66205, 66207); (66257, 66271);
   (66300, 66303); (66340, 66348); (66379, 66383); (66427, 66431);
   (66462, 66462); (66500, 66503); (66518, 66559); (66718, 66719);
   (66730, 66735); (66772, 66775); (66812, 66815); (66856, 66863);
   (66916, 66926); (66939, 66939); (66955, 66955); (66963, 66963);
   (66966, 66966); (66978, 66978); (66994, 66994); (67002, 67002);
   (67005, 67071); (67383, 67391); (67414, 67423); (67432, 67455);
   (67462, 67462); (67505, 67505); (67515, 67583); (67590, 67591);
   (67593, 67593); (67638, 67638); (67641, 67643); (67645, 67646);
   (67670, 67670); (67743, 67750); (67760, 67807); (67827, 67827);
   (67830, 67834); (67868, 67870); (67898, 67902); (67904, 67967);
   (68024, 68027); (68048, 68049); (68100, 68100); (68103, 68107);
   (68116, 68116); (68120, 68120); (68150, 68151); (68155, 68158);
   (68169, 68175); (68185, 68191); (68256, 68287); (68327, 68330);
   (68343, 68351); (68406, 68408); (68438, 68439); (68467, 68471);
   (68498, 68504); (68509, 68520); (68528, 68607); (68681, 68735);
   (68787, 68799); (68851, 68857); (68904, 68911); (68922, 69215);
   (69247, 69247); (69290, 69290); (69294, 69295); (69298, 69375);
   (69416, 69423); (69466, 69487); (69514, 69551); (69580, 69599);
   (69623, 69631); (69710, 69713); (69750, 69758); (69821, 69821);
   (69827, 69839); (69865, 69871); (69882, 69887); (69941, 69941);
   (69960, 69967); (70007, 70015); (70112, 70112); (70133, 70143);
   (70162, 70162); (70207, 70271); (70279, 70279); (70281, 70281);
   (70286, 70286); (70302, 70302); (70314, 70319); (70379, 70383);
   (70394, 70399); (70404, 70404); (70413, 70414); (70417, 70418);
   (70441, 70441); (70449, 70449); (70452, 70452); (70458, 70458);
   (70469, 70470); (70473, 70474); (70478, 70479); (70481, 70486);
   (70488, 70492); (70500, 70501); (70509, 70511); (70517, 70655);
   (70748, 70748); (70754, 70783); (70856, 70863); (70874, 71039);
   (71094, 71095); (71134, 71167); (71237, 71247); (71258, 71263);
   (71277, 71295); (71354, 71359); (71370, 71423); (71451, 71452);
   (71468, 71471); (71495, 71679); (71740, 71839); (71923, 71934);
   (71943, 71944); (71946, 71947); (71956, 71956); (71959, 71959);
   (71990, 71990); (71993, 71994); (72007, 72015); (72026, 72095);
   (72104, 72105); (72152, 72153); (72165, 72191); (72264, 72271);
   (72355, 72367); (72441, 72703); (72713, 72713); (72759, 72759);
   (72774, 72783); (72813, 72815); (72848, 72849); (72872, 72872);
   (72887, 72959); (72967, 72967); (72970, 72970); (73015, 73017);
   (73019, 73019); (73022, 73022); (73032, 73039); (73050, 73055);
   (73062, 73062); (73065, 73065); (73103, 73103); (73106, 73106);
   (73113, 73119); (73130, 73439); (73465, 73647); (73649, 73663);
   (73714, 73726); (74650, 74751); (74863, 74863); (74869, 74879);
   (75076, 77711); (77811, 77823); (78895, 82943); (83527, 92159);
   (92729, 92735); (92767, 92767); (92778, 92781); (92863, 92863);
   (92874, 92879); (92910, 92911); (92918, 92927); (92998, 93007);
   (93018, 93018); (93026, 93026); (93048, 93052); (93072, 93759);
   (93851, 93951); (94027, 94030); (94088, 94094); (94112, 94175);
   (94181, 94191); (94194, 94207); (100344, 100351); (101590, 101631);
   (101641, 110575); (110580, 110580); (110588, 110588); (110591, 110591);
   (110883, 110927); (110931, 110947); (110952, 110959); (111356, 113663);
   (113771, 113775); (113789, 113791); (113801, 113807); (113818, 113819);
   (113824, 118527); (118574, 118575); (118599, 118607); (118724, 118783);
   (119030, 119039); (119079, 119080); (119155, 119162); (119275, 119295);
   (119366, 119519); (119540, 119551); (119639, 119647); (119673, 119807);
   (119893, 119893); (119965, 119965); (119968, 119969); (119971, 119972);
   (119975, 119976); (119981, 119981); (119994, 119994); (119996, 119996);
   (120004, 120004); (120070, 120070); (120075, 120076); (120085, 120085);
   (120093, 120093); (120122, 120122); (120127, 120127); (120133, 120133);
   (120135, 120137); (120145, 120145); (120486, 120487); (120780, 120781);
   (121484, 121498); (121504, 121504); (121520, 122623); (122655, 122879);
   (122887, 122887); (122905, 122906); (122914, 122914); (122917, 122917);
   (122923, 123135); (123181, 123183); (123198, 123199); (123210, 123213);
   (123216, 123535); (123567, 123583); (123642, 123646); (123648, 124895);
   (124903, 124903); (124908, 124908); (124911, 124911); (124927, 124927);
   (125125, 125126); (125143, 125183); (125260, 125263); (125274, 125277);
   (125280, 126064); (126133, 126208); (126270, 126463); (126468, 126468);
   (126496, 126496); (126499, 126499); (126501, 126502); (126504, 126504);
   (126515, 126515); (126520, 126520); (126522, 126522); (126524, 126529);
   (126531, 126534); (126536, 126536); (126538, 126538); (126540, 126540);
   (126544, 126544); (126547, 126547); (126549, 126550); (126552, 126552);
   (126554, 126554); (126556, 126556); (126558, 126558); (126560, 126560);
   (126563, 126563); (126565, 126566); (126571, 126571); (126579, 126579);
   (126584, 126584); (126589, 126589); (126591, 126591); (126602, 126602);
   (126620, 126624); (126628, 126628); (126634, 126634); (126652, 126703);
   (126706, 126975); (127020, 127023); (127124, 127135); (127151, 127152);
   (127168, 127168); (127184, 127184); (127222, 127231); (127406, 127461);
   (127491, 127503); (127548, 127551); (127561, 127567); (127570, 127583);
   (127590, 127743); (128728, 128732); (128749, 128751); (128765, 128767);
   (128884, 128895); (128985, 128991); (129004, 129007); (129009, 129023);
   (129036, 129039); (129096, 129103); (129114, 129119); (129160, 129167);
   (129198, 129199); (129202, 129279); (129620, 129631); (129646, 129647);
   (129653, 129655); (129661, 129663); (129671, 129679); (129709, 129711);
   (129723, 129727); (129734, 129743); (129754, 129759); (129768, 129775);
   (129783, 129791); (129939, 129939); (129995, 130031); (130042, 131071);
   (173792, 173823); (177977, 177983); (178206, 178207); (183970, 183983);
   (191457, 194559); (195102, 196607); (201547, 917759); (918000, 1114111)]%N.

Definition in_ranges (ranges : list (N * N)) (cp : N) : bool :=
  existsb (fun r => (fst r <=? cp) && (cp <=? snd r))%N ranges.

(** How [repr] writes one code point between the quotes [quote]. *)
Definition repr_char (quote : ascii) (cp : N) : string :=
  (if (cp =? Str.code quote) || (cp =? 92) then String "\" (String (ascii_of_N cp) "")
   else if cp =? 9 then "\t"
   else if cp =? 10 then "\n"
   else if cp =? 13 then "\r"
   else if (cp <? 32) || (cp =? 127) then "\x" +:+ Utf8.hex 2 cp
   else if cp <? 127 then String (ascii_of_N cp) ""
   else if negb (in_ranges not_printable cp) then Utf8.encode cp
   else if cp <=? 255 then "\x" +:+ Utf8.hex 2 cp
   else if cp <=? 65535 then "\u" +:+ Utf8.hex 4 cp
   else "\U" +:+ Utf8.hex 8 cp)%N.

(** [repr(s)]: between double quotes when [s] holds a single quote and
    no double quote, between single quotes otherwise. *)
Definition repr (s : string) : string :=
  let quote : ascii :=
    if Str.contains "'" s && negb (Str.contains "034" s) then "034"%char else "'"%char in
  String quote
    (String.concat "" (map (repr_char quote) (Utf8.decode s)) +:+ String quote "").


(** ** HTTP *)

(** An exception: its class and its message ([str(e)]). *)
Inductive exn : Type := Exn (cls msg : string).

Definition exn_str (e : exn) : string := let 'Exn _ m := e in m.

(** The members of an API response body that the program reads, after
    [response.json()]: [data.get("ok")] (its truth value),
    [data.get("error")] (its text, when present) and [data["emoji"]] (when
    present). *)
Record api_body : Type := {
  body_ok : bool;
  body_error : option string;
  body_emoji : option (list (string * string))
}.

(** A [requests.Response].  [json] is [None] when [response.json()]
    raises; [iter_content] are the chunks of the body as they are
    streamed, and [stream_error] the exception that ends the stream
    early, if any. *)
Record response : Type := {
  status_code : Z;
  text : string;
  json : option api_body;
  iter_content : list string;
  stream_error : option exn
}.

(** [response.ok]: the status is not a 4xx or 5xx one. *)
Definition ok (r : response) : bool :=
  negb ((400 <=? status_code r) && (status_code r <? 600)).

(** What a request comes back with: a response, or an exception raised
    by the transport. *)
Inductive reply : Type :=
| Reply (r : response)
| NetError (e : exn).

(** ** The world *)

(** The argument of [time.sleep]: a whole number of seconds (the retry
    backoff), or the pacing delay [1 + random.uniform(0.5, 2.0)], whose
    floating-point value is not modelled. *)
Inductive delay : Type :=
| Seconds (n : Z)
| Pacing.

(** The body of the multipart POST of [upload_emoji]. *)
Record upload_form : Type := {
  form_image : string;   (* files["image"]: the content of the file *)
  form_mode : string;    (* files["mode"] *)
  form_name : string;    (* files["name"] *)
  form_token : string    (* data["token"] *)
}.

Inductive event : Type :=
| Print (s : string)                       (* text written to stdout *)
| Sleep (d : delay)                        (* time.sleep *)
| Get (url : string) (headers : list (string * string))
| Post (url : string) (headers : list (string * string)) (form : upload_form)
| OpenRead (path : string)
| Write (path : string)                    (* a file opened for writing *)
| MakeDirs (path : string).

(** The file system maps a path to the content of the regular file
    there; the order is the order in which a directory scan reports the
    files.  Overwriting a file keeps its place, a new file comes last. *)
Definition fs : Type := list (string * string).

Record world : Type := {
  trace : list event;   (* oldest first *)
  files : fs
}.

(** The environment: what the servers answer, which paths cannot be
    opened for writing and which directories cannot be made.  The answer
    to a GET depends on the address and the headers alone.  The answer
    to an upload depends also on how many uploads were posted before it,
    so that a retry can be answered differently from the attempt it
    repeats. *)
Record env : Type := {
  http_get : string -> list (string * string) -> reply;
  http_post : nat -> string -> list (string * string) -> upload_form -> reply;
  open_error : string -> option exn;
  makedirs_error : string -> option exn
}.

(** ** Computations *)

Inductive outcome (A : Type) : Type :=
| Ret (a : A)          (* normal completion *)
| Raise (e : exn)      (* an exception nobody caught *)
| Exit (code : Z).     (* sys.exit(code) *)

Arguments Ret {A} a.
Arguments Raise {A} e.
Arguments Exit {A} code.

Definition M (A : Type) : Type := world -> outcome A * world.

Definition ret {A} (a : A) : M A := fun w => (Ret a, w).

Definition bind {A B} (m : M A) (k : A -> M B) : M B :=
  fun w =>
    match m w with
    | (Ret a, w') => k a w'
    | (Raise e, w') => (Raise e, w')
    | (Exit c, w') => (Exit c, w')
    end.

Definition raise {A} (e : exn) : M A := fun w => (Raise e, w).

(** [sys.exit(code)]. *)
Definition sys_exit {A} (code : Z) : M A := fun w => (Exit code, w).

(** [try: m except Exception as e: h e].  [sys.exit] is not an
    [Exception] and passes through. *)
Definition try_except {A} (m : M A) (h : exn -> M A) : M A :=
  fun w =>
    match m w with
    | (Raise e, w') => h e w'
    | r => r
    end.

Declare Scope py_scope.
Delimit Scope py_scope with py.
Notation "x <- m ;; k" := (bind m (fun x => k))
  (at level 100, m at next level, k at level 200, right associativity) : py_scope.
Notation "m ;; k" := (bind m (fun _ => k))
  (at level 100, k at level 200, right associativity) : py_scope.
#[local] Open Scope py_scope.

(** The world after the events [es] have happened. *)
Definition log (es : list event) (w : world) : world :=
  {| trace := trace w ++ es; files := files w |}.

Definition emit (e : event) : M unit := fun w => (Ret tt, log [e] w).

(** The line feed that [print] ends a line with. *)
Definition eol : string := String "010"%char "".

(** [print(s)]. *)
Definition print (s : string) : M unit := emit (Print (s +:+ eol)).

(** [print(s, end="", flush=True)]. *)
Definition print_noeol (s : string) : M unit := emit (Print s).

(** [time.sleep(d)]. *)
Definition sleep (d : delay) : M unit := emit (Sleep d).

(** The number of uploads posted so far. *)
Definition is_post (e : event) : bool :=
  match e with Post _ _ _ => true | _ => false end.

Definition posted (t : list event) : nat := length (List.filter is_post t).

(** The sleeps of a trace, in order. *)
Definition sleeps (t : list event) : list delay :=
  omap (fun e => match e with Sleep d => Some d | _ => None end) t.

(** The text printed by a trace, in order. *)
Definition printed (t : list event) : list string :=
  omap (fun e => match e with Print s => Some s | _ => None end) t.

(** ** Files *)

(** A code point that the encoding of paths (UTF-8 with
    "surrogateescape") cannot write: a surrogate that does not stand for
    a byte, as those from U+DC80 to U+DCFF do. *)
Definition is_surrogate (cp : N) : bool := ((55296 <=? cp) && (cp <=? 57343))%N.

Definition unencodable (cp : N) : bool :=
  is_surrogate cp && negb ((56448 <=? cp) && (cp <=? 56575))%N.

(** The number of surrogates that [cps] begins with. *)
Fixpoint surrogates (cps : list N) : nat :=
  match cps with
  | cp :: rest => if is_surrogate cp then S (surrogates rest) else O
  | [] => O
  end.

(** The first code point that cannot be written, where it stands, and
    how many surrogates stand there in a row. *)
Fixpoint encode_error (cps : list N) (position : nat) : option (N * nat * nat) :=
  match cps with
  | [] => None
  | cp :: rest =>
      if unencodable cp
      then Some (cp, position, surrogates cps)
      else encode_error rest (S position)
  end.

(** The exception of [open(path)] for a path that names no file.  The
    path is encoded first, then it is refused if it holds a null
    character, and then the operating system looks for the file. *)
Definition open_failure (path : string) : exn :=
  match encode_error (Utf8.decode path) 0 with
  | Some (cp, position, run) =>
      Exn "UnicodeEncodeError"
          ("'utf-8' codec can't encode "
           +:+ (if (run =? 1)%nat
                then "character '\u" +:+ Utf8.hex 4 cp +:+ "' in position "
                     +:+ Str.of_nat position
                else "characters in position " +:+ Str.of_nat position +:+ "-"
                     +:+ Str.of_nat (position + run - 1))
           +:+ ": surrogates not allowed")
  | None =>
      if Str.contains "000" path then Exn "ValueError" "embedded null byte"
      else Exn "FileNotFoundError"
               ("[Errno 2] No such file or directory: " +:+ repr path)
  end.

(** [open(path, "rb")], read in full. *)
Definition open_read (path : string) : M string :=
  fun w =>
    match Dict.get path (files w) with
    | Some c => (Ret c, log [OpenRead path] w)
    | None => (Raise (open_failure path), w)
    end.

(** ** Library functions

    The functions of the Python standard library that the program calls
    on paths and URLs, for POSIX paths. *)

(** [os.path.join(a, b)]. *)
Definition os_path_join (a b : string) : string :=
  if Str.startswith b "/" then b
  else if String.eqb a "" || Str.endswith a "/" then a +:+ b
  else a +:+ "/" +:+ b.

(** The last component of a path. *)
Definition basename (p : string) : string :=
  match Str.rpartition "/" p with
  | Some (_, name) => name
  | None => p
  end.

Definition is_dot (c : ascii) : bool := Ascii.eqb c ".".

(** [os.path.splitext(p)[1]]: the extension starts at the last dot of
    the last component, leading dots of that component not counting. *)
Definition splitext_ext (p : string) : string :=
  match Str.rpartition "." (Str.drop_while is_dot (basename p)) with
  | Some (_, e) => "." +:+ e
  | None => ""
  end.

(** [pathlib.PurePath.stem], from the last component [name]. *)
Definition stem_of_name (name : string) : string :=
  match Str.rpartition "." name with
  | Some (before, after) =>
      if String.eqb before "" || String.eqb after "" then name else before
  | None => name
  end.

Definition stem (file_path : string) : string := stem_of_name (basename file_path).

(** [fnmatch] of a name against a pattern, case-sensitive as it is on
    POSIX, for patterns made of [*], [?] and literal characters. *)
Fixpoint fnmatch (pat : string) : string -> bool :=
  match pat with
  | EmptyString => fun name => String.eqb name ""
  | String c pat' =>
      if Ascii.eqb c "*" then
        fix star (name : string) : bool :=
          fnmatch pat' name
          || match name with
             | EmptyString => false
             | String _ name' => star name'
             end
      else if Ascii.eqb c "?" then
        fun name =>
          match name with
          | EmptyString => false
          | String _ name' => fnmatch pat' name'
          end
      else
        fun name =>
          match name with
          | EmptyString => false
          | String d name' => Ascii.eqb c d && fnmatch pat' name'
          end
  end.

(** The name of a file directly inside [dir], from its path. *)
Definition entry_name (dir path : string) : option string :=
  match Str.strip_prefix (os_path_join dir "") path with
  | Some name =>
      if String.eqb name "" || Str.contains "/" name then None else Some name
  | None => None
  end.

(** [Path(dir).glob(pat)] for a pattern without a directory part: the
    paths of the files directly inside [dir] whose name matches. *)
Definition glob (dir pat : string) (f : fs) : list string :=
  omap (fun entry =>
          match entry_name dir (fst entry) with
          | Some name => if fnmatch pat name then Some (fst entry) else None
          | None => None
          end) f.

(** *** IP addresses *)

(** [s.split(c)]. *)
Fixpoint split (c : ascii) (s : string) : list string :=
  match s with
  | EmptyString => [EmptyString]
  | String a s' =>
      if Ascii.eqb a c then EmptyString :: split c s'
      else match split c s' with
           | first :: others => String a first :: others
           | [] => [String a EmptyString]
           end
  end.

Definition is_hex (c : ascii) : bool :=
  Str.is_digit c || Str.in_range 97 102 c || Str.in_range 65 70 c.

(** The value of a string of decimal digits. *)
Definition decimal (s : string) : N :=
  fold_left (fun n c => (10 * n + (Str.code c - 48))%N) (list_ascii_of_string s) 0%N.

(** [_parse_octet] accepts the string. *)
Definition is_octet (s : string) : bool :=
  negb (String.eqb s "")
  && Str.forallb Str.is_digit s
  && (String.length s <=? 3)%nat
  && (String.eqb s "0" || negb (Str.startswith s "0"))
  && (decimal s <=? 255)%N.

(** [IPv4Address(s)] accepts the string. *)
Definition is_ipv4 (s : string) : bool :=
  negb (Str.contains "/" s)
  && negb (String.eqb s "")
  && (length (split "." s) =? 4)%nat
  && forallb is_octet (split "." s).

(** [_parse_hextet] accepts the string. *)
Definition is_hextet (s : string) : bool :=
  Str.forallb is_hex s && (String.length s <=? 4)%nat && negb (String.eqb s "").

(** The places, ends aside, where [parts] holds an empty string. *)
Definition empty_inside (parts : list string) : list nat :=
  List.filter (fun i => String.eqb (nth i parts "x") "")
    (seq 1 (length parts - 2)).

(** [IPv6Address._ip_int_from_string(s)] accepts the string. *)
Definition is_ipv6_address (s : string) : bool :=
  let parts := split ":" s in
  if String.eqb s "" || (length parts <? 3)%nat then false
  else
    let last_part := List.last parts "" in
    let embedded := Str.contains "." last_part in
    if embedded && negb (is_ipv4 last_part) then false
    else
      let parts := if embedded then removelast parts ++ ["0"; "0"] else parts in
      if (9 <? length parts)%nat then false
      else
        match empty_inside parts with
        | [] =>
            (length parts =? 8)%nat && forallb is_hextet parts
        | [skip_index] =>
            let leading := String.eqb (nth 0 parts "x") "" in
            let trailing := String.eqb (List.last parts "x") "" in
            let parts_hi := if leading then (skip_index - 1)%nat else skip_index in
            let parts_lo :=
              if trailing then (length parts - skip_index - 2)%nat
              else (length parts - skip_index - 1)%nat in
            if leading && negb (parts_hi =? 0)%nat then false
            else if trailing && negb (parts_lo =? 0)%nat then false
            else if (8 <=? parts_hi + parts_lo)%nat then false
            else
              forallb is_hextet (firstn parts_hi parts)
              && forallb is_hextet (skipn (length parts - parts_lo) parts)
        | _ => false
        end.

(** [IPv6Address(s)] accepts the string, which may end with a scope. *)
Definition is_ipv6 (s : string) : bool :=
  if Str.contains "/" s then false
  else if Str.contains "%" s then
    let scope_id := Str.after_first "%" s in
    negb (String.eqb scope_id "") && negb (Str.contains "%" scope_id)
    && is_ipv6_address (Str.before_first "%" s)
  else is_ipv6_address s.

(** *** URLs *)

Definition scheme_char (c : ascii) : bool :=
  Str.is_lower c || Str.is_upper c || Str.is_digit c
  || Ascii.eqb c "+" || Ascii.eqb c "-" || Ascii.eqb c ".".

Definition uses_params : list string :=
  [""; "ftp"; "hdl"; "prospero"; "http"; "imap"; "https"; "shttp"; "rtsp";
   "rtspu"; "sip"; "sips"; "mms"; "sftp"; "tel"].

Definition is_c0_or_space (c : ascii) : bool := (Str.code c <=? 32)%N.

Definition is_tab_or_newline (c : ascii) : bool :=
  Ascii.eqb c "009" || Ascii.eqb c "010" || Ascii.eqb c "013".

Definition ends_netloc (c : ascii) : bool :=
  Ascii.eqb c "/" || Ascii.eqb c "?" || Ascii.eqb c "#".

(** The scheme of a URL and what follows its colon. *)
Definition split_scheme (url : string) : string * string :=
  match Str.before_first ":" url with
  | String c _ as head =>
      if Str.contains ":" url && (Str.is_lower c || Str.is_upper c)
         && Str.forallb scheme_char head
      then (Str.lower head, Str.after_first ":" url)
      else ("", url)
  | EmptyString => ("", url)
  end.

(** [_splitparams(url)[0]]. *)
Definition strip_params (url : string) : string :=
  match Str.rpartition "/" url with
  | Some (dir, last) =>
      if Str.contains ";" last then dir +:+ "/" +:+ Str.before_first ";" last
      else url
  | None => Str.before_first ";" url
  end.

(** [_check_bracketed_host(hostname)]: the message of the [ValueError]
    that it raises, if it does.  A host that begins with "v" is to match
    [v[a-fA-F0-9]+\..+]; another is to be an IPv6 address. *)
Definition check_bracketed_host (hostname : string) : option string :=
  match hostname with
  | String "v" rest =>
      match Str.take_while is_hex rest, Str.drop_while is_hex rest with
      | String _ _, String "." (String _ _) => None
      | _, _ => Some "IPvFuture address is invalid"
      end
  | _ =>
      if is_ipv4 hostname then Some "An IPv4 address cannot be in brackets"
      else if is_ipv6 hostname then None
      else Some (repr hostname +:+ " does not appear to be an IPv4 or IPv6 address")
  end.

(** [_check_bracketed_netloc(netloc)]. *)
Definition check_bracketed_netloc (netloc : string) : option string :=
  let hostname_and_port :=
    match Str.rpartition "@" netloc with
    | Some (_, after) => after
    | None => netloc
    end in
  if Str.contains "[" hostname_and_port then
    if negb (String.eqb (Str.before_first "[" hostname_and_port) "") then
      Some "Invalid IPv6 URL"
    else
      let bracketed := Str.after_first "[" hostname_and_port in
      let port := Str.after_first "]" bracketed in
      if negb (String.eqb port "") && negb (Str.startswith port ":") then
        Some "Invalid IPv6 URL"
      else check_bracketed_host (Str.before_first "]" bracketed)
  else check_bracketed_host (Str.before_first ":" hostname_and_port).

(** The code points whose compatibility decomposition holds one of the
    characters that delimit the parts of a URL, as in the Unicode
    database (14.0) of CPython 3.11: the fullwidth and small forms of
    these characters and the signs that are written with them. *)
Definition delimiter_forms : list N :=
  [8263; 8264; 8265; 8448; 8449; 8453; 8454; 10868; 65043; 65046; 65109;
   65110; 65119; 65131; 65283; 65295; 65306; 65311; 65312]%N.

(** [_checknetloc(netloc)]: a host is refused when its normal form
    (NFKC) would hold a delimiter that it does not show. *)
Definition checknetloc (netloc : string) : option string :=
  if existsb (fun cp => existsb (N.eqb cp) delimiter_forms) (Utf8.decode netloc) then
    Some ("netloc '" +:+ netloc
          +:+ "' contains invalid characters under NFKC normalization")
  else None.

(** [urllib.parse.urlparse(url).path], as of CPython 3.11 with the
    checks of the bracketed host: the path, or the message of the
    [ValueError] that [urlparse] raises. *)
Definition urlparse (url : string) : string + string :=
  let url := Str.drop_while is_c0_or_space url in
  let url := Str.filter (fun c => negb (is_tab_or_newline c)) url in
  let '(scheme, url) := split_scheme url in
  let '(netloc, url) :=
    match Str.strip_prefix "//" url with
    | Some rest =>
        (Str.take_while (fun c => negb (ends_netloc c)) rest,
         Str.drop_while (fun c => negb (ends_netloc c)) rest)
    | None => ("", url)
    end in
  if xorb (Str.contains "[" netloc) (Str.contains "]" netloc) then
    inl "Invalid IPv6 URL"
  else
    match (if Str.contains "[" netloc then check_bracketed_netloc netloc else None) with
    | Some message => inl message
    | None =>
        let url := Str.before_first "#" url in
        let url := Str.before_first "?" url in
        match checknetloc netloc with
        | Some message => inl message
        | None =>
            inr (if existsb (String.eqb scheme) uses_params && Str.contains ";" url
                 then strip_params url else url)
        end
    end.

(** The path of a URL; [None] when [urlparse] raises. *)
Definition urlparse_path (url : string) : option string :=
  match urlparse url with
  | inr path => Some path
  | inl _ => None
  end.

(** The exception that [urlparse] raises on a URL that it refuses. *)
Definition urlparse_error (url : string) : exn :=
  match urlparse url with
  | inr _ => Exn "ValueError" ""
  | inl message => Exn "ValueError" message
  end.

(** ** The catalog artifact

    The JSON encoder and decoder are those of the Python standard
    library, for the artifact: a JSON object that maps each name to its
    URL. *)

Module Json.

Definition dquote : ascii := "034".
Definition backslash : ascii := "\".

Definition hex_value (c : ascii) : option N :=
  if Str.is_digit c then Some (Str.code c - 48)%N
  else if Str.in_range 97 102 c then Some (Str.code c - 87)%N
  else if Str.in_range 65 70 c then Some (Str.code c - 55)%N
  else None.

(** How [ensure_ascii] writes one code point inside a string: a code
    point above 65535 as its two surrogates. *)
Definition escape (cp : N) : string :=
  (if cp =? 34 then String backslash (String dquote "")
   else if cp =? 92 then String backslash (String backslash "")
   else if cp =? 8 then String backslash "b"
   else if cp =? 12 then String backslash "f"
   else if cp =? 10 then String backslash "n"
   else if cp =? 13 then String backslash "r"
   else if cp =? 9 then String backslash "t"
   else if (32 <=? cp) && (cp <=? 126) then String (ascii_of_N cp) ""
   else if cp <? 65536 then String backslash (String "u" (Utf8.hex 4 cp))
   else
     String backslash (String "u" (Utf8.hex 4 (55296 + (cp - 65536) / 1024)))
     +:+ String backslash (String "u" (Utf8.hex 4 (56320 + (cp - 65536) mod 1024))))%N.

Definition escape_all (s : string) : string :=
  String.concat "" (map escape (Utf8.decode s)).

Definition encode_string (s : string) : string :=
  String dquote (escape_all s +:+ String dquote "").

Definition encode_item (kv : string * string) : string :=
  encode_string (fst kv) +:+ ": " +:+ encode_string (snd kv).

(** [json.dumps(d, indent=2)] for a dictionary of strings. *)
Definition dumps (d : list (string * string)) : string :=
  match d with
  | [] => "{}"
  | _ => "{" +:+ eol +:+ "  "
         +:+ String.concat ("," +:+ eol +:+ "  ") (map encode_item d)
         +:+ eol +:+ "}"
  end.

Definition is_ws (c : ascii) : bool :=
  Ascii.eqb c " " || Ascii.eqb c "009" || Ascii.eqb c "010" || Ascii.eqb c "013".

Definition skip_ws : string -> string := Str.drop_while is_ws.

(** The character that follows a backslash stands for. *)
Definition unescape (c : ascii) : option ascii :=
  if Ascii.eqb c dquote then Some dquote
  else if Ascii.eqb c backslash then Some backslash
  else if Ascii.eqb c "/" then Some "/"%char
  else if Ascii.eqb c "b" then Some "008"%char
  else if Ascii.eqb c "f" then Some "012"%char
  else if Ascii.eqb c "n" then Some "010"%char
  else if Ascii.eqb c "r" then Some "013"%char
  else if Ascii.eqb c "t" then Some "009"%char
  else None.

(** The number written with these four hexadecimal digits. *)
Definition hex4 (h1 h2 h3 h4 : ascii) : option N :=
  match hex_value h1, hex_value h2, hex_value h3, hex_value h4 with
  | Some a, Some b, Some c, Some d => Some (((a * 16 + b) * 16 + c) * 16 + d)%N
  | _, _, _, _ => None
  end.

(** The code point that a high and a low surrogate write together. *)
Definition join_surrogates (high low : N) : N :=
  (65536 + (high - 55296) * 1024 + (low - 56320))%N.

(** [scanstring]: the string whose opening quote has just been read,
    and what follows its closing quote.  A [\uXXXX] of a high surrogate
    that a [\uXXXX] of a low surrogate follows is read with it as one
    code point. *)
Fixpoint scanstring (s : string) : option (string * string) :=
  match s with
  | EmptyString => None
  | String c rest =>
      if Ascii.eqb c dquote then Some (EmptyString, rest)
      else if Ascii.eqb c backslash then
        match rest with
        | EmptyString => None
        | String e rest1 =>
            if Ascii.eqb e "u" then
              match rest1 with
              | String h1 (String h2 (String h3 (String h4 rest2))) =>
                  match hex4 h1 h2 h3 h4 with
                  | Some uni =>
                      let alone :=
                        match scanstring rest2 with
                        | Some (str, after) => Some (Utf8.encode uni +:+ str, after)
                        | None => None
                        end in
                      if Utf8.is_high_surrogate uni then
                        match rest2 with
                        | String b rest3 =>
                            if Ascii.eqb b backslash then
                              match rest3 with
                              | String u rest4 =>
                                  if Ascii.eqb u "u" then
                                    match rest4 with
                                    | String k1 (String k2 (String k3 (String k4 rest5))) =>
                                        match hex4 k1 k2 k3 k4 with
                                        | Some uni2 =>
                                            if Utf8.is_low_surrogate uni2 then
                                              match scanstring rest5 with
                                              | Some (str, after) =>
                                                  Some (Utf8.encode
                                                          (join_surrogates uni uni2)
                                                        +:+ str, after)
                                              | None => None
                                              end
                                            else alone
                                        | None => None
                                        end
                                    | _ => alone
                                    end
                                  else alone
                              | EmptyString => alone
                              end
                            else alone
                        | EmptyString => alone
                        end
                      else alone
                  | None => None
                  end
              | _ => None
              end
            else
              match unescape e, scanstring rest1 with
              | Some a, Some (str, after) => Some (String a str, after)
              | _, _ => None
              end
        end
      else if (Str.code c <? 32)%N then None
      else
        match scanstring rest with
        | Some (str, after) => Some (String c str, after)
        | None => None
        end
  end.

(** The members of an object, from just after the opening quote of a
    key, and what follows the closing brace.  Each member consumes
    text, so a [fuel] of the length of the text is never used up. *)
Fixpoint members (fuel : nat) (s : string) (pairs : list (string * string))
    : option (list (string * string) * string) :=
  match fuel with
  | O => None
  | S fuel' =>
      match scanstring s with
      | Some (key, s) =>
          match skip_ws s with
          | String ":" s =>
              match skip_ws s with
              | String q s =>
                  if Ascii.eqb q dquote then
                    match scanstring s with
                    | Some (value, s) =>
                        let pairs := pairs ++ [(key, value)] in
                        match skip_ws s with
                        | String "}" s => Some (pairs, s)
                        | String "," s =>
                            match skip_ws s with
                            | String q s =>
                                if Ascii.eqb q dquote then members fuel' s pairs
                                else None
                            | EmptyString => None
                            end
                        | _ => None
                        end
                    | None => None
                    end
                  else None
              | EmptyString => None
              end
          | _ => None
          end
      | None => None
      end
  end.

(** [json.loads(text)] for a text that is one object whose values are
    strings, and [None] for another text: a text that [json.loads]
    refuses, or one that holds another value, which the program does
    not write. *)
Definition loads (text : string) : option (list (string * string)) :=
  match skip_ws text with
  | String "{" s =>
      match
        match skip_ws s with
        | String "}" s => Some ([], s)
        | String q s =>
            if Ascii.eqb q dquote then members (String.length text) s [] else None
        | EmptyString => None
        end
      with
      | Some (pairs, rest) =>
          match skip_ws rest with
          | EmptyString => Some (Dict.of_pairs pairs)
          | String _ _ => None
          end
      | None => None
      end
  | _ => None
  end.

End Json.

(** ** Requests and files *)

(** The [try] block of [download_emojis] that loads the catalog from
    the file at [path]: whatever [open] or [json.load] raises ends the
    program. *)
Definition load_emoji_list (path : string) : M (list (string * string)) :=
  try_except
    (f <- open_read path ;;
     match Json.loads f with
     | Some emoji_list => ret emoji_list
     | None => raise (Exn "JSONDecodeError" "Expecting value")
     end)
    (fun e =>
       print ("Error loading emoji list: " +:+ exn_str e) ;;
       sys_exit 1).

Section Client.

Variable E : env.

(** [requests.get(url, headers=headers)]. *)
Definition get (url : string) (headers : list (string * string)) : M response :=
  fun w =>
    let w' := log [Get url headers] w in
    match http_get E url headers with
    | Reply r => (Ret r, w')
    | NetError e => (Raise e, w')
    end.

(** [response.json()]. *)
Definition response_json (r : response) : M api_body :=
  match json r with
  | Some data => ret data
  | None => raise (Exn "JSONDecodeError" "Expecting value")
  end.

(** [with open(path, "w") as f:] followed by the writes that produce
    [content]. *)
Definition write_file (path content : string) : M unit :=
  fun w =>
    match open_error E path with
    | Some e => (Raise e, w)
    | None =>
        (Ret tt, {| trace := trace w ++ [Write path];
                    files := Dict.set path content (files w) |})
    end.

(** [os.makedirs(path, exist_ok=True)]. *)
Definition makedirs (path : string) : M unit :=
  match makedirs_error E path with
  | Some e => raise e
  | None => emit (MakeDirs path)
  end.

(** ** The directory client *)

Definition is_alias (url : string) : bool := Str.startswith url "alias:".

Definition list_emojis (token output_file : string) : M (list (string * string)) :=
  let url := "https://slack.com/api/emoji.list" in
  let headers := [("Authorization", "Bearer " +:+ token)] in
  response <- get url headers ;;
  if negb (ok response) then
    print ("Error fetching emojis: " +:+ Str.of_Z (status_code response)
           +:+ " " +:+ text response) ;;
    sys_exit 1
  else
    data <- response_json response ;;
    if negb (body_ok data) then
      print ("Slack API Error: " +:+ default "Unknown error" (body_error data)) ;;
      sys_exit 1
    else
      emoji <- match body_emoji data with
               | Some emoji => ret emoji
               | None => raise (Exn "KeyError" "'emoji'")
               end ;;
      let custom_emojis :=
        fold_left (fun custom_emojis item =>
                     let '(name, url) := item in
                     if negb (is_alias url) then Dict.set name url custom_emojis
                     else custom_emojis)
                  emoji [] in
      write_file output_file (Json.dumps custom_emojis) ;;
      print ("Found " +:+ Str.of_nat (length custom_emojis)
             +:+ " custom emojis (excluding aliases)") ;;
      print ("Emoji list saved to " +:+ output_file) ;;
      ret custom_emojis.

(** ** The asset fetcher *)

Definition download_emoji (name url output_dir : string)
    : M (option (string * string)) :=
  if is_alias url then ret None
  else
    path <- match urlparse_path url with
            | Some path => ret path
            | None => raise (urlparse_error url)
            end ;;
    let extension := splitext_ext path in
    let extension := if String.eqb extension "" then ".png" else extension in
    let output_file := os_path_join output_dir (name +:+ extension) in
    try_except
      (response <- get url [] ;;
       if ok response then
         write_file output_file (String.concat "" (iter_content response)) ;;
         match stream_error response with
         | Some e => raise e
         | None => ret (Some (name, output_file))
         end
       else
         print ("Error downloading " +:+ name +:+ ": "
                +:+ Str.of_Z (status_code response)) ;;
         ret None)
      (fun e =>
         print ("Error downloading " +:+ name +:+ ": " +:+ exn_str e) ;;
         ret None).

(** A future of the pool: [None] while the task has not run, then how
    the task ended. *)
Definition future : Type := option (outcome (option (string * string))).

(** The order in which the tasks of the pool complete.  Every
    submitted task runs exactly once; [sched] is the choice of the
    thread scheduler: the tasks it names complete first, in that order,
    and the others after them in submission order. *)
Definition completion_order (sched : list nat) (n : nat) : list nat :=
  let first := List.nodup Nat.eq_dec (List.filter (fun i => i <? n)%nat sched) in
  first ++ List.filter (fun i => negb (existsb (Nat.eqb i) first)) (seq 0 n).

(** The workers: each task runs to its end, whatever that end is, and
    leaves it in its future.  A task is taken to run without
    interruption: the tasks are not interleaved more finely than one
    after the other, in the order of completion. *)
Fixpoint run_tasks (order : list nat) (tasks : list (M (option (string * string))))
    (futures : list future) (w : world) : list future * world :=
  match order with
  | [] => (futures, w)
  | i :: order' =>
      match tasks !! i with
      | Some task =>
          let '(o, w') := task w in
          run_tasks order' tasks (<[i := Some o]> futures) w'
      | None => run_tasks order' tasks futures w
      end
  end.

(** [future.result()]. *)
Definition future_result (f : future) : M (option (string * string)) :=
  fun w =>
    match f with
    | Some o => (o, w)
    | None => (Raise (Exn "RuntimeError" "the future is pending"), w)
    end.

(** The loop [for future in futures] of [download_emojis]. *)
Fixpoint join (futures : list future) (downloaded : list (string * string))
    : M (list (string * string)) :=
  match futures with
  | [] => ret downloaded
  | future :: futures' =>
      result <- future_result future ;;
      match result with
      | Some r => join futures' (downloaded ++ [r])
      | None => join futures' downloaded
      end
  end.

(** [emoji_list] is the catalog ([inr]) or the path of its artifact
    ([inl]).  The tasks are submitted in the order of the catalog;
    the workers have all finished when the [with] block is left, also
    when the loop over the futures raises. *)
Definition download_emojis (emoji_list : string + list (string * string))
    (output_dir : string) (sched : list nat) : M (list (string * string)) :=
  makedirs output_dir ;;
  emoji_list <- match emoji_list with
                | inl path => load_emoji_list path
                | inr d => ret d
                end ;;
  print ("Downloading " +:+ Str.of_nat (length emoji_list) +:+ " emojis to "
         +:+ output_dir +:+ "...") ;;
  let tasks := map (fun item => download_emoji (fst item) (snd item) output_dir)
                   emoji_list in
  futures <- (fun w =>
                let '(futures, w') :=
                  run_tasks (completion_order sched (length tasks)) tasks
                    (replicate (length tasks) None) w in
                (Ret futures, w')) ;;
  downloaded <- join futures [] ;;
  print ("Downloaded " +:+ Str.of_nat (length downloaded) +:+ " emojis") ;;
  ret downloaded.

End Client.

(** ** The asset publisher *)

(** The files that [upload_emojis] finds in a directory: one scan for
    each pattern, all of them before the first upload. *)
Definition emoji_files (emoji_dir : string) (f : fs) : list string :=
  flat_map (fun ext => glob emoji_dir ext f) ["*.png"; "*.jpg"; "*.jpeg"; "*.gif"].

Section Publisher.

Variable E : env.

(** [session.post(url, data=data, headers=headers, files=files)]. *)
Definition post (url : string) (headers : list (string * string))
    (form : upload_form) : M response :=
  fun w =>
    let w' := log [Post url headers form] w in
    match http_post E (posted (trace w)) url headers form with
    | Reply r => (Ret r, w')
    | NetError e => (Raise e, w')
    end.

Definition max_retries : Z := 5.

(** The [while attempts < max_retries] loop of [upload_emoji].  The
    recursion is on [remaining], the number of attempts left
    ([max_retries - attempts] on entry): the loop test succeeds exactly
    when it is not zero. *)
Fixpoint upload_attempts (remaining : nat) (url : string)
    (headers : list (string * string)) (token name file_path : string)
    (attempts backoff : Z) : M bool :=
  match remaining with
  | O => ret false
  | S remaining' =>
      let attempts := attempts + 1 in
      let retry := upload_attempts remaining' url headers token name file_path in
      f <- open_read file_path ;;
      response <- post url headers
        {| form_image := f; form_mode := "data"; form_name := name;
           form_token := token |} ;;
      if ok response then
        data <- response_json response ;;
        if body_ok data then
          print ("✓ Uploaded: " +:+ name) ;;
          ret true
        else
          let error := default "Unknown error" (body_error data) in
          if String.eqb error "ratelimited" then
            print ("✗ Rate limited uploading " +:+ name
                   +:+ ". Retrying with new connection in "
                   +:+ Str.of_Z backoff +:+ " seconds...") ;;
            sleep (Seconds backoff) ;;
            retry attempts (backoff * 2)
          else
            print ("✗ Error uploading " +:+ name +:+ ": " +:+ error) ;;
            ret false
      else if status_code response =? 429 then
        print ("✗ Rate limited uploading " +:+ name +:+ ": "
               +:+ Str.of_Z (status_code response)
               +:+ ". Retrying with new connection in "
               +:+ Str.of_Z backoff +:+ " seconds...") ;;
        sleep (Seconds backoff) ;;
        retry attempts (backoff * 2)
      else
        print ("✗ Error uploading " +:+ name +:+ ": "
               +:+ Str.of_Z (status_code response) +:+ " " +:+ text response) ;;
        if attempts <? max_retries then
          print ("    Retrying with new connection in "
                 +:+ Str.of_Z backoff +:+ " seconds...") ;;
          sleep (Seconds backoff) ;;
          retry attempts (backoff * 2)
        else
          print ("    Max retries reached. Giving up on " +:+ name +:+ ".") ;;
          ret false
  end.

Definition upload_emoji (team_id cookie token name file_path : string) : M bool :=
  let url := "https://" +:+ team_id +:+ ".slack.com/api/emoji.add" in
  let headers := [("Cookie", cookie)] in
  let backoff := 1 in
  let attempts := 0 in
  upload_attempts (Z.to_nat (max_retries - attempts)) url headers token name
    file_path attempts backoff.

(** The loop [for file_path in emoji_files] of [upload_emojis]. *)
Fixpoint upload_each (team_id cookie token : string) (emoji_files : list string)
    (uploaded failed : nat) : M (nat * nat) :=
  match emoji_files with
  | [] => ret (uploaded, failed)
  | file_path :: emoji_files' =>
      let name := stem file_path in
      print_noeol ("Uploading " +:+ name +:+ "... ") ;;
      done <- upload_emoji team_id cookie token name file_path ;;
      let '(uploaded, failed) :=
        if done : bool then (S uploaded, failed) else (uploaded, S failed) in
      sleep Pacing ;;
      upload_each team_id cookie token emoji_files' uploaded failed
  end.

Definition upload_emojis (team_id cookie token emoji_dir : string) : M nat :=
  emoji_files <- (fun w => (Ret (emoji_files emoji_dir (files w)), w)) ;;
  print ("Found " +:+ Str.of_nat (length emoji_files) +:+ " emoji files in "
         +:+ emoji_dir) ;;
  counts <- upload_each team_id cookie token emoji_files 0 0 ;;
  let '(uploaded, failed) := counts in
  print ("Uploaded " +:+ Str.of_nat uploaded +:+ " emojis, failed "
         +:+ Str.of_nat failed +:+ " emojis") ;;
  ret uploaded.

End Publisher.

(** ** The command line *)

Definition DEFAULT_OUTPUT_DIR : string := "emoji_downloads".

(** The options of a parser, by destination: each with its default, or
    without one when it is required. *)
Definition options : Type := list (string * option string).

(** What [setup_argparse] builds: the options of the parser and, for
    each command, those of its subparser. *)
Record parser : Type := {
  common : options;
  subparsers : list (string * options)
}.

Definition setup_argparse : parser :=
  {| common := [("output_dir", Some DEFAULT_OUTPUT_DIR)];
     subparsers :=
       [("list", [("source_token", None); ("output_file", Some "emoji_list.json")]);
        ("download", [("source_token", None); ("emoji_list", Some "emoji_list.json")]);
        ("upload", [("cookie", None); ("token", None); ("team_id", None);
                    ("emoji_dir", Some DEFAULT_OUTPUT_DIR)]);
        ("export", [("source_token", None); ("cookie", None); ("team_id", None)])] |}.

(** The [Namespace] that [parse_args] returns: the command, [None] when
    none was given, and the other attributes. *)
Record namespace : Type := {
  command : option string;
  attributes : list (string * string)
}.

(** The command line, as the parser reads it: the command, if any, and
    the values given for options, by destination. *)
Record command_line : Type := {
  chosen : option string;
  given : list (string * string)
}.

(** The attributes for the options [opts]: the value given or else the
    default; [None] when a required option is not given. *)
Fixpoint fill (opts : options) (values : list (string * string))
    : option (list (string * string)) :=
  match opts with
  | [] => Some []
  | (dest, preset) :: opts' =>
      match (match Dict.get dest values with Some v => Some v | None => preset end),
            fill opts' values with
      | Some v, Some attrs => Some ((dest, v) :: attrs)
      | _, _ => None
      end
  end.

(** [parser.parse_args()], on the destinations of the options rather
    than on the words of the command line: an unknown command, an option
    that neither the parser nor the subparser of the command defines, or
    a required option that is missing ends the program with status 2. *)
Definition parse_args (p : parser) (argv : command_line) : M namespace :=
  match (match chosen argv with
         | Some c => Dict.get c (subparsers p)
         | None => Some []
         end) with
  | None => sys_exit 2
  | Some sub =>
      let opts := common p ++ sub in
      if forallb (fun kv => existsb (String.eqb (fst kv)) (map fst opts)) (given argv)
      then
        match fill opts (given argv) with
        | Some attrs => ret {| command := chosen argv; attributes := attrs |}
        | None => sys_exit 2
        end
      else sys_exit 2
  end.

(** [args.name]. *)
Definition getattr (args : namespace) (name : string) : M string :=
  match Dict.get name (attributes args) with
  | Some v => ret v
  | None =>
      raise (Exn "AttributeError"
                 ("'Namespace' object has no attribute '" +:+ name +:+ "'"))
  end.

(** [os.path.exists(path)], for the path of a file. *)
Definition os_path_exists (path : string) : M bool :=
  fun w => (Ret (bool_decide (is_Some (Dict.get path (files w)))), w).

Section Program.

Variable E : env.

(** The text that [parser.print_help()] writes. *)
Variable help : string.

(** [sched] is the choice of the thread scheduler for the pool of
    [download_emojis]. *)
Definition main (argv : command_line) (sched : list nat) : M unit :=
  let parser := setup_argparse in
  args <- parse_args parser argv ;;
  match command args with
  | None => print_noeol help ;; sys_exit 1
  | Some cmd =>
      if String.eqb cmd "" then print_noeol help ;; sys_exit 1
      else if String.eqb cmd "list" then
        source_token <- getattr args "source_token" ;;
        output_file <- getattr args "output_file" ;;
        _ <- list_emojis E source_token output_file ;;
        ret tt
      else if String.eqb cmd "download" then
        path <- getattr args "emoji_list" ;;
        found <- os_path_exists path ;;
        emoji_list <-
          (if negb found then
             path <- getattr args "emoji_list" ;;
             print ("Emoji list file " +:+ path +:+ " not found, fetching it first...") ;;
             source_token <- getattr args "source_token" ;;
             path <- getattr args "emoji_list" ;;
             list_emojis E source_token path
           else
             path <- getattr args "emoji_list" ;;
             f <- open_read path ;;
             match Json.loads f with
             | Some emoji_list => ret emoji_list
             | None => raise (Exn "JSONDecodeError" "Expecting value")
             end) ;;
        output_dir <- getattr args "output_dir" ;;
        _ <- download_emojis E (inr emoji_list) output_dir sched ;;
        ret tt
      else if String.eqb cmd "upload" then
        team_id <- getattr args "team_id" ;;
        cookie <- getattr args "cookie" ;;
        token <- getattr args "token" ;;
        emoji_dir <- getattr args "emoji_dir" ;;
        _ <- upload_emojis E team_id cookie token emoji_dir ;;
        ret tt
      else if String.eqb cmd "export" then
        source_token <- getattr args "source_token" ;;
        emoji_list <- list_emojis E source_token "emoji_list.json" ;;
        output_dir <- getattr args "output_dir" ;;
        _ <- download_emojis E (inr emoji_list) output_dir sched ;;
        team_id <- getattr args "team_id" ;;
        cookie <- getattr args "cookie" ;;
        token <- getattr args "token" ;;
        output_dir <- getattr args "output_dir" ;;
        _ <- upload_emojis E team_id cookie token output_dir ;;
        ret tt
      else ret tt
  end.

End Program.

(** * Vocabulary of the properties *)

(** A response that [upload_emoji] treats as rate limiting: the raw
    status 429, or an HTTP-OK response whose body is not ok and carries
    the error code "ratelimited". *)
Definition rate_limited (r : response) : bool :=
  if ok r then
    match json r with
    | Some data =>
        negb (body_ok data)
        && String.eqb (default "Unknown error" (body_error data)) "ratelimited"
    | None => false
    end
  else status_code r =? 429.

(** The line printed for a rate-limited attempt. *)
Definition rate_limited_line (name : string) (r : response) (backoff : Z) : string :=
  if ok r then
    "✗ Rate limited uploading " +:+ name
    +:+ ". Retrying with new connection in " +:+ Str.of_Z backoff +:+ " seconds..."
  else
    "✗ Rate limited uploading " +:+ name +:+ ": " +:+ Str.of_Z (status_code r)
    +:+ ". Retrying with new connection in " +:+ Str.of_Z backoff +:+ " seconds...".

(** The address that [upload_emoji] posts to. *)
Definition emoji_add_url (team_id : string) : string :=
  "https://" +:+ team_id +:+ ".slack.com/api/emoji.add".

(** The form that [upload_emoji] posts. *)
Definition emoji_form (token name image : string) : upload_form :=
  {| form_image := image; form_mode := "data"; form_name := name;
     form_token := token |}.

(** The events of one attempt up to its response. *)
Definition attempt_events (url : string) (headers : list (string * string))
    (token name file_path image : string) : list event :=
  [OpenRead file_path; Post url headers (emoji_form token name image)].

(** The events of one attempt that ends in a backoff. *)
Definition backoff_events (url : string) (headers : list (string * string))
    (token name file_path image line : string) (backoff : Z) : list event :=
  attempt_events url headers token name file_path image
  ++ [Print (line +:+ eol); Sleep (Seconds backoff)].

(** The backoff delays of [n] consecutive rate-limited attempts, the
    first of which waits [backoff] seconds. *)
Fixpoint backoffs (n : nat) (backoff : Z) : list delay :=
  match n with
  | O => []
  | S n' => Seconds backoff :: backoffs n' (backoff * 2)
  end.

(** The address and the headers of the listing request. *)
Definition emoji_list_url : string := "https://slack.com/api/emoji.list".

Definition bearer (token : string) : list (string * string) :=
  [("Authorization", "Bearer " +:+ token)].

(** One turn of the loop that fills [custom_emojis]. *)
Definition keep_custom (custom_emojis : list (string * string))
    (item : string * string) : list (string * string) :=
  let '(name, url) := item in
  if negb (is_alias url) then Dict.set name url custom_emojis else custom_emojis.

(** The entries of an emoji mapping that are not aliases. *)
Definition without_aliases (emoji : list (string * string)) : list (string * string) :=
  List.filter (fun item => negb (is_alias (snd item))) emoji.

(** A computation that did not return. *)
Definition fails {A} (o : outcome A) : Prop :=
  match o with
  | Ret _ => False
  | Raise _ | Exit _ => True
  end.

(** The success flag of a response: [data.get("ok")]. *)
Definition success_flag (r : response) : bool :=
  match json r with
  | Some data => body_ok data
  | None => false
  end.

(** The diagnostic that [list_emojis] prints before it exits. *)
Definition listing_diagnostic (r : response) : string :=
  if ok r then
    "Slack API Error: "
    +:+ default "Unknown error" (from_option body_error None (json r))
  else "Error fetching emojis: " +:+ Str.of_Z (status_code r) +:+ " " +:+ text r.

(** The extension of the file that the image at [url] is saved with. *)
Definition extension_of (url : string) : string :=
  let extension := splitext_ext (default "" (urlparse_path url)) in
  if String.eqb extension "" then ".png" else extension.

(** The file that the emoji [name] at [url] is saved in. *)
Definition local_file (output_dir name url : string) : string :=
  os_path_join output_dir (name +:+ extension_of url).

(** Why the download of [url] into [file] fails, if it does: the
    transport raises, the status is not OK, the file cannot be opened,
    or the stream of the body breaks.  The text is what the log line
    gives as the cause. *)
Definition download_failure (E : env) (url file : string) : option string :=
  match http_get E url [] with
  | NetError e => Some (exn_str e)
  | Reply r =>
      if ok r then
        match open_error E file with
        | Some e => Some (exn_str e)
        | None => exn_str <$> stream_error r
        end
      else Some (Str.of_Z (status_code r))
  end.

(** What the download of [url] writes into [file], if it gets that far. *)
Definition download_writes (E : env) (url file : string) : option string :=
  match http_get E url [] with
  | Reply r =>
      if ok r then
        match open_error E file with
        | Some _ => None
        | None => Some (String.concat "" (iter_content r))
        end
      else None
  | NetError _ => None
  end.

(** The line that logs a failed download. *)
Definition failure_line (name reason : string) : string :=
  ("Error downloading " +:+ name +:+ ": " +:+ reason) +:+ eol.

(** The events of the download of one entry. *)
Definition download_events (E : env) (name url file : string) : list event :=
  [Get url []]
  ++ match download_writes E url file with
     | Some _ => [Write file]
     | None => []
     end
  ++ match download_failure E url file with
     | Some reason => [Print (failure_line name reason)]
     | None => []
     end.

(** How [download_emoji] ends. *)
Definition download_result (E : env) (name url output_dir : string)
    : outcome (option (string * string)) :=
  if is_alias url then Ret None
  else
    match urlparse_path url with
    | None => Raise (urlparse_error url)
    | Some _ =>
        let file := local_file output_dir name url in
        match download_failure E url file with
        | Some _ => Ret None
        | None => Ret (Some (name, file))
        end
    end.

(** What [download_emoji] does to the world. *)
Definition download_effect (E : env) (name url output_dir : string) (w : world)
    : world :=
  if is_alias url then w
  else
    match urlparse_path url with
    | None => w
    | Some _ =>
        let file := local_file output_dir name url in
        {| trace := trace w ++ download_events E name url file;
           files := match download_writes E url file with
                    | Some content => Dict.set file content (files w)
                    | None => files w
                    end |}
    end.

(** An entry whose download fails. *)
Definition download_fails (E : env) (output_dir : string) (item : string * string)
    : bool :=
  bool_decide (is_Some (download_failure E (snd item)
                          (local_file output_dir (fst item) (snd item)))).

(** The result of an entry whose download succeeds. *)
Definition downloaded_entry (E : env) (output_dir : string) (item : string * string)
    : option (string * string) :=
  if is_alias (snd item) || download_fails E output_dir item then None
  else Some (fst item, local_file output_dir (fst item) (snd item)).

(** The futures after the tasks of [order] have run: each one holds the
    end of its download. *)
Definition settle (E : env) (output_dir : string) (items : list (string * string))
    (order : list nat) (futures : list future) : list future :=
  fold_left (fun futures i =>
               match items !! i with
               | Some item =>
                   <[i := Some (download_result E (fst item) (snd item) output_dir)]>
                     futures
               | None => futures
               end) order futures.

(** The world after the tasks of [order] have run, in that order. *)
Definition pool_effect (E : env) (output_dir : string) (items : list (string * string))
    (order : list nat) (w : world) : world :=
  fold_left (fun w i =>
               match items !! i with
               | Some item => download_effect E (fst item) (snd item) output_dir w
               | None => w
               end) order w.

(** The lines that the download of one entry prints. *)
Definition item_lines (E : env) (output_dir : string) (item : string * string)
    : list string :=
  if is_alias (snd item) then []
  else
    match urlparse_path (snd item) with
    | None => []
    | Some _ =>
        match download_failure E (snd item)
                (local_file output_dir (fst item) (snd item)) with
        | Some reason => [failure_line (fst item) reason]
        | None => []
        end
    end.

(** The lines that log the failed downloads of a catalog, in the order
    of the catalog. *)
Definition failure_lines (E : env) (output_dir : string)
    (catalog : list (string * string)) : list string :=
  omap (fun item =>
          failure_line (fst item)
          <$> download_failure E (snd item)
                (local_file output_dir (fst item) (snd item))) catalog.

(** The first and the last line that [download_emojis] prints. *)
Definition downloading_line (n : nat) (output_dir : string) : string :=
  ("Downloading " +:+ Str.of_nat n +:+ " emojis to " +:+ output_dir +:+ "...") +:+ eol.

Definition downloaded_line (n : nat) : string :=
  ("Downloaded " +:+ Str.of_nat n +:+ " emojis") +:+ eol.

(** The world when [download_emojis] returns, if the tasks completed in
    the order [order]. *)
Definition fetched_world (E : env) (output_dir : string)
    (catalog : list (string * string)) (order : list nat) (w : world) : world :=
  log [Print (downloaded_line (length (omap (downloaded_entry E output_dir) catalog)))]
    (pool_effect E output_dir catalog order
       (log [MakeDirs output_dir; Print (downloading_line (length catalog) output_dir)]
          w)).

(** The extensions, without their dot, that the scan looks for. *)
Definition image_extensions : list string := ["png"; "jpg"; "jpeg"; "gif"].

(** The file system without the file at [path]. *)
Definition without_file (path : string) (f : fs) : fs :=
  List.filter (fun entry => negb (String.eqb (fst entry) path)) f.

(** A pattern character that stands for itself. *)
Definition is_literal (c : ascii) : bool :=
  negb (Ascii.eqb c "*") && negb (Ascii.eqb c "?").

(** Two runs of a computation, from the worlds [w1] and [w2], that end
    in the same way after the same events and leave the files alone. *)
Definition same_run {A} (w1 w2 : world) (x1 x2 : outcome A * world) : Prop :=
  fst x1 = fst x2 /\ trace (snd x1) = trace (snd x2)
  /\ files (snd x1) = files w1 /\ files (snd x2) = files w2.

(** The text of the members of an object, as [Json.dumps] writes them,
    from just after the opening quote of the first key to the closing
    brace. *)
Fixpoint members_text (k v : string) (rest : list (string * string)) : string :=
  Json.escape_all k
  +:+ String Json.dquote
        (": " +:+ Json.encode_string v
         +:+ match rest with
             | [] => eol +:+ "}"
             | (k', v') :: rest' =>
                 "," +:+ eol +:+ "  " +:+ String Json.dquote (members_text k' v' rest')
             end).

(** A text that begins with the escape of a low surrogate, or with one
    that cannot be read. *)
Definition starts_low (text : string) : bool :=
  match text with
  | String b rest3 =>
      Ascii.eqb b Json.backslash
      && match rest3 with
         | String u rest4 =>
             Ascii.eqb u "u"
             && match rest4 with
                | String k1 (String k2 (String k3 (String k4 _))) =>
                    match Json.hex4 k1 k2 k3 k4 with
                    | Some uni2 => Utf8.is_low_surrogate uni2
                    | None => true
                    end
                | _ => false
                end
         | EmptyString => false
         end
  | EmptyString => false
  end.

Definition is_code_point (cp : N) : bool := (cp <? 1114112)%N.

(** No high surrogate stands right before a low one. *)
Fixpoint unpaired (cps : list N) : bool :=
  match cps with
  | [] => true
  | high :: rest =>
      match rest with
      | low :: _ => negb (Utf8.is_high_surrogate high && Utf8.is_low_surrogate low)
      | [] => true
      end
      && unpaired rest
  end.

(** The [str]s that hold no high surrogate right before a low one:
    all those that [json.loads] returns. *)
Definition unpaired_str (s : string) : Prop :=
  exists cps,
    s = Utf8.str cps /\ forallb is_code_point cps = true /\ unpaired cps = true.

(** A catalog of such [str]s. *)
Definition unpaired_catalog (catalog : list (string * string)) : Prop :=
  Forall (fun item => unpaired_str (fst item) /\ unpaired_str (snd item)) catalog.

(** The URL is one that [urlparse] accepts. *)
Definition parses (url : string) : Prop := is_Some (urlparse_path url).

(** The characters of a host: the visible ASCII characters, the
    delimiters of the parts of a URL and the brackets aside. *)
Definition host_char (c : ascii) : bool :=
  Str.in_range 33 126 c && negb (ends_netloc c)
  && negb (Ascii.eqb c "[") && negb (Ascii.eqb c "]").

(** The characters of a path: not a control character or a space, and
    not one that begins the query, the fragment or the parameters. *)
Definition path_char (c : ascii) : bool :=
  negb (is_c0_or_space c) && negb (Ascii.eqb c "?") && negb (Ascii.eqb c "#")
  && negb (Ascii.eqb c ";").

(** The characters of a query and of a fragment. *)
Definition tail_char (c : ascii) : bool := negb (is_c0_or_space c).

(** An address of the usual form: "http" or "https", "://", a host,
    a path that is empty or begins with "/", and then nothing, a query
    ("?...") or a fragment ("#..."). *)
Definition usual_url (url scheme host path tail : string) : Prop :=
  url = scheme +:+ "://" +:+ host +:+ path +:+ tail
  /\ (scheme = "http" \/ scheme = "https")
  /\ Str.forallb host_char host = true
  /\ (path = "" \/ Str.startswith path "/" = true)
  /\ Str.forallb path_char path = true
  /\ (tail = "" \/ Str.startswith tail "?" = true \/ Str.startswith tail "#" = true)
  /\ Str.forallb tail_char tail = true.

(** ** Vocabulary of the further properties *)

(** A response that [upload_emoji] takes as the success of the upload:
    the status is OK and the body is ok. *)
Definition is_accepted (r : response) : bool := ok r && success_flag r.

(** The number of files opened for reading so far. *)
Definition is_open_read (e : event) : bool :=
  match e with OpenRead _ => true | _ => false end.

Definition opened (t : list event) : nat := length (List.filter is_open_read t).

(** The number of pacing delays among some sleeps. *)
Definition is_pacing (d : delay) : bool :=
  match d with Pacing => true | Seconds _ => false end.

Definition pacings (ds : list delay) : nat := length (List.filter is_pacing ds).

(** The requests sent so far, each with its address and its headers. *)
Definition gets (t : list event) : list (string * list (string * string)) :=
  omap (fun e => match e with Get url headers => Some (url, headers) | _ => None end) t.

(** An entry that [download_emoji] sends a request for: it is no alias
    and its address can be parsed. *)
Definition is_fetched (item : string * string) : bool :=
  negb (is_alias (snd item))
  && match urlparse_path (snd item) with Some _ => true | None => false end.

(** The events of the task of one entry. *)
Definition item_events (E : env) (output_dir : string) (item : string * string)
    : list event :=
  if is_fetched item then
    download_events E (fst item) (snd item)
      (local_file output_dir (fst item) (snd item))
  else [].

(** How the loop over the futures ends, from the ends of the tasks. *)
Fixpoint joined (results : list (outcome (option (string * string))))
    (downloaded : list (string * string)) : outcome (list (string * string)) :=
  match results with
  | [] => Ret downloaded
  | Ret (Some r) :: results' => joined results' (downloaded ++ [r])
  | Ret None :: results' => joined results' downloaded
  | Raise e :: _ => Raise e
  | Exit code :: _ => Exit code
  end.



(** The exception of a task whose address has a bracket without its
    match. *)
Definition invalid_url : exn := Exn "ValueError" "Invalid IPv6 URL".

(** The exception of the first entry, in the order of the catalog, that
    is no alias and whose address [urlparse] refuses. *)
Fixpoint first_url_error (catalog : list (string * string)) : option exn :=
  match catalog with
  | [] => None
  | (name, url) :: rest =>
      if is_alias url then first_url_error rest
      else
        match urlparse_path url with
        | Some _ => first_url_error rest
        | None => Some (urlparse_error url)
        end
  end.

(** A computation that posts nothing, however it ends. *)
Definition no_post {A} (m : M A) : Prop :=
  forall w, posted (trace (snd (m w))) = posted (trace w).

(** The exception of an attribute that the arguments do not have. *)
Definition no_attribute (name : string) : exn :=
  Exn "AttributeError" ("'Namespace' object has no attribute '" +:+ name +:+ "'").

(** An event of the attempts to upload the file [file_path] as the
    emoji [name]: the file is opened, it is posted under that name, a
    line is printed or a backoff is slept. *)
Definition of_upload (name file_path : string) (e : event) : bool :=
  match e with
  | OpenRead path => String.eqb path file_path
  | Post _ _ form => String.eqb (form_name form) name
  | Print _ => true
  | Sleep (Seconds _) => true
  | _ => false
  end.

(** What the loop of [upload_emojis] does for one file: it announces
    it, attempts it and paces. *)
Definition episode (file_path : string) (attempts : list event) : list event :=
  Print ("Uploading " +:+ stem file_path +:+ "... ") :: attempts ++ [Sleep Pacing].

(** The last line of [upload_emojis]. *)
Definition uploaded_line (uploaded failed : nat) : string :=
  ("Uploaded " +:+ Str.of_nat uploaded +:+ " emojis, failed "
   +:+ Str.of_nat failed +:+ " emojis") +:+ eol.

(** ** Scripted environments

    Concrete servers and file systems, on which the functions run to
    their end by computation. *)

Definition plain_response (status : Z) (body : option api_body) : response :=
  {| status_code := status; text := ""; json := body; iter_content := [];
     stream_error := None |}.

Definition too_many_requests : response := plain_response 429 None.

Definition accepted : response :=
  plain_response 200
    (Some {| body_ok := true; body_error := None; body_emoji := None |}).

Definition rejected (error : string) : response :=
  plain_response 200
    (Some {| body_ok := false; body_error := Some error; body_emoji := None |}).

Definition connection_error : reply :=
  NetError (Exn "ConnectionError" "Connection refused").

(** The server that answers the [n]-th upload with the [n]-th of
    [posts] and a download or a listing of [url] as [gets] says; the
    paths of [readonly] cannot be opened for writing. *)
Definition scripted (gets : list (string * reply)) (posts : list reply)
    (readonly : list string) : env :=
  {| http_get := fun url _ => default connection_error (Dict.get url gets);
     http_post := fun n _ _ _ => nth n posts connection_error;
     open_error := fun path =>
       if existsb (String.eqb path) readonly
       then Some (Exn "PermissionError" "[Errno 13] Permission denied")
       else None;
     makedirs_error := fun _ => None |}.

(** A response that streams an image. *)
Definition image (chunks : list string) : response :=
  {| status_code := 200; text := ""; json := None; iter_content := chunks;
     stream_error := None |}.

(** A listing with one image and one alias. *)
Definition listing : response :=
  plain_response 200
    (Some {| body_ok := true; body_error := None;
             body_emoji := Some [("smile", "https://x/e1.png");
                                 ("party", "alias:smile")] |}).

(** A source workspace: its listing, two images that can be fetched and
    one that cannot be found; any other address cannot be reached. *)
Definition source_env : env :=
  scripted [(emoji_list_url, Reply listing);
            ("https://x/e1.png", Reply (image ["GIF8"; "9a"]));
            ("https://x/e2.gif", Reply (plain_response 404 None));
            ("https://x/image", Reply (image ["PNG"]))]
           [Reply accepted] [].

(** A server of images whose addresses carry a query. *)
Definition edge_server : env :=
  scripted [("https://emoji.slack-edge.com/T012AB3C4/parrot/5e1.tar.gif?v=2.jpg",
             Reply (image ["GIF8"; "9a"]));
            ("https://emoji.slack-edge.com/T012AB3C4/wave/image#large.jpg",
             Reply (image ["PNG"]))]
           [] [].

Definition three_emoji : list (string * string) :=
  [("smile", "https://x/e1.png"); ("sad", "https://x/e2.gif");
   ("parrot", "https://x/image")].

Definition empty_world : world := {| trace := []; files := [] |}.

(** A directory with an image whose extension is in upper case and one
    whose extension is in lower case. *)
Definition two_cases : world :=
  {| trace := [];
     files := [("emoji_downloads/smile.PNG", "PNG");
               ("emoji_downloads/party.gif", "GIF89a")] |}.

(** A world where one image waits to be uploaded. *)
Definition one_asset : world :=
  {| trace := []; files := [("emoji_downloads/smile.png", "GIF89a")] |}.

(** A world where two images wait to be uploaded. *)
Definition two_assets : world :=
  {| trace := [];
     files := [("emoji_downloads/party.gif", "GIF89a");
               ("emoji_downloads/smile.png", "PNG")] |}.

(** A server that answers every upload with an internal error. *)
Definition broken_server : env :=
  scripted [] (replicate 10 (Reply (plain_response 500 None))) [].

(** A server that cannot be reached. *)
Definition unreachable : env := scripted [] [] [].

(** A catalog with an alias, an address whose host has a bracket that
    is not closed and one whose host in brackets is no IP address. *)
Definition odd_catalog : list (string * string) :=
  [("smile", "https://x/e1.png"); ("party", "alias:smile");
   ("broken", "https://[x/e3.png"); ("sad", "https://x/e2.gif");
   ("bracket", "https://[x]/e4.png")].

(** A world that holds a catalog artifact. *)
Definition listed_world : world :=
  {| trace := []; files := [("emoji_list.json", "{}")] |}.

(** A server whose image breaks off after its first chunk. *)
Definition cut_off : env :=
  scripted [("https://x/e1.png",
             Reply {| status_code := 200; text := ""; json := None;
                      iter_content := ["GIF8"];
                      stream_error :=
                        Some (Exn "ChunkedEncodingError" "Connection broken") |})]
           [] [].

(** A world that holds the artifact of a catalog of one emoji. *)
Definition catalog_world : world :=
  {| trace := [];
     files := [("emoji_list.json", Json.dumps [("smile", "https://x/e1.png")])] |}.

(** The command line of a download. *)
Definition download_line : command_line :=
  {| chosen := Some "download"; given := [("source_token", "xoxp-1")] |}.

(** The command line of an export. *)
Definition export_line : command_line :=
  {| chosen := Some "export";
     given := [("source_token", "xoxp-1"); ("cookie", "d=cookie");
               ("team_id", "T012AB3C4")] |}.

(** * Properties *)

(** ** Traces *)

Lemma log_log es1 es2 w : log es2 (log es1 w) = log (es1 ++ es2) w.
Proof. unfold log; simpl. by rewrite <- app_assoc. Qed.

Lemma log_nil w : log [] w = w.
Proof. destruct w; unfold log; simpl. by rewrite app_nil_r. Qed.

Lemma trace_log es w : trace (log es w) = trace w ++ es.
Proof. done. Qed.

Lemma files_log es w : files (log es w) = files w.
Proof. done. Qed.

Lemma posted_app t1 t2 : posted (t1 ++ t2) = (posted t1 + posted t2)%nat.
Proof. unfold posted. by rewrite List.filter_app, length_app. Qed.

Lemma sleeps_app t1 t2 : sleeps (t1 ++ t2) = sleeps t1 ++ sleeps t2.
Proof. apply omap_app. Qed.

Lemma printed_app t1 t2 : printed (t1 ++ t2) = printed t1 ++ printed t2.
Proof. apply omap_app. Qed.

(** Runs the prints that are left and compares the worlds. *)
Ltac run_effects :=
  unfold bind, print, print_noeol, sleep, emit, ret, raise, sys_exit, log;
  cbn; rewrite <- ?app_assoc; cbn.

(** ** The retry loop of [upload_emoji] *)

Section PublisherFacts.

Variable E : env.

(** What every attempt starts with: the file is opened and posted. *)
Lemma upload_attempt_unfold remaining url headers token name file_path
    attempts backoff w image r :
  Dict.get file_path (files w) = Some image ->
  http_post E (posted (trace w)) url headers (emoji_form token name image)
  = Reply r ->
  upload_attempts E (S remaining) url headers token name file_path attempts backoff w
  = (let w1 := log (attempt_events url headers token name file_path image) w in
     let retry := upload_attempts E remaining url headers token name file_path in
     if ok r then
       match json r with
       | None => (Raise (Exn "JSONDecodeError" "Expecting value"), w1)
       | Some data =>
           if body_ok data then
             (Ret true, log [Print (("✓ Uploaded: " +:+ name) +:+ eol)] w1)
           else
             let error := default "Unknown error" (body_error data) in
             if String.eqb error "ratelimited" then
               retry (attempts + 1) (backoff * 2)
                 (log [Print (rate_limited_line name r backoff +:+ eol);
                       Sleep (Seconds backoff)] w1)
             else
               (Ret false,
                log [Print (("✗ Error uploading " +:+ name +:+ ": " +:+ error)
                            +:+ eol)] w1)
       end
     else if status_code r =? 429 then
       retry (attempts + 1) (backoff * 2)
         (log [Print (rate_limited_line name r backoff +:+ eol);
               Sleep (Seconds backoff)] w1)
     else
       let w2 :=
         log [Print (("✗ Error uploading " +:+ name +:+ ": "
                      +:+ Str.of_Z (status_code r) +:+ " " +:+ text r) +:+ eol)] w1 in
       if attempts + 1 <? max_retries then
         retry (attempts + 1) (backoff * 2)
           (log [Print (("    Retrying with new connection in "
                         +:+ Str.of_Z backoff +:+ " seconds...") +:+ eol);
                 Sleep (Seconds backoff)] w2)
       else
         (Ret false,
          log [Print (("    Max retries reached. Giving up on " +:+ name +:+ ".")
                      +:+ eol)] w2)).
Proof.
  intros Hf Hp. unfold rate_limited_line, attempt_events, emoji_form in *.
  cbn [upload_attempts]. unfold bind at 1, open_read. rewrite Hf.
  unfold bind at 1, post. rewrite trace_log, posted_app, Nat.add_0_r. cbn [posted].
  rewrite Hp, log_log. cbv zeta.
  destruct (ok r).
  - unfold response_json. destruct (json r) as [data|]; [|done].
    unfold bind at 1, ret. destruct (body_ok data).
    + unfold bind, print, emit. done.
    + destruct (String.eqb _ "ratelimited").
      * unfold bind, print, sleep, emit. by rewrite !log_log.
      * unfold bind, print, emit. done.
  - destruct (status_code r =? 429).
    + unfold bind, print, sleep, emit. by rewrite !log_log.
    + unfold bind at 1, print at 1, emit.
      destruct (attempts + 1 <? max_retries).
      * unfold bind, print, sleep, emit. by rewrite !log_log.
      * unfold bind, print, emit. done.
Qed.

Lemma upload_attempt_rate_limited remaining url headers token name file_path
    attempts backoff w image r :
  Dict.get file_path (files w) = Some image ->
  http_post E (posted (trace w)) url headers (emoji_form token name image)
  = Reply r ->
  rate_limited r = true ->
  upload_attempts E (S remaining) url headers token name file_path attempts backoff w
  = upload_attempts E remaining url headers token name file_path (attempts + 1)
      (backoff * 2)
      (log (backoff_events url headers token name file_path image
              (rate_limited_line name r backoff) backoff) w).
Proof.
  intros Hf Hp Hr. rewrite (upload_attempt_unfold _ _ _ _ _ _ _ _ _ _ _ Hf Hp).
  unfold rate_limited in Hr. cbv zeta. unfold backoff_events.
  destruct (ok r).
  - destruct (json r) as [data|]; [|done].
    apply andb_prop in Hr as [Hok Herr]. apply negb_true_iff in Hok.
    by rewrite Hok, Herr, log_log.
  - by rewrite Hr, log_log.
Qed.

Lemma posted_backoff_events url headers token name file_path image line backoff :
  posted (backoff_events url headers token name file_path image line backoff) = 1%nat.
Proof. done. Qed.

Lemma sleeps_backoff_events url headers token name file_path image line backoff :
  sleeps (backoff_events url headers token name file_path image line backoff)
  = [Seconds backoff].
Proof. done. Qed.

(** Rate limiting on every remaining attempt: the loop gives up with
    [False] after having slept once per attempt, the last one
    included. *)
Lemma upload_attempts_all_rate_limited remaining url headers token name file_path
    image : forall attempts backoff w,
  Dict.get file_path (files w) = Some image ->
  (forall k, (k < remaining)%nat ->
     exists r, http_post E (posted (trace w) + k) url headers
                 (emoji_form token name image) = Reply r
               /\ rate_limited r = true) ->
  exists w',
    upload_attempts E remaining url headers token name file_path attempts backoff w
    = (Ret false, w')
    /\ files w' = files w
    /\ sleeps (trace w') = sleeps (trace w) ++ backoffs remaining backoff
    /\ posted (trace w') = (posted (trace w) + remaining)%nat.
Proof.
  induction remaining as [|remaining IH]; intros attempts backoff w Hf Hall.
  - exists w. cbn. by rewrite app_nil_r, Nat.add_0_r.
  - destruct (Hall 0%nat) as (r & Hp & Hr); [lia|]. rewrite Nat.add_0_r in Hp.
    rewrite (upload_attempt_rate_limited _ _ _ _ _ _ _ _ _ _ _ Hf Hp Hr).
    set (w1 := log _ w).
    destruct (IH (attempts + 1) (backoff * 2) w1) as (w' & Hrun & Hfiles & Hsl & Hpo).
    + done.
    + intros k Hk. destruct (Hall (S k)) as (r' & Hp' & Hr'); [lia|].
      exists r'. split; [|done]. rewrite <- Hp'. f_equal.
      subst w1. rewrite trace_log, posted_app, posted_backoff_events. lia.
    + exists w'. split; [done|]. split; [done|].
      subst w1. rewrite trace_log in Hsl, Hpo.
      rewrite sleeps_app, sleeps_backoff_events in Hsl.
      rewrite posted_app, posted_backoff_events in Hpo.
      split; [by rewrite Hsl, <- app_assoc | lia].
Qed.

Lemma lt_cases_5 (P : nat -> Prop) :
  P 0%nat -> P 1%nat -> P 2%nat -> P 3%nat -> P 4%nat ->
  forall k, (k < 5)%nat -> P k.
Proof.
  intros H0 H1 H2 H3 H4 k Hk.
  do 5 (destruct k as [|k]; [assumption|]). lia.
Qed.

Lemma status_429_rate_limited r : status_code r = 429 -> rate_limited r = true.
Proof. intros H. unfold rate_limited, ok. by rewrite H. Qed.

(** C1 (as the code behaves).  When every one of the five attempts of
    [upload_emoji] is rate limited (status 429, or the API error
    "ratelimited"), it returns [False] after five posts, and it has
    slept after each of them, the fifth included: 1, 2, 4, 8 and 16
    seconds. *)
Theorem upload_emoji_rate_limited_every_attempt team_id cookie token name
    file_path w image :
  Dict.get file_path (files w) = Some image ->
  (forall k, (k < 5)%nat ->
     exists r, http_post E (posted (trace w) + k) (emoji_add_url team_id)
                 [("Cookie", cookie)] (emoji_form token name image) = Reply r
               /\ rate_limited r = true) ->
  exists w',
    upload_emoji E team_id cookie token name file_path w = (Ret false, w')
    /\ sleeps (trace w')
       = sleeps (trace w)
         ++ [Seconds 1; Seconds 2; Seconds 4; Seconds 8; Seconds 16]
    /\ posted (trace w') = (posted (trace w) + 5)%nat.
Proof.
  intros Hf Hall.
  destruct (upload_attempts_all_rate_limited 5 (emoji_add_url team_id)
              [("Cookie", cookie)] token name file_path image 0 1 w Hf Hall)
    as (w' & Hrun & _ & Hsl & Hpo).
  exists w'. by split.
Qed.

(** C2.  When the first three attempts of [upload_emoji] get the
    status 429 and the fourth an HTTP-OK response whose body is ok, it
    returns [True]; it has posted four times and slept 1, 2 and 4
    seconds, each sleep between one attempt and the next. *)
Theorem upload_emoji_succeeds_on_fourth_attempt team_id cookie token name
    file_path w image r0 r1 r2 r3 data :
  let url := emoji_add_url team_id in
  let headers := [("Cookie", cookie)] in
  let form := emoji_form token name image in
  let n := posted (trace w) in
  Dict.get file_path (files w) = Some image ->
  http_post E n url headers form = Reply r0 -> status_code r0 = 429 ->
  http_post E (n + 1) url headers form = Reply r1 -> status_code r1 = 429 ->
  http_post E (n + 2) url headers form = Reply r2 -> status_code r2 = 429 ->
  http_post E (n + 3) url headers form = Reply r3 ->
  ok r3 = true -> json r3 = Some data -> body_ok data = true ->
  let events :=
    backoff_events url headers token name file_path image
      (rate_limited_line name r0 1) 1
    ++ backoff_events url headers token name file_path image
         (rate_limited_line name r1 2) 2
    ++ backoff_events url headers token name file_path image
         (rate_limited_line name r2 4) 4
    ++ attempt_events url headers token name file_path image
    ++ [Print (("✓ Uploaded: " +:+ name) +:+ eol)] in
  upload_emoji E team_id cookie token name file_path w = (Ret true, log events w)
  /\ sleeps events = [Seconds 1; Seconds 2; Seconds 4]
  /\ posted events = 4%nat.
Proof.
  intros url headers form n Hf H0 S0 H1 S1 H2 S2 H3 Hok Hjson Hbody events.
  split; [|done]. unfold upload_emoji. fold url headers.
  change (Z.to_nat (max_retries - 0)) with 5%nat.
  rewrite (upload_attempt_rate_limited _ _ _ _ _ _ _ _ _ _ _ Hf H0
             (status_429_rate_limited _ S0)).
  rewrite upload_attempt_rate_limited with (image := image) (r := r1).
  2: done.
  2: { rewrite trace_log, posted_app, posted_backoff_events. exact H1. }
  2: by apply status_429_rate_limited.
  rewrite log_log.
  rewrite upload_attempt_rate_limited with (image := image) (r := r2).
  2: done.
  2: { rewrite trace_log, !posted_app, !posted_backoff_events. exact H2. }
  2: by apply status_429_rate_limited.
  rewrite log_log.
  rewrite upload_attempt_unfold with (image := image) (r := r3).
  2: done.
  2: { rewrite trace_log, !posted_app, !posted_backoff_events. exact H3. }
  cbv zeta. rewrite Hok, Hjson, Hbody, !log_log.
  subst events. by rewrite <- !app_assoc.
Qed.

(** C3.  At any attempt of the retry loop, an HTTP-OK response whose
    body is not ok and whose error code is not "ratelimited" ends
    [upload_emoji] with [False] at once: the error line is printed,
    nothing is slept and nothing more is posted, however many attempts
    remain. *)
Theorem upload_attempt_api_error_is_final remaining url headers token name
    file_path attempts backoff w image r data :
  Dict.get file_path (files w) = Some image ->
  http_post E (posted (trace w)) url headers (emoji_form token name image)
  = Reply r ->
  ok r = true -> json r = Some data -> body_ok data = false ->
  default "Unknown error" (body_error data) <> "ratelimited" ->
  let events :=
    attempt_events url headers token name file_path image
    ++ [Print (("✗ Error uploading " +:+ name +:+ ": "
                +:+ default "Unknown error" (body_error data)) +:+ eol)] in
  upload_attempts E (S remaining) url headers token name file_path attempts backoff w
  = (Ret false, log events w)
  /\ sleeps events = [] /\ posted events = 1%nat.
Proof.
  intros Hf Hp Hok Hjson Hbody Herr events. split; [|done].
  rewrite (upload_attempt_unfold _ _ _ _ _ _ _ _ _ _ _ Hf Hp).
  cbv zeta. rewrite Hok, Hjson, Hbody.
  apply String.eqb_neq in Herr. by rewrite Herr, log_log.
Qed.

End PublisherFacts.

Lemma upload_emoji_rate_limited_every_attempt_witness :
  exists w',
    upload_emoji
      (scripted [] (replicate 3 (Reply too_many_requests)
                    ++ replicate 2 (Reply (rejected "ratelimited"))) [])
      "T012AB3C4" "d=cookie" "xoxc-1" "smile" "emoji_downloads/smile.png" one_asset
    = (Ret false, w')
    /\ sleeps (trace w')
       = [Seconds 1; Seconds 2; Seconds 4; Seconds 8; Seconds 16]
    /\ posted (trace w') = 5%nat.
Proof.
  apply (upload_emoji_rate_limited_every_attempt _ "T012AB3C4" "d=cookie" "xoxc-1"
           "smile" "emoji_downloads/smile.png" one_asset "GIF89a").
  - reflexivity.
  - apply lt_cases_5; eexists; (split; [reflexivity|reflexivity]).
Defined.

Lemma upload_emoji_succeeds_on_fourth_attempt_witness :
  exists events,
    upload_emoji
      (scripted [] (replicate 3 (Reply too_many_requests) ++ [Reply accepted]) [])
      "T012AB3C4" "d=cookie" "xoxc-1" "smile" "emoji_downloads/smile.png" one_asset
    = (Ret true, log events one_asset)
    /\ sleeps events = [Seconds 1; Seconds 2; Seconds 4]
    /\ posted events = 4%nat.
Proof.
  eexists.
  apply (upload_emoji_succeeds_on_fourth_attempt _ "T012AB3C4" "d=cookie" "xoxc-1"
           "smile" "emoji_downloads/smile.png" one_asset "GIF89a"
           too_many_requests too_many_requests too_many_requests accepted
           {| body_ok := true; body_error := None; body_emoji := None |});
    reflexivity.
Defined.

Lemma upload_attempt_api_error_is_final_witness :
  exists events,
    upload_attempts (scripted [] [Reply (rejected "error_name_taken")] [])
      5 (emoji_add_url "T012AB3C4") [("Cookie", "d=cookie")] "xoxc-1" "smile"
      "emoji_downloads/smile.png" 0 1 one_asset
    = (Ret false, log events one_asset)
    /\ sleeps events = [] /\ posted events = 1%nat.
Proof.
  eexists.
  apply (upload_attempt_api_error_is_final
           (scripted [] [Reply (rejected "error_name_taken")] [])
           4 (emoji_add_url "T012AB3C4") [("Cookie", "d=cookie")] "xoxc-1" "smile"
           "emoji_downloads/smile.png" 0 1 one_asset "GIF89a"
           (rejected "error_name_taken")
           {| body_ok := false; body_error := Some "error_name_taken";
              body_emoji := None |});
    [reflexivity..|discriminate].
Defined.

(** ** Strings and paths *)

Lemma append_assoc (s1 s2 s3 : string) : (s1 +:+ s2) +:+ s3 = s1 +:+ (s2 +:+ s3).
Proof.
  induction s1 as [|c s1 IH]; [done|].
  change (String c (((s1 +:+ s2)) +:+ s3) = String c (s1 +:+ (s2 +:+ s3))).
  by rewrite IH.
Qed.

Lemma append_nil_r (s : string) : s +:+ "" = s.
Proof.
  induction s as [|c s IH]; [done|].
  change (String c (s +:+ "") = String c s). by rewrite IH.
Qed.

Lemma append_cons c (s1 s2 : string) : String c s1 +:+ s2 = String c (s1 +:+ s2).
Proof. done. Qed.

Lemma append_nil_l (s : string) : "" +:+ s = s.
Proof. done. Qed.

Lemma rpartition_append c s before after :
  Str.rpartition c s = Some (before, after) -> s = before +:+ String c after.
Proof.
  revert before. induction s as [|a s IH]; intros before; cbn; [done|].
  destruct (Str.rpartition c s) as [[b t]|].
  - intros [= <- <-]. rewrite append_cons. by rewrite (IH b).
  - destruct (Ascii.eqb_spec a c) as [->|]; [|done]. by intros [= <- <-].
Qed.

Lemma rpartition_none c s : Str.rpartition c s = None -> Str.contains c s = false.
Proof.
  induction s as [|a s IH]; cbn; [done|].
  destruct (Str.rpartition c s) as [[b t]|]; [done|].
  destruct (Ascii.eqb a c); [done|]. intros _. by apply IH.
Qed.

Lemma rpartition_last c s t :
  Str.contains c t = false -> Str.rpartition c (s +:+ String c t) = Some (s, t).
Proof.
  intros Ht.
  assert (Hnone : Str.rpartition c t = None).
  { induction t as [|a t IH]; cbn in *; [done|].
    apply orb_false_iff in Ht as [Ha Ht]. by rewrite IH, Ha. }
  induction s as [|a s IH].
  - change (Str.rpartition c (String c t) = Some ("", t)). cbn.
    by rewrite Hnone, Ascii.eqb_refl.
  - rewrite append_cons. cbn [Str.rpartition]. by rewrite IH.
Qed.

Lemma drop_while_append p s : exists pre, s = pre +:+ Str.drop_while p s.
Proof.
  induction s as [|a s [pre IH]]; cbn; [by exists ""|].
  destruct (p a); [|by exists ""]. exists (String a pre).
  rewrite append_cons. by rewrite <- IH.
Qed.

Lemma basename_append p : exists dir, p = dir +:+ basename p.
Proof.
  unfold basename. destruct (Str.rpartition "/" p) as [[dir name]|] eqn:Hp.
  - apply rpartition_append in Hp. exists (dir +:+ "/").
    by rewrite append_assoc.
  - by exists "".
Qed.

(** [os.path.splitext] cuts its argument in two: the extension is the
    end of the path. *)
Lemma splitext_ext_suffix p : exists root, p = root +:+ splitext_ext p.
Proof.
  unfold splitext_ext.
  destruct (basename_append p) as [dir Hdir].
  destruct (drop_while_append is_dot (basename p)) as [dots Hdots].
  destruct (Str.rpartition "." (Str.drop_while is_dot (basename p)))
    as [[before after]|] eqn:Hext.
  - apply rpartition_append in Hext. exists (dir +:+ dots +:+ before).
    rewrite !append_assoc. change ("." +:+ after) with (String "." after).
    by rewrite <- Hext, <- Hdots.
  - exists p. by rewrite append_nil_r.
Qed.

Lemma splitext_ext_dot p : splitext_ext p = "" \/ exists e, splitext_ext p = String "." e.
Proof.
  unfold splitext_ext. destruct (Str.rpartition _ _) as [[? e]|]; [right|left]; eauto.
Qed.

(** A path whose last component is "image" has no extension. *)
Lemma splitext_ext_image dir : splitext_ext (dir +:+ "/image") = "".
Proof.
  unfold splitext_ext, basename.
  by rewrite (rpartition_last "/" dir "image").
Qed.

Lemma os_path_join_plain dir name :
  dir <> "" -> Str.endswith dir "/" = false -> Str.startswith name "/" = false ->
  os_path_join dir name = dir +:+ "/" +:+ name.
Proof.
  intros Hdir Hend Hname. unfold os_path_join. rewrite Hname, Hend.
  by apply String.eqb_neq in Hdir as ->.
Qed.

Lemma startswith_slash_append name ext :
  Str.startswith name "/" = false ->
  Str.startswith (name +:+ String "." ext) "/" = false.
Proof.
  destruct name as [|c name]; [done|]. rewrite append_cons.
  unfold Str.startswith. cbn [Str.strip_prefix]. by destruct (Ascii.eqb "/" c).
Qed.

(** ** Patterns *)

Lemma fnmatch_literal lit : forall name,
  Str.forallb is_literal lit = true -> fnmatch lit name = String.eqb name lit.
Proof.
  induction lit as [|c lit IH]; intros name Hlit; [done|].
  cbn [Str.forallb] in Hlit. apply andb_prop in Hlit as [Hc Hlit].
  unfold is_literal in Hc. apply andb_prop in Hc as [Hstar Hany].
  apply negb_true_iff in Hstar, Hany.
  cbn [fnmatch]. rewrite Hstar, Hany.
  destruct name as [|d name]; [done|]. cbn [String.eqb].
  rewrite IH by done. by rewrite (Ascii.eqb_sym c d).
Qed.

Lemma fnmatch_star lit name :
  Str.forallb is_literal lit = true ->
  fnmatch (String "*" lit) name = Str.endswith name lit.
Proof.
  intros Hlit. cbn [fnmatch]. rewrite Ascii.eqb_refl.
  induction name as [|d name IH]; cbn [Str.endswith]; rewrite fnmatch_literal by done.
  - by destruct (String.eqb "" lit).
  - rewrite IH. by destruct (String.eqb (String d name) lit).
Qed.

Lemma endswith_append s p : Str.endswith s p = true <-> exists pre, s = pre +:+ p.
Proof.
  split.
  - induction s as [|c s IH]; cbn [Str.endswith].
    + destruct (String.eqb_spec "" p) as [<-|]; [|done]. by exists "".
    + destruct (String.eqb_spec (String c s) p) as [<-|]; [by exists ""|].
      intros [pre ->]%IH. by exists (String c pre).
  - intros [pre ->]. induction pre as [|c pre IH].
    + change ("" +:+ p) with p.
      destruct p; cbn [Str.endswith]; by rewrite String.eqb_refl.
    + rewrite append_cons. cbn [Str.endswith]. rewrite IH.
      by destruct (String.eqb _ p).
Qed.

(** A name ends with a dot and a dotless extension exactly when that is
    what follows its last dot. *)
Lemma endswith_extension name e :
  Str.contains "." e = false ->
  Str.endswith name (String "." e) = true
  <-> exists stem, Str.rpartition "." name = Some (stem, e).
Proof.
  intros He. rewrite endswith_append. split; intros [stem H]; exists stem.
  - subst name. by apply rpartition_last.
  - by apply rpartition_append.
Qed.

(** The scan finds the files of the directory whose name ends with a
    dot and one of the four extensions, in lower case. *)
Lemma emoji_files_spec emoji_dir f path :
  path ∈ emoji_files emoji_dir f
  <-> exists name stem e content,
        (path, content) ∈ f /\ entry_name emoji_dir path = Some name
        /\ Str.rpartition "." name = Some (stem, e) /\ e ∈ image_extensions.
Proof.
  assert (Hglob : forall e, Str.forallb is_literal (String "." e) = true ->
            Str.contains "." e = false ->
            path ∈ glob emoji_dir (String "*" (String "." e)) f
            <-> exists name stem content,
                  (path, content) ∈ f /\ entry_name emoji_dir path = Some name
                  /\ Str.rpartition "." name = Some (stem, e)).
  { intros e Hlit He. unfold glob. rewrite list_elem_of_omap. split.
    - intros ([q content] & Hin & Hq). cbn [fst] in Hq.
      destruct (entry_name emoji_dir q) as [name|] eqn:Hname; [|done].
      destruct (fnmatch _ name) eqn:Hmatch; [|done]. injection Hq as <-.
      rewrite fnmatch_star in Hmatch by done.
      apply endswith_extension in Hmatch as [stem Hstem]; [|done].
      by exists name, stem, content.
    - intros (name & stem & content & Hin & Hname & Hstem).
      exists (path, content). split; [done|]. cbn [fst]. rewrite Hname.
      rewrite fnmatch_star by done.
      by rewrite (proj2 (endswith_extension name e He) (ex_intro _ stem Hstem)). }
  unfold emoji_files, image_extensions. cbn [flat_map]. rewrite app_nil_r.
  rewrite !elem_of_app.
  rewrite (Hglob "png"), (Hglob "jpg"), (Hglob "jpeg"), (Hglob "gif") by done.
  split.
  - intros [H|[H|[H|H]]]; destruct H as (name & stem & content & ? & ? & ?);
      eexists name, stem, _, content; (split; [done|]); (split; [done|]);
      (split; [done|]); repeat constructor.
  - intros (name & stem & e & content & Hin & Hname & Hstem & He).
    repeat (apply elem_of_cons in He as [->|He];
            [eauto 10|]).
    by apply elem_of_nil in He.
Qed.

(** ** Dictionaries *)

Lemma Dict_set_fresh {V} (k : string) (v : V) d :
  ~ In k (map fst d) -> Dict.set k v d = d ++ [(k, v)].
Proof.
  induction d as [|[k' v'] d IH]; intros Hk; [done|]. cbn in *.
  destruct (String.eqb_spec k' k) as [->|Hne]; [tauto|].
  rewrite IH; [done | tauto].
Qed.

Lemma Dict_get_set_eq {V} (k : string) (v : V) d : Dict.get k (Dict.set k v d) = Some v.
Proof.
  induction d as [|[k' v'] d IH]; cbn.
  - by rewrite String.eqb_refl.
  - destruct (String.eqb_spec k' k) as [->|Hne]; cbn.
    + by rewrite String.eqb_refl.
    + by apply String.eqb_neq in Hne as ->.
Qed.

Lemma Dict_get_set_ne {V} (k k' : string) (v : V) d :
  k <> k' -> Dict.get k' (Dict.set k v d) = Dict.get k' d.
Proof.
  intros Hne. induction d as [|[k0 v0] d IH]; cbn.
  - by apply String.eqb_neq in Hne as ->.
  - destruct (String.eqb_spec k0 k) as [->|Hne0]; cbn.
    + by apply String.eqb_neq in Hne as ->.
    + by rewrite IH.
Qed.

(** ** The directory client *)

Lemma keep_custom_without_aliases emoji : forall custom_emojis,
  NoDup (map fst custom_emojis ++ map fst emoji) ->
  fold_left keep_custom emoji custom_emojis = custom_emojis ++ without_aliases emoji.
Proof.
  induction emoji as [|[name url] emoji IH]; intros acc Hnd.
  - cbn. by rewrite app_nil_r.
  - apply NoDup_ListNoDup in Hnd. cbn [map fst] in Hnd.
    assert (Hfresh : ~ In name (map fst acc)).
    { apply List.NoDup_remove_2 in Hnd. intros Hin. apply Hnd, in_or_app. by left. }
    cbn [fold_left]. unfold without_aliases. cbn [List.filter snd keep_custom].
    fold (without_aliases emoji).
    destruct (is_alias url); cbn [negb].
    + apply IH. apply NoDup_ListNoDup. by apply List.NoDup_remove_1 in Hnd.
    + rewrite Dict_set_fresh by done. rewrite IH.
      * by rewrite <- app_assoc.
      * apply NoDup_ListNoDup. rewrite map_app, <- app_assoc. done.
Qed.

Section DirectoryFacts.

Variable E : env.

Lemma list_emojis_unfold token output_file w :
  list_emojis E token output_file w
  = (let w1 := log [Get emoji_list_url (bearer token)] w in
     match http_get E emoji_list_url (bearer token) with
     | NetError e => (Raise e, w1)
     | Reply r =>
         let w2 := log [Print (listing_diagnostic r +:+ eol)] w1 in
         if ok r then
           match json r with
           | None => (Raise (Exn "JSONDecodeError" "Expecting value"), w1)
           | Some data =>
               if body_ok data then
                 match body_emoji data with
                 | None => (Raise (Exn "KeyError" "'emoji'"), w1)
                 | Some emoji =>
                     let custom_emojis := fold_left keep_custom emoji [] in
                     match open_error E output_file with
                     | Some e => (Raise e, w1)
                     | None =>
                         (Ret custom_emojis,
                          log [Print (("Found " +:+ Str.of_nat (length custom_emojis)
                                       +:+ " custom emojis (excluding aliases)")
                                      +:+ eol);
                               Print (("Emoji list saved to " +:+ output_file) +:+ eol)]
                            {| trace := trace w1 ++ [Write output_file];
                               files := Dict.set output_file (Json.dumps custom_emojis)
                                          (files w1) |})
                     end
                 end
               else (Exit 1, w2)
           end
         else (Exit 1, w2)
     end).
Proof.
  unfold list_emojis, listing_diagnostic. fold emoji_list_url (bearer token).
  unfold bind at 1, get. cbv zeta.
  destruct (http_get E emoji_list_url (bearer token)) as [r|e]; [|done].
  destruct (ok r); cbn [negb]; [|done].
  unfold bind at 1, response_json. destruct (json r) as [data|]; [|done].
  unfold ret at 1. cbn [from_option].
  destruct (body_ok data); cbn [negb]; [|done].
  unfold bind at 1. destruct (body_emoji data) as [emoji|]; [|done].
  unfold ret at 1. fold keep_custom.
  unfold bind at 1, write_file.
  destruct (open_error E output_file); [done|].
  unfold bind, print, emit, ret. by rewrite log_log.
Qed.

(** C4.  From a listing response whose emoji mapping holds alias
    entries, [list_emojis] returns exactly the entries whose value does
    not begin with "alias:", in the order of the mapping and with their
    URL unchanged: no entry of the catalog is an alias and every other
    entry of the mapping is in it.  The artifact holds that catalog. *)
Theorem list_emojis_drops_aliases token output_file w r data emoji :
  http_get E emoji_list_url (bearer token) = Reply r ->
  ok r = true -> json r = Some data -> body_ok data = true ->
  body_emoji data = Some emoji -> NoDup (map fst emoji) ->
  open_error E output_file = None ->
  let catalog := without_aliases emoji in
  let run := list_emojis E token output_file w in
  fst run = Ret catalog
  /\ Dict.get output_file (files (snd run)) = Some (Json.dumps catalog)
  /\ Forall (fun item => Str.startswith (snd item) "alias:" = false) catalog
  /\ (forall name url,
        In (name, url) catalog
        <-> In (name, url) emoji /\ Str.startswith url "alias:" = false).
Proof.
  intros Hget Hok Hjson Hbody Hemoji Hnd Hopen catalog.
  rewrite list_emojis_unfold. cbv zeta.
  rewrite Hget, Hok, Hjson, Hbody, Hemoji, Hopen.
  rewrite (keep_custom_without_aliases emoji []) by done. cbn [app fst snd].
  fold catalog. split; [done|]. split.
  { rewrite files_log. cbn [files]. apply Dict_get_set_eq. }
  assert (Hin : forall name url,
            In (name, url) catalog
            <-> In (name, url) emoji /\ Str.startswith url "alias:" = false).
  { intros name url. unfold catalog, without_aliases.
    rewrite List.filter_In. cbn [snd]. unfold is_alias.
    by rewrite negb_true_iff. }
  split; [|done].
  apply List.Forall_forall. intros [name url] Hitem. by apply Hin in Hitem as [_ ?].
Qed.

(** C7 (amended).  [list_emojis] ends the program through its fatal
    exit if and only if the listing request was answered and either the
    HTTP status is not OK or the success flag of the body is false.  The
    exit code is then 1; all that has happened is the one request and the
    printing of the diagnostic: the request is not repeated and no file
    is written.  Any other failure (the transport raises, the body is
    not JSON, it has no emoji member, the output file cannot be opened)
    is an exception that nobody catches. *)
Theorem list_emojis_fatal_exit token output_file w :
  let o := fst (list_emojis E token output_file w) in
  let w' := snd (list_emojis E token output_file w) in
  ((exists code, o = Exit code)
   <-> exists r,
         http_get E emoji_list_url (bearer token) = Reply r
         /\ (ok r = false \/ exists data, json r = Some data /\ body_ok data = false))
  /\ (forall code, o = Exit code ->
        code = 1
        /\ files w' = files w
        /\ exists r,
             http_get E emoji_list_url (bearer token) = Reply r
             /\ trace w'
                = trace w ++ [Get emoji_list_url (bearer token);
                              Print (listing_diagnostic r +:+ eol)]).
Proof.
  rewrite list_emojis_unfold. cbv zeta.
  destruct (http_get E emoji_list_url (bearer token)) as [r|e].
  2: { split; [|done]. split; [by intros [? ?] | by intros (? & ? & ?)]. }
  assert (Hexit : forall w1 : world,
            w1 = log [Print (listing_diagnostic r +:+ eol)]
                   (log [Get emoji_list_url (bearer token)] w) ->
            (ok r = false \/ exists data, json r = Some data /\ body_ok data = false) ->
            ((exists code, @Exit (list (string * string)) 1 = Exit code)
             <-> exists r0, Reply r = Reply r0
                   /\ (ok r0 = false
                       \/ exists data, json r0 = Some data /\ body_ok data = false))
            /\ (forall code, @Exit (list (string * string)) 1 = Exit code ->
                  code = 1 /\ files w1 = files w
                  /\ exists r0, Reply r = Reply r0
                       /\ trace w1
                          = trace w ++ [Get emoji_list_url (bearer token);
                                        Print (listing_diagnostic r0 +:+ eol)])).
  { intros w1 -> Hwhy. split.
    - split; [intros _; by exists r | intros _; by exists 1].
    - intros code [= <-]. split; [done|]. split; [done|].
      exists r. split; [done|]. by rewrite log_log. }
  assert (Hnone : forall (o : outcome (list (string * string))) (w1 : world),
            (forall code, o <> Exit code) ->
            ok r = true ->
            (forall data, json r = Some data -> body_ok data = true) ->
            ((exists code, o = Exit code)
             <-> exists r0, Reply r = Reply r0
                   /\ (ok r0 = false
                       \/ exists data, json r0 = Some data /\ body_ok data = false))
            /\ (forall code, o = Exit code ->
                  code = 1 /\ files w1 = files w
                  /\ exists r0, Reply r = Reply r0
                       /\ trace w1
                          = trace w ++ [Get emoji_list_url (bearer token);
                                        Print (listing_diagnostic r0 +:+ eol)])).
  { intros o w1 Ho Hok Hflag. split.
    - split; [intros [code ->]; by destruct (Ho code)|].
      intros (r0 & [= <-] & [Hnok | (data & Hjson & Hbody)]); [congruence|].
      apply Hflag in Hjson. congruence.
    - intros code ->. by destruct (Ho code). }
  destruct (ok r) eqn:Hok; [|apply Hexit; auto].
  destruct (json r) as [data|] eqn:Hjson; [|by apply Hnone].
  destruct (body_ok data) eqn:Hbody; [|apply Hexit; eauto].
  assert (Hflag : forall data0, Some data = Some data0 -> body_ok data0 = true)
    by (by intros ? [= <-]).
  destruct (body_emoji data); [|by apply Hnone].
  destruct (open_error E output_file); cbn [fst snd]; by apply Hnone.
Qed.

End DirectoryFacts.

(** ** Addresses of the usual form *)

Lemma decode_cons a rest :
  Utf8.decode (String a rest)
  = (let n := Str.code a in
     let stray := n :: Utf8.decode rest in
     if Str.in_range 192 223 a then
       match rest with
       | String b rest1 =>
           match Utf8.continuation b with
           | Some x => ((n - 192) * 64 + x)%N :: Utf8.decode rest1
           | None => stray
           end
       | EmptyString => stray
       end
     else if Str.in_range 224 239 a then
       match rest with
       | String b (String c rest2) =>
           match Utf8.continuation b, Utf8.continuation c with
           | Some x, Some y => ((n - 224) * 4096 + x * 64 + y)%N :: Utf8.decode rest2
           | _, _ => stray
           end
       | _ => stray
       end
     else if Str.in_range 240 247 a then
       match rest with
       | String b (String c (String d rest3)) =>
           match Utf8.continuation b, Utf8.continuation c, Utf8.continuation d with
           | Some x, Some y, Some z =>
               ((n - 240) * 262144 + x * 4096 + y * 64 + z)%N :: Utf8.decode rest3
           | _, _, _ => stray
           end
       | _ => stray
       end
     else stray).
Proof. done. Qed.

Lemma forallb_append p s t :
  Str.forallb p (s +:+ t) = Str.forallb p s && Str.forallb p t.
Proof.
  induction s as [|a s IH]; [done|]. rewrite append_cons. cbn [Str.forallb].
  by rewrite IH, andb_assoc.
Qed.

Lemma forallb_impl (p q : ascii -> bool) s :
  (forall a, p a = true -> q a = true) ->
  Str.forallb p s = true -> Str.forallb q s = true.
Proof.
  intros Hpq. induction s as [|a s IH]; [done|]. cbn [Str.forallb].
  intros [Ha Hs]%andb_prop. by rewrite (Hpq a Ha), IH.
Qed.

Lemma filter_all p s : Str.forallb p s = true -> Str.filter p s = s.
Proof.
  induction s as [|a s IH]; [done|]. cbn [Str.forallb Str.filter].
  intros [-> Hs]%andb_prop. by rewrite IH.
Qed.

Lemma contains_none p c s :
  p c = false -> Str.forallb p s = true -> Str.contains c s = false.
Proof.
  intros Hc. induction s as [|a s IH]; [done|]. cbn [Str.forallb Str.contains].
  intros [Ha Hs]%andb_prop. rewrite (IH Hs), orb_false_r.
  destruct (Ascii.eqb_spec a c) as [->|]; [congruence|done].
Qed.

Lemma contains_append c s t :
  Str.contains c (s +:+ t) = Str.contains c s || Str.contains c t.
Proof.
  induction s as [|a s IH]; [done|]. rewrite append_cons. cbn [Str.contains].
  by rewrite IH, orb_assoc.
Qed.

Lemma before_first_none c s : Str.contains c s = false -> Str.before_first c s = s.
Proof.
  induction s as [|a s IH]; [done|]. cbn [Str.contains Str.before_first].
  intros [-> Hs]%orb_false_iff. by rewrite IH.
Qed.

Lemma before_first_append c s t :
  Str.contains c s = false ->
  Str.before_first c (s +:+ t) = s +:+ Str.before_first c t.
Proof.
  induction s as [|a s IH]; [done|]. rewrite append_cons.
  cbn [Str.contains Str.before_first].
  intros [-> Hs]%orb_false_iff. by rewrite IH.
Qed.

Lemma take_while_append p s t :
  Str.forallb p s = true ->
  Str.take_while p (s +:+ t) = s +:+ Str.take_while p t.
Proof.
  induction s as [|a s IH]; [done|]. rewrite append_cons.
  cbn [Str.forallb Str.take_while].
  intros [-> Hs]%andb_prop. by rewrite IH.
Qed.

Lemma drop_while_all p s t :
  Str.forallb p s = true ->
  Str.drop_while p (s +:+ t) = Str.drop_while p t.
Proof.
  induction s as [|a s IH]; [done|]. rewrite append_cons.
  cbn [Str.forallb Str.drop_while].
  intros [-> Hs]%andb_prop. by rewrite IH.
Qed.

Lemma visible_not_tab a : is_c0_or_space a = false -> is_tab_or_newline a = false.
Proof.
  destruct a as [[] [] [] [] [] [] [] []]; vm_compute; congruence.
Qed.

Lemma host_char_facts a :
  host_char a = true ->
  is_c0_or_space a = false /\ ends_netloc a = false
  /\ a <> "["%char /\ a <> "]"%char /\ (Str.code a < 128)%N.
Proof.
  destruct a as [[] [] [] [] [] [] [] []]; vm_compute; intros H;
    first [discriminate H | repeat split; congruence].
Qed.

(** The code points of a text of ASCII characters. *)
Lemma decode_ascii s :
  Str.forallb (fun a => (Str.code a <? 128)%N) s = true ->
  Forall (fun cp => (cp < 128)%N) (Utf8.decode s).
Proof.
  induction s as [|a s IH]; [constructor|]. cbn [Str.forallb].
  intros [Ha Hs]%andb_prop. rewrite decode_cons.
  assert (Hd : Utf8.decode (String a s) = Str.code a :: Utf8.decode s).
  { rewrite decode_cons.
    destruct a as [[] [] [] [] [] [] [] []];
      first [discriminate Ha | reflexivity]. }
  rewrite <- decode_cons, Hd. constructor; [by apply N.ltb_lt|by apply IH].
Qed.

Lemma checknetloc_ascii s :
  Str.forallb (fun a => (Str.code a <? 128)%N) s = true -> checknetloc s = None.
Proof.
  intros Hs. unfold checknetloc.
  assert (H : existsb (fun cp => existsb (N.eqb cp) delimiter_forms) (Utf8.decode s)
              = false); [|by rewrite H].
  apply decode_ascii in Hs. induction Hs as [|cp cps Hcp _ IH]; [done|].
  cbn [existsb]. rewrite IH, orb_false_r.
  unfold delimiter_forms. cbn [existsb].
  repeat (rewrite (proj2 (N.eqb_neq cp _)) by lia). done.
Qed.

Lemma path_char_facts a :
  path_char a = true ->
  is_c0_or_space a = false /\ a <> "?"%char /\ a <> "#"%char /\ a <> ";"%char.
Proof.
  unfold path_char. rewrite !andb_true_iff, !negb_true_iff, !Ascii.eqb_neq.
  tauto.
Qed.

Lemma startswith_head s c :
  Str.startswith s (String c "") = true -> exists rest, s = String c rest.
Proof.
  destruct s as [|a s]; [done|]. unfold Str.startswith. cbn [Str.strip_prefix].
  destruct (Ascii.eqb_spec c a) as [->|]; [by eexists|done].
Qed.

(** What follows the host: it is empty or begins with a character that
    ends the host. *)
Lemma after_host path tail :
  path = "" \/ Str.startswith path "/" = true ->
  tail = "" \/ Str.startswith tail "?" = true \/ Str.startswith tail "#" = true ->
  Str.take_while (fun c => negb (ends_netloc c)) (path +:+ tail) = ""
  /\ Str.drop_while (fun c => negb (ends_netloc c)) (path +:+ tail) = path +:+ tail.
Proof.
  intros [->|Hpath] Htail.
  - rewrite append_nil_l.
    by destruct Htail as [->|[[? ->]%startswith_head|[? ->]%startswith_head]].
  - by apply startswith_head in Hpath as [? ->].
Qed.

(** The path of what follows the host. *)
Lemma path_of_rest path tail :
  Str.forallb path_char path = true ->
  tail = "" \/ Str.startswith tail "?" = true \/ Str.startswith tail "#" = true ->
  Str.before_first "?" (Str.before_first "#" (path +:+ tail)) = path.
Proof.
  intros Hpath Htail.
  assert (Hq : Str.contains "?" path = false).
  { apply (contains_none path_char); [done|done]. }
  assert (Hh : Str.contains "#" path = false).
  { apply (contains_none path_char); [done|done]. }
  rewrite before_first_append by done.
  rewrite before_first_append by done.
  assert (Ht : Str.before_first "?" (Str.before_first "#" tail) = "");
    [|by rewrite Ht, append_nil_r].
  destruct Htail as [->|[[? ->]%startswith_head|[? ->]%startswith_head]]; [done| |done].
  cbn [Str.before_first]. change (Ascii.eqb "?" "#") with false. cbv iota.
  cbn [Str.before_first]. by rewrite Ascii.eqb_refl.
Qed.

Lemma drop_while_head p a s : p a = false -> Str.drop_while p (String a s) = String a s.
Proof. intros Ha. cbn [Str.drop_while]. by rewrite Ha. Qed.

(** Nothing is taken off an address of visible characters. *)
Lemma strip_usual scheme rest :
  scheme = "http" \/ scheme = "https" ->
  Str.forallb (fun c => negb (is_tab_or_newline c)) rest = true ->
  Str.filter (fun c => negb (is_tab_or_newline c))
    (Str.drop_while is_c0_or_space (scheme +:+ "://" +:+ rest))
  = scheme +:+ "://" +:+ rest.
Proof.
  intros Hscheme Hrest.
  assert (Hhead : Str.drop_while is_c0_or_space (scheme +:+ "://" +:+ rest)
                  = scheme +:+ "://" +:+ rest).
  { destruct Hscheme as [-> | ->]; by rewrite append_cons, drop_while_head. }
  rewrite Hhead. apply filter_all. rewrite !forallb_append, Hrest.
  by destruct Hscheme as [-> | ->].
Qed.

Lemma split_scheme_usual scheme rest :
  scheme = "http" \/ scheme = "https" ->
  split_scheme (scheme +:+ "://" +:+ rest) = (scheme, "//" +:+ rest).
Proof. by intros [-> | ->]. Qed.

Lemma urlparse_usual url scheme host path tail :
  usual_url url scheme host path tail -> urlparse url = inr path.
Proof.
  intros (-> & Hscheme & Hhost & Hstart & Hpath & Htail & Hchars).
  assert (Hvisible : Str.forallb (fun c => negb (is_tab_or_newline c))
                       (host +:+ path +:+ tail) = true).
  { rewrite !forallb_append. rewrite !andb_true_iff. repeat split.
    - eapply forallb_impl; [|exact Hhost]. intros a Ha.
      apply host_char_facts in Ha as (Ha & _). by rewrite visible_not_tab.
    - eapply forallb_impl; [|exact Hpath]. intros a Ha.
      apply path_char_facts in Ha as (Ha & _). by rewrite visible_not_tab.
    - eapply forallb_impl; [|exact Hchars]. intros a Ha.
      apply negb_true_iff in Ha. by rewrite visible_not_tab. }
  assert (Hnetloc : Str.forallb (fun c => negb (ends_netloc c)) host = true).
  { eapply forallb_impl; [|exact Hhost]. intros a Ha.
    apply host_char_facts in Ha as (_ & -> & _). done. }
  assert (Hopen : Str.contains "[" host = false).
  { apply (contains_none host_char); done. }
  assert (Hclose : Str.contains "]" host = false).
  { apply (contains_none host_char); done. }
  assert (Hascii : checknetloc host = None).
  { apply checknetloc_ascii. eapply forallb_impl; [|exact Hhost]. intros a Ha.
    apply host_char_facts in Ha as (_ & _ & _ & _ & Ha). by apply N.ltb_lt. }
  assert (Hparams : Str.contains ";" path = false).
  { apply (contains_none path_char); done. }
  destruct (after_host path tail Hstart Htail) as [Htake Hdrop].
  unfold urlparse. cbv zeta.
  rewrite strip_usual, split_scheme_usual by done.
  change (Str.strip_prefix "//" ("//" +:+ host +:+ path +:+ tail))
    with (Some (host +:+ path +:+ tail)).
  cbv beta iota.
  rewrite take_while_append, drop_while_all by done. rewrite Htake, Hdrop.
  rewrite append_nil_r, Hopen, Hclose. cbn [xorb]. cbv iota.
  rewrite path_of_rest by done. by rewrite Hascii, Hparams, andb_false_r.
Qed.

Lemma rpartition_absent c s : Str.contains c s = false -> Str.rpartition c s = None.
Proof.
  induction s as [|a s IH]; [done|]. cbn [Str.contains Str.rpartition].
  intros [-> Hs]%orb_false_iff. by rewrite IH.
Qed.

Lemma basename_last dir last :
  Str.contains "/" last = false -> basename (dir +:+ "/" +:+ last) = last.
Proof.
  intros Hlast. unfold basename.
  change (dir +:+ "/" +:+ last) with (dir +:+ String "/" last).
  by rewrite rpartition_last.
Qed.

(** The extension is what follows the last dot of the last component,
    after a character of it that is not a dot. *)
Lemma splitext_ext_last dir dots body e :
  Str.contains "/" (dots +:+ body +:+ String "." e) = false ->
  Str.forallb is_dot dots = true ->
  body <> "" -> Str.startswith body "." = false ->
  Str.contains "." e = false ->
  splitext_ext (dir +:+ "/" +:+ dots +:+ body +:+ String "." e) = String "." e.
Proof.
  intros Hlast Hdots Hbody Hstart He. unfold splitext_ext.
  rewrite basename_last by done. rewrite drop_while_all by done.
  destruct body as [|b body]; [done|]. rewrite append_cons.
  rewrite drop_while_head.
  - rewrite <- append_cons. by rewrite rpartition_last.
  - unfold Str.startswith in Hstart. cbn [Str.strip_prefix] in Hstart.
    unfold is_dot. rewrite Ascii.eqb_sym. by destruct (Ascii.eqb "." b).
Qed.

(** A last component without a dot after its leading dots has no
    extension. *)
Lemma splitext_ext_none dir dots body :
  Str.contains "/" (dots +:+ body) = false ->
  Str.forallb is_dot dots = true ->
  Str.contains "." body = false ->
  splitext_ext (dir +:+ "/" +:+ dots +:+ body) = "".
Proof.
  intros Hlast Hdots Hbody. unfold splitext_ext.
  rewrite basename_last by done. rewrite drop_while_all by done.
  assert (Hkeep : Str.drop_while is_dot body = body).
  { destruct body as [|b body]; [done|]. apply drop_while_head.
    cbn [Str.contains] in Hbody. apply orb_false_iff in Hbody as [Hb _].
    done. }
  by rewrite Hkeep, rpartition_absent.
Qed.

Lemma extension_of_usual url scheme host path tail :
  usual_url url scheme host path tail ->
  extension_of url
  = if String.eqb (splitext_ext path) "" then ".png" else splitext_ext path.
Proof.
  intros Hurl. unfold extension_of, urlparse_path.
  by rewrite (urlparse_usual url scheme host path tail Hurl).
Qed.

Lemma os_path_join_absolute dir name : Str.startswith name "/" = true -> os_path_join dir name = name.
Proof. intros Hname. unfold os_path_join. by rewrite Hname. Qed.

Lemma os_path_join_open dir name :
  Str.startswith name "/" = false ->
  dir = "" \/ Str.endswith dir "/" = true ->
  os_path_join dir name = dir +:+ name.
Proof.
  intros Hname Hdir. unfold os_path_join. rewrite Hname.
  destruct Hdir as [-> | ->]; [done|]. by rewrite orb_true_r.
Qed.

Lemma startswith_append_dot name ext :
  Str.startswith (name +:+ String "." ext) "/" = Str.startswith name "/".
Proof.
  destruct name as [|c name]; [done|]. rewrite append_cons.
  unfold Str.startswith. cbn [Str.strip_prefix]. by destruct (Ascii.eqb "/" c).
Qed.

Lemma extension_of_shape url : exists e, extension_of url = String "." e.
Proof.
  unfold extension_of. cbv zeta.
  destruct (splitext_ext_dot (default "" (urlparse_path url))) as [->|[e ->]];
    by eexists.
Qed.

(** ** The asset fetcher *)

Section FetcherFacts.

Variable E : env.

(** [download_emoji] ends, and does to the world, what the environment
    alone decides: not the state of the world it runs in. *)
Lemma download_emoji_run name url output_dir w :
  download_emoji E name url output_dir w
  = (download_result E name url output_dir, download_effect E name url output_dir w).
Proof.
  unfold download_emoji, download_result, download_effect, local_file, extension_of.
  destruct (is_alias url); [done|].
  destruct (urlparse_path url) as [path|]; [|done].
  unfold bind at 1, ret at 1. cbn [default]. cbv zeta.
  set (file := os_path_join _ _).
  unfold download_events, download_failure, download_writes, failure_line.
  unfold try_except, bind at 1, get.
  destruct (http_get E url []) as [r|e]; [|by run_effects].
  destruct (ok r); [|by run_effects].
  unfold bind at 1, write_file. rewrite files_log.
  destruct (open_error E file); [by run_effects|].
  destruct (stream_error r); by run_effects.
Qed.

Lemma settle_cons output_dir items i order futures :
  settle E output_dir items (i :: order) futures
  = settle E output_dir items order
      match items !! i with
      | Some item =>
          <[i := Some (download_result E (fst item) (snd item) output_dir)]> futures
      | None => futures
      end.
Proof. done. Qed.

Lemma pool_effect_cons output_dir items i order w :
  pool_effect E output_dir items (i :: order) w
  = pool_effect E output_dir items order
      match items !! i with
      | Some item => download_effect E (fst item) (snd item) output_dir w
      | None => w
      end.
Proof. done. Qed.

Lemma download_failure_writes url file :
  download_failure E url file = None -> is_Some (download_writes E url file).
Proof.
  unfold download_failure, download_writes.
  destruct (http_get E url []) as [r|]; [|done].
  destruct (ok r); [|done]. destruct (open_error E file); [done|]. by eexists.
Qed.

(** C6.  An entry that [download_emoji] downloads is saved in the file
    that [os.path.join] makes of the output directory and the name of
    the emoji with an extension: the name with its extension alone when
    the name begins with "/", after the directory as it is when that is
    empty or ends in "/", after the directory and a "/" otherwise.  The
    extension is the one that ends the path of the URL, and ".png" when
    that path has none.  For an address of the usual form, whose path is
    what stands between the host and the query or the fragment, the
    extension is what the last component of the path has from its last
    dot on, when a character other than a dot stands before that dot
    in the component; a component without such a dot, as "image", gives
    ".png". *)
Theorem download_emoji_local_file name url output_dir w n file :
  fst (download_emoji E name url output_dir w) = Ret (Some (n, file)) ->
  exists ext,
    n = name
    /\ file = os_path_join output_dir (name +:+ ext)
    /\ is_Some (Dict.get file (files (snd (download_emoji E name url output_dir w))))
    /\ (Str.startswith name "/" = true -> file = name +:+ ext)
    /\ (Str.startswith name "/" = false ->
        output_dir = "" \/ Str.endswith output_dir "/" = true ->
        file = output_dir +:+ name +:+ ext)
    /\ (Str.startswith name "/" = false ->
        output_dir <> "" -> Str.endswith output_dir "/" = false ->
        file = output_dir +:+ "/" +:+ name +:+ ext)
    /\ (exists url_path root,
          urlparse_path url = Some url_path
          /\ url_path = root +:+ splitext_ext url_path
          /\ ext = if String.eqb (splitext_ext url_path) "" then ".png"
                   else splitext_ext url_path)
    /\ forall scheme host path tail,
         usual_url url scheme host path tail ->
         (path = "" -> ext = ".png")
         /\ forall dir last,
              path = dir +:+ "/" +:+ last -> Str.contains "/" last = false ->
              (forall dots body e,
                 last = dots +:+ body +:+ String "." e ->
                 Str.forallb is_dot dots = true ->
                 body <> "" -> Str.startswith body "." = false ->
                 Str.contains "." e = false ->
                 ext = String "." e)
              /\ (forall dots body,
                    last = dots +:+ body ->
                    Str.forallb is_dot dots = true ->
                    Str.contains "." body = false ->
                    ext = ".png")
              /\ (last = "image" -> ext = ".png").
Proof.
  rewrite download_emoji_run. cbn [fst snd].
  unfold download_result, download_effect, local_file.
  destruct (is_alias url); [done|].
  destruct (urlparse_path url) as [url_path|] eqn:Hparse; [|done].
  destruct (download_failure E url _) eqn:Hfail; [done|]. intros [= <- <-].
  exists (extension_of url).
  destruct (extension_of_shape url) as [e He].
  split; [done|]. split; [done|]. split.
  { apply download_failure_writes in Hfail as [content Hw]. cbn [files].
    rewrite Hw. exists content. apply Dict_get_set_eq. }
  split.
  { intros Hname. apply os_path_join_absolute. by rewrite He, startswith_append_dot. }
  split.
  { intros Hname Hdir. apply os_path_join_open; [|done].
    by rewrite He, startswith_append_dot. }
  split.
  { intros Hname Hdir Hend. apply os_path_join_plain; [done..|].
    by rewrite He, startswith_append_dot. }
  split.
  { destruct (splitext_ext_suffix url_path) as [root Hroot].
    exists url_path, root. split; [done|]. split; [done|].
    unfold extension_of. by rewrite Hparse. }
  intros scheme host path tail Hurl.
  rewrite (extension_of_usual url scheme host path tail Hurl).
  split; [by intros ->|].
  intros dir last -> Hlast. split; [|split].
  - intros dots body e' -> Hdots Hbody Hstart He'.
    by rewrite splitext_ext_last.
  - intros dots body -> Hdots Hbody. by rewrite splitext_ext_none.
  - intros ->. change (dir +:+ "/" +:+ "image") with (dir +:+ "/image").
    by rewrite splitext_ext_image.
Qed.

Lemma run_tasks_download output_dir items order : forall futures w,
  run_tasks order
    (map (fun item => download_emoji E (fst item) (snd item) output_dir) items)
    futures w
  = (settle E output_dir items order futures,
     pool_effect E output_dir items order w).
Proof.
  induction order as [|i order IH]; intros futures w; [done|].
  cbn [run_tasks]. rewrite settle_cons, pool_effect_cons.
  change (map ?f items) with (f <$> items). rewrite list_lookup_fmap.
  destruct (items !! i) as [item|]; cbn [fmap option_fmap option_map].
  - rewrite download_emoji_run. apply IH.
  - apply IH.
Qed.

Lemma length_settle output_dir items order : forall futures,
  length (settle E output_dir items order futures) = length futures.
Proof.
  induction order as [|i order IH]; intros futures; [done|].
  rewrite settle_cons.
  destruct (items !! i); rewrite IH; [apply length_insert | done].
Qed.

Lemma settle_lookup_other output_dir items order i : forall futures,
  i ∉ order -> settle E output_dir items order futures !! i = futures !! i.
Proof.
  induction order as [|j order IH]; intros futures Hi; [done|].
  apply not_elem_of_cons in Hi as [Hne Hi].
  rewrite settle_cons, IH by done.
  destruct (items !! j); [|done]. by apply list_lookup_insert_ne.
Qed.

Lemma settle_lookup output_dir items order i item : forall futures,
  i ∈ order -> items !! i = Some item -> (i < length futures)%nat ->
  settle E output_dir items order futures !! i
  = Some (Some (download_result E (fst item) (snd item) output_dir)).
Proof.
  induction order as [|j order IH]; intros futures Hi Hitem Hlen.
  { by apply elem_of_nil in Hi. }
  rewrite settle_cons.
  destruct (decide (i ∈ order)) as [Hin|Hnotin].
  - apply IH; [done..|]. destruct (items !! j); [by rewrite length_insert | done].
  - apply elem_of_cons in Hi as [->|Hi]; [|done].
    rewrite settle_lookup_other by done. rewrite Hitem.
    by apply list_lookup_insert_eq.
Qed.

(** Once every task has run, whatever the order, the futures are those
    of the entries in the order of submission. *)
Lemma settle_all output_dir items order :
  order ≡ₚ seq 0 (length items) ->
  settle E output_dir items order (replicate (length items) None)
  = (fun item => Some (download_result E (fst item) (snd item) output_dir)) <$> items.
Proof.
  intros Hperm. apply list_eq. intros i. rewrite list_lookup_fmap.
  destruct (items !! i) as [item|] eqn:Hitem; cbn.
  - apply settle_lookup; [|done|].
    + rewrite Hperm. apply elem_of_seq. apply lookup_lt_Some in Hitem. lia.
    + rewrite length_replicate. by apply lookup_lt_Some in Hitem.
  - apply lookup_ge_None. rewrite length_settle, length_replicate.
    by apply lookup_ge_None in Hitem.
Qed.

Lemma completion_order_permutation sched n : completion_order sched n ≡ₚ seq 0 n.
Proof.
  unfold completion_order.
  set (first := List.nodup Nat.eq_dec (List.filter (fun i => (i <? n)%nat) sched)).
  assert (Hfirst : forall i, i ∈ first -> (i < n)%nat).
  { intros i Hi. apply list_elem_of_In, List.nodup_In, List.filter_In in Hi as [_ Hi].
    by apply Nat.ltb_lt in Hi. }
  assert (Hrest : forall i,
            i ∈ List.filter (fun i => negb (existsb (Nat.eqb i) first)) (seq 0 n)
            <-> (i < n)%nat /\ i ∉ first).
  { intros i. rewrite list_elem_of_In, List.filter_In, <- list_elem_of_In, elem_of_seq.
    rewrite negb_true_iff, <- not_true_iff_false, existsb_exists.
    split; intros [Hn Hi]; (split; [lia|]).
    - intros Hin. apply Hi. exists i. split; [by apply list_elem_of_In|].
      apply Nat.eqb_refl.
    - intros (j & Hj & Heq). apply Nat.eqb_eq in Heq as <-.
      by apply list_elem_of_In in Hj. }
  apply NoDup_Permutation.
  - apply NoDup_app. split; [|split].
    + apply NoDup_ListNoDup, List.NoDup_nodup.
    + intros i Hi Hr. apply Hrest in Hr as [_ Hr]. done.
    + apply NoDup_ListNoDup, List.NoDup_filter, List.seq_NoDup.
  - apply NoDup_seq.
  - intros i. rewrite elem_of_app, Hrest, elem_of_seq. split.
    + intros [Hi|[Hi _]]; [apply Hfirst in Hi|]; lia.
    + intros [_ Hi]. destruct (decide (i ∈ first)); [by left | right; split; [lia|done]].
Qed.

Lemma download_result_parses name url output_dir :
  parses url ->
  download_result E name url output_dir
  = Ret (downloaded_entry E output_dir (name, url)).
Proof.
  intros [path Hpath]. unfold download_result, downloaded_entry, download_fails.
  cbn [fst snd]. destruct (is_alias url); [done|]. rewrite Hpath. cbn [orb].
  destruct (download_failure E url _) eqn:Hfail.
  - rewrite bool_decide_eq_true_2; [done | by eexists].
  - rewrite bool_decide_eq_false_2; [done | by intros [? ?]].
Qed.

(** The loop over the futures keeps the results in the order of the
    futures. *)
Lemma join_downloads output_dir items : forall downloaded w,
  Forall (fun item => parses (snd item)) items ->
  join ((fun item => Some (download_result E (fst item) (snd item) output_dir))
        <$> items) downloaded w
  = (Ret (downloaded ++ omap (downloaded_entry E output_dir) items), w).
Proof.
  induction items as [|[name url] items IH]; intros downloaded w Hall.
  - cbn. by rewrite app_nil_r.
  - apply Forall_cons in Hall as [Hurl Hall]. cbn [fmap list_fmap join fst snd].
    unfold bind at 1, future_result. rewrite download_result_parses by done.
    cbn [omap list_omap].
    destruct (downloaded_entry E output_dir (name, url)).
    + rewrite IH by done. by rewrite <- app_assoc.
    + by apply IH.
Qed.

(** [download_emojis] on a catalog whose URLs all parse. *)
Lemma download_emojis_run catalog output_dir sched w :
  makedirs_error E output_dir = None ->
  Forall (fun item => parses (snd item)) catalog ->
  download_emojis E (inr catalog) output_dir sched w
  = (Ret (omap (downloaded_entry E output_dir) catalog),
     fetched_world E output_dir catalog
       (completion_order sched (length catalog)) w).
Proof.
  intros Hmk Hall. unfold download_emojis, fetched_world, makedirs. rewrite Hmk.
  unfold bind at 1, emit. unfold bind at 1, ret at 1.
  unfold bind at 1, print at 1, emit. rewrite log_log. cbn [app].
  unfold bind at 1. rewrite length_map, run_tasks_download.
  rewrite settle_all by apply completion_order_permutation.
  unfold bind at 1. rewrite join_downloads by done. cbn [app].
  by run_effects.
Qed.

Lemma printed_download_effect name url output_dir w :
  printed (trace (download_effect E name url output_dir w))
  = printed (trace w) ++ item_lines E output_dir (name, url).
Proof.
  unfold download_effect, item_lines, download_events. cbn [fst snd].
  destruct (is_alias url); [by rewrite app_nil_r|].
  destruct (urlparse_path url); [|by rewrite app_nil_r].
  cbn [trace]. rewrite !printed_app. cbn [printed omap list_omap app].
  by destruct (download_writes E url _), (download_failure E url _).
Qed.

Lemma printed_pool_effect output_dir items order : forall w,
  printed (trace (pool_effect E output_dir items order w))
  = printed (trace w)
    ++ (order ≫= fun i => match items !! i with
                          | Some item => item_lines E output_dir item
                          | None => []
                          end).
Proof.
  induction order as [|i order IH]; intros w.
  - cbn. by rewrite app_nil_r.
  - rewrite pool_effect_cons, IH, bind_cons.
    destruct (items !! i) as [[name url]|]; [|done].
    by rewrite printed_download_effect, <- app_assoc.
Qed.

Lemma bind_seq_lookup {A B} (f : A -> list B) (items : list A) : forall pre,
  (seq (length pre) (length items)
   ≫= fun i => match (pre ++ items) !! i with Some item => f item | None => [] end)
  = items ≫= f.
Proof.
  induction items as [|x items IH]; intros pre; [done|].
  cbn [length seq]. rewrite !bind_cons.
  rewrite list_lookup_middle by done. f_equal.
  specialize (IH (pre ++ [x])). rewrite length_app, Nat.add_1_r in IH.
  rewrite <- IH. by rewrite <- app_assoc.
Qed.

(** The lines of the tasks, in whatever order they were printed, are
    those of the entries. *)
Lemma pool_lines_permutation output_dir items order :
  order ≡ₚ seq 0 (length items) ->
  (order ≫= fun i => match items !! i with
                     | Some item => item_lines E output_dir item
                     | None => []
                     end)
  ≡ₚ items ≫= item_lines E output_dir.
Proof.
  intros ->. by rewrite <- (bind_seq_lookup (item_lines E output_dir) items []).
Qed.

Lemma item_lines_failure_lines output_dir catalog :
  Forall (fun item => is_alias (snd item) = false /\ parses (snd item)) catalog ->
  catalog ≫= item_lines E output_dir = failure_lines E output_dir catalog.
Proof.
  induction 1 as [|[name url] catalog [Halias [path Hpath]] _ IH]; [done|].
  cbn [snd] in Halias, Hpath.
  rewrite bind_cons, IH. unfold failure_lines, item_lines. cbn [fst snd omap list_omap].
  rewrite Halias, Hpath.
  by destruct (download_failure E url _).
Qed.

Lemma length_failure_lines output_dir catalog :
  length (failure_lines E output_dir catalog)
  = length (List.filter (download_fails E output_dir) catalog).
Proof.
  induction catalog as [|[name url] catalog IH]; [done|].
  unfold failure_lines, download_fails. cbn [omap list_omap List.filter fst snd].
  fold (failure_lines E output_dir catalog). fold (download_fails E output_dir).
  destruct (download_failure E url _); cbn [fmap option_fmap option_map].
  - rewrite bool_decide_eq_true_2 by (by eexists). cbn. by rewrite IH.
  - rewrite bool_decide_eq_false_2 by (by intros [? ?]). done.
Qed.

Lemma length_downloaded output_dir catalog :
  Forall (fun item => is_alias (snd item) = false) catalog ->
  (length (omap (downloaded_entry E output_dir) catalog)
   + length (List.filter (download_fails E output_dir) catalog))%nat
  = length catalog.
Proof.
  induction 1 as [|item catalog Halias _ IH]; [done|].
  cbn [omap list_omap List.filter]. unfold downloaded_entry at 1. rewrite Halias.
  cbn [orb]. destruct (download_fails E output_dir item); cbn [length]; lia.
Qed.

Lemma omap_sublist {A B} (f : A -> option B) (g : A -> B) (l : list A) :
  (forall x y, f x = Some y -> y = g x) -> omap f l `sublist_of` (g <$> l).
Proof.
  intros Hfg. induction l as [|x l IH]; [done|]. cbn.
  destruct (f x) as [y|] eqn:Hfx.
  - apply Hfg in Hfx as ->. by apply sublist_skip.
  - by apply sublist_cons.
Qed.

(** C9.  Whatever the order in which the downloads complete,
    [download_emojis] returns the entries that were downloaded in the
    order of the catalog, the order in which the tasks were submitted:
    its result is a subsequence of the catalog's entries, each with its
    local file, and it is the same for every schedule. *)
Theorem download_emojis_submission_order catalog output_dir sched w :
  makedirs_error E output_dir = None ->
  Forall (fun item => parses (snd item)) catalog ->
  let downloaded := omap (downloaded_entry E output_dir) catalog in
  fst (download_emojis E (inr catalog) output_dir sched w) = Ret downloaded
  /\ downloaded
     `sublist_of` ((fun item => (fst item, local_file output_dir (fst item) (snd item)))
                   <$> catalog)
  /\ forall sched',
       fst (download_emojis E (inr catalog) output_dir sched' w)
       = fst (download_emojis E (inr catalog) output_dir sched w).
Proof.
  intros Hmk Hall downloaded. rewrite download_emojis_run by done.
  split; [done|]. split.
  - apply omap_sublist. intros item y. unfold downloaded_entry.
    destruct (_ || _); [done|]. by intros [= <-].
  - intros sched'. by rewrite download_emojis_run.
Qed.

(** C5.  For a catalog of [N] entries, none of them an alias and each
    with an address that [urlparse] accepts, of which [K] fail to
    download (the transport raises, the status is not OK, the file cannot
    be written or the stream breaks), [download_emojis] returns, without
    raising, the [N - K] entries that did not fail, whatever the schedule
    of the pool; between its first and its last line it has printed one
    line per failure, with the name of the emoji and the status or the
    error. *)
Theorem download_emojis_isolates_failures catalog output_dir sched w :
  makedirs_error E output_dir = None ->
  Forall (fun item => is_alias (snd item) = false /\ parses (snd item)) catalog ->
  let N := length catalog in
  let K := length (List.filter (download_fails E output_dir) catalog) in
  let downloaded := omap (downloaded_entry E output_dir) catalog in
  let run := download_emojis E (inr catalog) output_dir sched w in
  fst run = Ret downloaded
  /\ length downloaded = (N - K)%nat
  /\ (forall name file,
        (name, file) ∈ downloaded
        <-> exists url, (name, url) ∈ catalog
              /\ download_fails E output_dir (name, url) = false
              /\ file = local_file output_dir name url)
  /\ exists lines,
       printed (trace (snd run))
       = printed (trace w)
         ++ [downloading_line N output_dir] ++ lines ++ [downloaded_line (N - K)]
       /\ lines ≡ₚ failure_lines E output_dir catalog
       /\ length lines = K.
Proof.
  intros Hmk Hall N K downloaded.
  assert (Hparse : Forall (fun item => parses (snd item)) catalog).
  { eapply Forall_impl; [exact Hall|]. by intros ? [_ ?]. }
  assert (Halias : Forall (fun item => is_alias (snd item) = false) catalog).
  { eapply Forall_impl; [exact Hall|]. by intros ? [? _]. }
  rewrite download_emojis_run by done. cbn [fst snd].
  assert (Hlen : length downloaded = (N - K)%nat).
  { pose proof (length_downloaded output_dir catalog Halias). subst N K downloaded. lia. }
  split; [done|]. split; [done|]. split.
  - intros name file. subst downloaded. rewrite list_elem_of_omap. split.
    + intros ([name' url] & Hin & Hentry). unfold downloaded_entry in Hentry.
      cbn [fst snd] in Hentry.
      destruct (is_alias url); [done|]. cbn [orb] in Hentry.
      destruct (download_fails E output_dir (name', url)) eqn:Hfail; [done|].
      injection Hentry as <- <-. by exists url.
    + intros (url & Hin & Hfail & ->). exists (name, url). split; [done|].
      unfold downloaded_entry. rewrite Hfail. cbn [fst snd].
      apply (proj1 (Forall_forall _ _) Halias) in Hin. cbn [snd] in Hin.
      by rewrite Hin.
  - exists (completion_order sched (length catalog)
            ≫= fun i => match catalog !! i with
                        | Some item => item_lines E output_dir item
                        | None => []
                        end).
    unfold fetched_world. rewrite trace_log, printed_app.
    rewrite printed_pool_effect, trace_log, printed_app. cbn [printed omap list_omap].
    fold downloaded. rewrite Hlen, <- !app_assoc. split; [reflexivity|].
    pose proof (pool_lines_permutation output_dir catalog _
                  (completion_order_permutation sched (length catalog))) as Hperm.
    rewrite item_lines_failure_lines in Hperm by done.
    split; [done|]. rewrite Hperm. apply length_failure_lines.
Qed.

End FetcherFacts.

(** ** The scan of [upload_emojis] *)

Section ScanFacts.

Variable E : env.

Lemma same_run_bind {A B} (m : M A) (k : A -> M B) w1 w2 :
  same_run w1 w2 (m w1) (m w2) ->
  (forall a w1' w2',
     trace w1' = trace w2' -> files w1' = files w1 -> files w2' = files w2 ->
     same_run w1' w2' (k a w1') (k a w2')) ->
  same_run w1 w2 (bind m k w1) (bind m k w2).
Proof.
  intros (Ho & Ht & Hf1 & Hf2) Hk. unfold bind.
  destruct (m w1) as [o1 w1'], (m w2) as [o2 w2']. cbn [fst snd] in *. subst o2.
  destruct o1 as [a|e|code]; [|done..].
  destruct (Hk a w1' w2' Ht Hf1 Hf2) as (? & ? & ? & ?).
  repeat split; congruence.
Qed.

Lemma same_run_emit e w1 w2 :
  trace w1 = trace w2 -> same_run w1 w2 (emit e w1) (emit e w2).
Proof. intros Ht. unfold same_run, emit. cbn. by rewrite Ht. Qed.

Lemma same_run_ret {A} (a : A) w1 w2 :
  trace w1 = trace w2 -> same_run w1 w2 (ret a w1) (ret a w2).
Proof. by intros Ht. Qed.

Lemma same_run_open_read path w1 w2 :
  trace w1 = trace w2 -> Dict.get path (files w1) = Dict.get path (files w2) ->
  same_run w1 w2 (open_read path w1) (open_read path w2).
Proof.
  intros Ht Hg. unfold open_read. rewrite <- Hg.
  destruct (Dict.get path (files w1)); unfold same_run; cbn; by rewrite Ht.
Qed.

Lemma same_run_post url headers form w1 w2 :
  trace w1 = trace w2 ->
  same_run w1 w2 (post E url headers form w1) (post E url headers form w2).
Proof.
  intros Ht. unfold post. rewrite <- Ht.
  destruct (http_post E _ url headers form); unfold same_run; cbn; by rewrite Ht.
Qed.

(** Runs the binds of a straight-line piece of an upload. *)
Ltac same_run_steps :=
  repeat first
    [ apply same_run_ret; assumption
    | apply same_run_emit; assumption
    | apply same_run_bind; [ | intros ? ? ? ? ? ? ] ].

Lemma same_run_upload_attempts remaining url headers token name file_path :
  forall attempts backoff w1 w2,
  trace w1 = trace w2 ->
  Dict.get file_path (files w1) = Dict.get file_path (files w2) ->
  same_run w1 w2
    (upload_attempts E remaining url headers token name file_path attempts backoff w1)
    (upload_attempts E remaining url headers token name file_path attempts backoff w2).
Proof.
  induction remaining as [|remaining IH]; intros attempts backoff w1 w2 Ht Hg.
  { by apply same_run_ret. }
  cbn [upload_attempts].
  apply same_run_bind; [by apply same_run_open_read|].
  intros f wa1 wa2 Hta Hfa1 Hfa2.
  apply same_run_bind; [by apply same_run_post|].
  intros response wb1 wb2 Htb Hfb1 Hfb2.
  assert (Hretry : forall attempts backoff wc1 wc2,
            trace wc1 = trace wc2 -> files wc1 = files w1 -> files wc2 = files w2 ->
            same_run wc1 wc2
              (upload_attempts E remaining url headers token name file_path
                 attempts backoff wc1)
              (upload_attempts E remaining url headers token name file_path
                 attempts backoff wc2)).
  { intros ? ? wc1 wc2 Htc Hfc1 Hfc2. apply IH; [done|]. by rewrite Hfc1, Hfc2. }
  assert (Hfiles : forall wc1 wd1 : world,
            files wd1 = files wc1 -> files wc1 = files w1 -> files wd1 = files w1)
    by congruence.
  assert (Hfiles' : forall wc2 wd2 : world,
            files wd2 = files wc2 -> files wc2 = files w2 -> files wd2 = files w2)
    by congruence.
  destruct (ok response).
  - apply same_run_bind.
    { unfold response_json. destruct (json response); [by apply same_run_ret|].
      unfold same_run, raise. cbn. by rewrite Htb. }
    intros data wc1 wc2 Htc Hfc1 Hfc2.
    destruct (body_ok data).
    + unfold print. same_run_steps.
    + destruct (String.eqb _ "ratelimited"); unfold print, sleep.
      * same_run_steps. apply Hretry; eauto 10.
      * same_run_steps.
  - destruct (status_code response =? 429); unfold print, sleep.
    + same_run_steps. apply Hretry; eauto 10.
    + apply same_run_bind; [by apply same_run_emit|].
      intros ? wc1 wc2 Htc Hfc1 Hfc2.
      destruct (attempts + 1 <? max_retries).
      * same_run_steps. apply Hretry; eauto 10.
      * same_run_steps.
Qed.

Lemma same_run_upload_each team_id cookie token emoji_files :
  forall uploaded failed w1 w2,
  trace w1 = trace w2 ->
  Forall (fun q => Dict.get q (files w1) = Dict.get q (files w2)) emoji_files ->
  same_run w1 w2
    (upload_each E team_id cookie token emoji_files uploaded failed w1)
    (upload_each E team_id cookie token emoji_files uploaded failed w2).
Proof.
  induction emoji_files as [|file_path emoji_files IH];
    intros uploaded failed w1 w2 Ht Hall.
  { by apply same_run_ret. }
  apply Forall_cons in Hall as [Hfile Hall]. cbn [upload_each].
  apply same_run_bind; [by apply same_run_emit|].
  intros _ wa1 wa2 Hta Hfa1 Hfa2.
  apply same_run_bind.
  { apply same_run_upload_attempts; [done|]. by rewrite Hfa1, Hfa2. }
  intros done wb1 wb2 Htb Hfb1 Hfb2.
  destruct done; (apply same_run_bind; [by apply same_run_emit|]);
    intros _ wc1 wc2 Htc Hfc1 Hfc2;
    (apply IH; [done|]); by rewrite Hfc1, Hfb1, Hfa1, Hfc2, Hfb2, Hfa2.
Qed.

Lemma bind_read {A B} (f : world -> A) (k : A -> M B) w :
  bind (fun w => (Ret (f w), w)) k w = k (f w) w.
Proof. done. Qed.

Lemma omap_filter_none {A B} (g : A -> option B) (keep : A -> bool) (l : list A) :
  (forall x, x ∈ l -> keep x = false -> g x = None) ->
  omap g (List.filter keep l) = omap g l.
Proof.
  induction l as [|x l IH]; intros Hnone; [done|]. cbn [List.filter omap list_omap].
  assert (Hl : omap g (List.filter keep l) = omap g l).
  { apply IH. intros y Hy. apply Hnone. by apply list_elem_of_further. }
  destruct (keep x) eqn:Hkeep; cbn [omap list_omap].
  - by rewrite Hl.
  - rewrite (Hnone x) by (done || apply list_elem_of_here). done.
Qed.

Lemma glob_without emoji_dir pat f path :
  path ∉ glob emoji_dir pat f ->
  glob emoji_dir pat (without_file path f) = glob emoji_dir pat f.
Proof.
  intros Hnot. unfold glob, without_file. apply omap_filter_none.
  intros [q content] Hin Hq. cbn [fst] in *.
  apply negb_false_iff, String.eqb_eq in Hq as ->.
  destruct (entry_name emoji_dir path) as [name|] eqn:Hname; [|done].
  destruct (fnmatch pat name) eqn:Hmatch; [|done].
  destruct Hnot. unfold glob. apply list_elem_of_omap.
  exists (path, content). split; [done|]. cbn [fst]. by rewrite Hname, Hmatch.
Qed.

Lemma emoji_files_without emoji_dir f path :
  path ∉ emoji_files emoji_dir f ->
  emoji_files emoji_dir (without_file path f) = emoji_files emoji_dir f.
Proof.
  unfold emoji_files. cbn [flat_map]. rewrite !app_nil_r, !elem_of_app.
  intros Hnot. rewrite !glob_without; [done|tauto..].
Qed.

Lemma Dict_get_without path q (f : fs) :
  q <> path -> Dict.get q (without_file path f) = Dict.get q f.
Proof.
  intros Hne. induction f as [|[k v] f IH]; [done|].
  cbn [without_file List.filter fst]. fold (without_file path f).
  destruct (String.eqb_spec k path) as [->|Hk]; cbn [negb Dict.get].
  - rewrite IH. by apply not_eq_sym, String.eqb_neq in Hne as ->.
  - by rewrite IH.
Qed.

Lemma image_extensions_lower e : e ∈ image_extensions -> Str.lower e = e.
Proof.
  unfold image_extensions. intros He.
  repeat (apply elem_of_cons in He as [->|He]; [done|]).
  by apply elem_of_nil in He.
Qed.

(** C10.  The scan of [upload_emojis] finds the files whose name ends in
    ".png", ".jpg", ".jpeg" or ".gif" written in lower case, and no
    others.  A file of the directory whose extension has a capital
    letter, like "smile.PNG", is not among the files found; with or
    without it in the directory, [upload_emojis] returns the same count
    after the same events, the line with the uploaded and failed counts
    included. *)
Theorem upload_emojis_skips_other_case team_id cookie token emoji_dir w path name
    stem e :
  entry_name emoji_dir path = Some name ->
  Str.rpartition "." name = Some (stem, e) ->
  Str.lower e <> e ->
  let w' := {| trace := trace w; files := without_file path (files w) |} in
  (forall q,
     q ∈ emoji_files emoji_dir (files w)
     <-> exists name' stem' e' content,
           (q, content) ∈ files w /\ entry_name emoji_dir q = Some name'
           /\ Str.rpartition "." name' = Some (stem', e') /\ e' ∈ image_extensions)
  /\ (path ∉ emoji_files emoji_dir (files w))
  /\ (same_run w w'
        (upload_emojis E team_id cookie token emoji_dir w)
        (upload_emojis E team_id cookie token emoji_dir w')).
Proof.
  intros Hname Hstem Hcase w'.
  assert (Hnot : path ∉ emoji_files emoji_dir (files w)).
  { intros (name' & stem' & e' & content & _ & Hname' & Hstem' & He')%emoji_files_spec.
    rewrite Hname in Hname'. injection Hname' as <-.
    rewrite Hstem in Hstem'. injection Hstem' as <- <-.
    by apply image_extensions_lower in He'. }
  split; [intros q; apply emoji_files_spec|]. split; [done|].
  unfold upload_emojis.
  rewrite !(bind_read (fun w => emoji_files emoji_dir (files w))).
  subst w'. cbn [files]. rewrite emoji_files_without by done.
  apply same_run_bind; [by apply same_run_emit|].
  intros _ wa wa' Hta Hfa Hfa'.
  apply same_run_bind.
  - apply same_run_upload_each; [done|]. rewrite Hfa, Hfa'. cbn [files].
    apply Forall_forall. intros q Hq. symmetry. apply Dict_get_without.
    by intros ->.
  - intros [uploaded failed] wb wb' Htb Hfb Hfb'.
    apply same_run_bind; [by apply same_run_emit|].
    intros _ wc wc' Htc Hfc Hfc'. by apply same_run_ret.
Qed.

End ScanFacts.

(** ** The catalog artifact *)

Lemma length_append (s1 s2 : string) :
  String.length (s1 +:+ s2) = (String.length s1 + String.length s2)%nat.
Proof.
  induction s1 as [|c s1 IH]; [done|]. rewrite append_cons. cbn. by rewrite IH.
Qed.

(** A [str] is recognised from its code points. *)
Lemma unpaired_str_decode s :
  Utf8.str (Utf8.decode s) = s ->
  forallb is_code_point (Utf8.decode s) = true ->
  unpaired (Utf8.decode s) = true ->
  unpaired_str s.
Proof. intros Hs Hcp Hun. by exists (Utf8.decode s). Qed.

(** ** Code points and their bytes *)

Ltac divmod := zify; Z.to_euclidean_division_equations; lia.

Lemma code_byte n : (n < 256)%N -> Str.code (Utf8.byte n) = n.
Proof. apply N_ascii_embedding. Qed.

Lemma in_range_byte lo hi n :
  (n < 256)%N -> Str.in_range lo hi (Utf8.byte n) = ((lo <=? n) && (n <=? hi))%N.
Proof. intros Hn. unfold Str.in_range. by rewrite code_byte. Qed.

Lemma continuation_byte x :
  (x < 64)%N -> Utf8.continuation (Utf8.byte (128 + x)) = Some x.
Proof.
  intros Hx. unfold Utf8.continuation. rewrite in_range_byte, code_byte by lia.
  replace ((128 <=? 128 + x) && (128 + x <=? 191))%N with true
    by (symmetry; apply andb_true_intro; split; apply N.leb_le; lia).
  f_equal. lia.
Qed.

Lemma leb_true a b : (a <= b)%N -> (a <=? b)%N = true.
Proof. apply N.leb_le. Qed.

Lemma leb_false a b : (b < a)%N -> (a <=? b)%N = false.
Proof. apply N.leb_gt. Qed.

Lemma decode_byte n rest :
  (n < 128)%N -> Utf8.decode (String (Utf8.byte n) rest) = n :: Utf8.decode rest.
Proof.
  intros Hn. rewrite decode_cons. cbv zeta.
  rewrite !in_range_byte, code_byte by lia.
  by rewrite (leb_false 192 n), (leb_false 224 n), (leb_false 240 n) by lia.
Qed.

(** A code point is read back from its bytes. *)
Lemma decode_encode cp rest :
  (cp < 1114112)%N ->
  Utf8.decode (Utf8.encode cp +:+ rest) = cp :: Utf8.decode rest.
Proof.
  intros Hcp. unfold Utf8.encode.
  destruct (N.ltb_spec cp 128) as [H1|H1]; [by apply decode_byte|].
  destruct (N.ltb_spec cp 2048) as [H2|H2].
  { rewrite !append_cons, append_nil_l, decode_cons. cbv zeta.
    rewrite in_range_byte, code_byte by divmod.
    rewrite !leb_true by divmod. cbn [andb].
    rewrite continuation_byte by divmod. f_equal. divmod. }
  destruct (N.ltb_spec cp 65536) as [H3|H3].
  { rewrite !append_cons, append_nil_l, decode_cons. cbv zeta.
    rewrite !in_range_byte, code_byte by divmod.
    rewrite (leb_false _ 223), andb_false_r by divmod.
    rewrite !leb_true by divmod. cbn [andb].
    rewrite !continuation_byte by divmod. f_equal. divmod. }
  rewrite !append_cons, append_nil_l, decode_cons. cbv zeta.
  rewrite !in_range_byte, code_byte by divmod.
  rewrite (leb_false _ 223), (leb_false _ 239), !andb_false_r by divmod.
  rewrite !leb_true by divmod. cbn [andb].
  rewrite !continuation_byte by divmod. f_equal. divmod.
Qed.

Lemma decode_str cps :
  Forall (fun cp => (cp < 1114112)%N) cps -> Utf8.decode (Utf8.str cps) = cps.
Proof.
  induction 1 as [|cp cps Hcp _ IH]; [done|].
  cbn [Utf8.str]. by rewrite decode_encode, IH.
Qed.

(** ** Hexadecimal digits *)

Lemma hex_4 n :
  Utf8.hex 4 n
  = String (Utf8.hex_digit ((n / 16 / 16 / 16) mod 16))
      (String (Utf8.hex_digit ((n / 16 / 16) mod 16))
         (String (Utf8.hex_digit ((n / 16) mod 16))
            (String (Utf8.hex_digit (n mod 16)) "")))%N.
Proof. done. Qed.

Lemma hex_value_digit d : (d < 16)%N -> Json.hex_value (Utf8.hex_digit d) = Some d.
Proof.
  intros Hd. unfold Json.hex_value, Utf8.hex_digit, Str.is_digit.
  destruct (N.ltb_spec d 10) as [Hlt|Hge].
  - change (ascii_of_N (48 + d)) with (Utf8.byte (48 + d)).
    rewrite in_range_byte, code_byte by lia.
    rewrite !leb_true by lia. cbn [andb]. f_equal. lia.
  - change (ascii_of_N (87 + d)) with (Utf8.byte (87 + d)).
    rewrite !in_range_byte, code_byte by lia.
    rewrite (leb_false _ 57), andb_false_r by lia.
    rewrite !leb_true by lia. cbn [andb]. f_equal. lia.
Qed.

Lemma hex4_hex n rest :
  (n < 65536)%N ->
  exists h1 h2 h3 h4,
    Utf8.hex 4 n +:+ rest = String h1 (String h2 (String h3 (String h4 rest)))
    /\ Json.hex4 h1 h2 h3 h4 = Some n.
Proof.
  intros Hn. rewrite hex_4. eexists _, _, _, _. split; [done|].
  unfold Json.hex4. rewrite !hex_value_digit by divmod. f_equal. divmod.
Qed.

(** ** Strings read back *)

Lemma scanstring_cons c rest :
  Json.scanstring (String c rest)
  = (if Ascii.eqb c Json.dquote then Some (EmptyString, rest)
     else if Ascii.eqb c Json.backslash then
       match rest with
       | EmptyString => None
       | String e rest1 =>
           if Ascii.eqb e "u" then
             match rest1 with
             | String h1 (String h2 (String h3 (String h4 rest2))) =>
                 match Json.hex4 h1 h2 h3 h4 with
                 | Some uni =>
                     let alone :=
                       match Json.scanstring rest2 with
                       | Some (str, after) => Some (Utf8.encode uni +:+ str, after)
                       | None => None
                       end in
                     if Utf8.is_high_surrogate uni then
                       match rest2 with
                       | String b rest3 =>
                           if Ascii.eqb b Json.backslash then
                             match rest3 with
                             | String u rest4 =>
                                 if Ascii.eqb u "u" then
                                   match rest4 with
                                   | String k1 (String k2 (String k3 (String k4 rest5))) =>
                                       match Json.hex4 k1 k2 k3 k4 with
                                       | Some uni2 =>
                                           if Utf8.is_low_surrogate uni2 then
                                             match Json.scanstring rest5 with
                                             | Some (str, after) =>
                                                 Some (Utf8.encode
                                                         (Json.join_surrogates uni uni2)
                                                       +:+ str, after)
                                             | None => None
                                             end
                                           else alone
                                       | None => None
                                       end
                                   | _ => alone
                                   end
                                 else alone
                             | EmptyString => alone
                             end
                           else alone
                       | EmptyString => alone
                       end
                     else alone
                 | None => None
                 end
             | _ => None
             end
           else
             match Json.unescape e, Json.scanstring rest1 with
             | Some a, Some (str, after) => Some (String a str, after)
             | _, _ => None
             end
       end
     else if (Str.code c <? 32)%N then None
     else
       match Json.scanstring rest with
       | Some (str, after) => Some (String c str, after)
       | None => None
       end).
Proof. by destruct rest as [|e [|h1 [|h2 [|h3 [|h4 rest2]]]]]. Qed.

(** Reading a [\uXXXX] that nothing can follow up. *)
Lemma scanstring_u n text :
  (n < 65536)%N ->
  (Utf8.is_high_surrogate n = true -> starts_low text = false) ->
  Json.scanstring (String Json.backslash (String "u" (Utf8.hex 4 n +:+ text)))
  = match Json.scanstring text with
    | Some (str, after) => Some (Utf8.encode n +:+ str, after)
    | None => None
    end.
Proof.
  intros Hn Hlow. destruct (hex4_hex n text Hn) as (h1 & h2 & h3 & h4 & -> & Hhex).
  rewrite scanstring_cons.
  change (Ascii.eqb Json.backslash Json.dquote) with false.
  change (Ascii.eqb Json.backslash Json.backslash) with true.
  change (Ascii.eqb "u" "u") with true. cbv iota. rewrite Hhex. cbv zeta.
  destruct (Utf8.is_high_surrogate n); [|done]. specialize (Hlow eq_refl).
  destruct text as [|b rest3]; [done|]. cbn [starts_low] in Hlow.
  destruct (Ascii.eqb b Json.backslash); [|done].
  destruct rest3 as [|u rest4]; [done|].
  destruct (Ascii.eqb u "u"); [|done].
  destruct rest4 as [|k1 [|k2 [|k3 [|k4 rest5]]]]; try done.
  cbn [andb] in Hlow. destruct (Json.hex4 k1 k2 k3 k4) as [uni2|]; [|done].
  by rewrite Hlow.
Qed.

(** Reading the two escapes of a code point above 65535. *)
Lemma scanstring_pair cp text :
  (65536 <= cp < 1114112)%N ->
  Json.scanstring (Json.escape cp +:+ text)
  = match Json.scanstring text with
    | Some (str, after) => Some (Utf8.encode cp +:+ str, after)
    | None => None
    end.
Proof.
  intros Hcp. unfold Json.escape.
  rewrite !(proj2 (N.eqb_neq cp _)) by lia.
  rewrite (leb_false cp 126), andb_false_r by lia.
  rewrite (proj2 (N.ltb_ge cp 65536)) by lia.
  set (high := (55296 + (cp - 65536) / 1024)%N).
  set (low := (56320 + (cp - 65536) mod 1024)%N).
  assert (Hhigh : (55296 <= high <= 56319)%N) by (subst high; divmod).
  assert (Hlow : (56320 <= low <= 57343)%N) by (subst low; divmod).
  rewrite append_assoc, !append_cons.
  destruct (hex4_hex high (String Json.backslash (String "u" (Utf8.hex 4 low +:+ text))))
    as (h1 & h2 & h3 & h4 & -> & Hhex1); [lia|].
  destruct (hex4_hex low text) as (k1 & k2 & k3 & k4 & -> & Hhex2); [lia|].
  rewrite scanstring_cons.
  change (Ascii.eqb Json.backslash Json.dquote) with false.
  change (Ascii.eqb Json.backslash Json.backslash) with true.
  change (Ascii.eqb "u" "u") with true. cbv iota. rewrite Hhex1, Hhex2. cbv zeta.
  unfold Utf8.is_high_surrogate, Utf8.is_low_surrogate.
  rewrite !leb_true by lia. cbn [andb].
  replace (Json.join_surrogates high low) with cp; [done|].
  unfold Json.join_surrogates. subst high low. divmod.
Qed.

Lemma scanstring_ascii c text :
  (Str.code c < 128)%N ->
  Json.scanstring (Json.escape (Str.code c) +:+ text)
  = match Json.scanstring text with
    | Some (str, after) => Some (String c str, after)
    | None => None
    end.
Proof.
  intros Hc.
  destruct c as [[] [] [] [] [] [] [] []];
    first [reflexivity | exfalso; vm_compute in Hc; discriminate Hc].
Qed.

Lemma starts_low_ascii c text :
  (Str.code c < 128)%N -> starts_low (Json.escape (Str.code c) +:+ text) = false.
Proof.
  intros Hc.
  destruct c as [[] [] [] [] [] [] [] []];
    first [reflexivity | exfalso; vm_compute in Hc; discriminate Hc].
Qed.

Lemma escape_u cp :
  (128 <= cp < 65536)%N ->
  Json.escape cp = String Json.backslash (String "u" (Utf8.hex 4 cp)).
Proof.
  intros Hcp. unfold Json.escape.
  rewrite !(proj2 (N.eqb_neq cp _)) by lia.
  rewrite (leb_false cp 126), andb_false_r by lia.
  by rewrite (proj2 (N.ltb_lt cp 65536)) by lia.
Qed.

(** Reading back one code point as the encoder wrote it. *)
Lemma scanstring_escape cp text :
  (cp < 1114112)%N ->
  (Utf8.is_high_surrogate cp = true -> starts_low text = false) ->
  Json.scanstring (Json.escape cp +:+ text)
  = match Json.scanstring text with
    | Some (str, after) => Some (Utf8.encode cp +:+ str, after)
    | None => None
    end.
Proof.
  intros Hcp Hlow. destruct (N.ltb_spec cp 128) as [H1|H1].
  { rewrite <- (code_byte cp) at 1 by lia. rewrite scanstring_ascii
      by (rewrite code_byte; lia).
    unfold Utf8.encode. by rewrite (proj2 (N.ltb_lt cp 128)) by lia. }
  destruct (N.ltb_spec cp 65536) as [H2|H2].
  - rewrite escape_u, !append_cons by lia. by apply scanstring_u.
  - apply scanstring_pair. lia.
Qed.

Lemma starts_low_escape cp text :
  (cp < 1114112)%N -> Utf8.is_low_surrogate cp = false ->
  starts_low (Json.escape cp +:+ text) = false.
Proof.
  intros Hcp Hlow. destruct (N.ltb_spec cp 128) as [H1|H1].
  { rewrite <- (code_byte cp) by lia. apply starts_low_ascii. rewrite code_byte; lia. }
  destruct (N.ltb_spec cp 65536) as [H2|H2].
  - rewrite escape_u, !append_cons by lia.
    destruct (hex4_hex cp text H2) as (h1 & h2 & h3 & h4 & -> & Hhex).
    cbn [starts_low]. rewrite Hhex, Hlow. done.
  - unfold Json.escape.
    rewrite !(proj2 (N.eqb_neq cp _)) by lia.
    rewrite (leb_false cp 126), andb_false_r by lia.
    rewrite (proj2 (N.ltb_ge cp 65536)) by lia.
    rewrite append_assoc, !append_cons.
    set (high := (55296 + (cp - 65536) / 1024)%N).
    assert (Hhigh : (55296 <= high <= 56319)%N) by (subst high; divmod).
    destruct (hex4_hex high (String Json.backslash
                               (String "u" (Utf8.hex 4 (56320 + (cp - 65536) mod 1024)
                                            +:+ text))))
      as (h1 & h2 & h3 & h4 & -> & Hhex); [lia|].
    cbn [starts_low]. rewrite Hhex. unfold Utf8.is_low_surrogate.
    by rewrite (leb_false 56320 high) by lia.
Qed.

Lemma concat_cons (x : string) xs :
  String.concat "" (x :: xs) = x +:+ String.concat "" xs.
Proof. destruct xs; [|done]. cbn [String.concat]. by rewrite append_nil_r. Qed.

(** ** [repr] of a plain text *)




Lemma scanstring_escapes cps : forall rest,
  forallb is_code_point cps = true -> unpaired cps = true ->
  Json.scanstring (String.concat "" (map Json.escape cps) +:+ String Json.dquote rest)
  = Some (Utf8.str cps, rest).
Proof.
  induction cps as [|cp cps IH]; intros rest Hvalid Hunpaired; [done|].
  cbn [forallb] in Hvalid. apply andb_prop in Hvalid as [Hcp Hvalid].
  apply N.ltb_lt in Hcp.
  cbn [unpaired] in Hunpaired. apply andb_prop in Hunpaired as [Hpair Hunpaired].
  cbn [map]. rewrite concat_cons, append_assoc, scanstring_escape.
  - by rewrite IH.
  - done.
  - intros Hhigh. destruct cps as [|low cps]; [done|].
    rewrite Hhigh in Hpair. cbn [andb] in Hpair. apply negb_true_iff in Hpair.
    cbn [map]. rewrite concat_cons, append_assoc.
    cbn [forallb] in Hvalid. apply andb_prop in Hvalid as [Hlow _].
    apply N.ltb_lt in Hlow. by apply starts_low_escape.
Qed.

Lemma scanstring_escape_all s rest :
  unpaired_str s ->
  Json.scanstring (Json.escape_all s +:+ String Json.dquote rest) = Some (s, rest).
Proof.
  intros (cps & -> & Hvalid & Hunpaired). unfold Json.escape_all.
  rewrite decode_str.
  - by apply scanstring_escapes.
  - apply Forall_forall. intros cp Hin%list_elem_of_In.
    apply N.ltb_lt. by apply (proj1 (forallb_forall _ _) Hvalid).
Qed.

Lemma members_text_concat k v rest :
  String.concat ("," +:+ eol +:+ "  ") (map Json.encode_item ((k, v) :: rest))
  +:+ eol +:+ "}"
  = String Json.dquote (members_text k v rest).
Proof.
  revert k v. induction rest as [|[k' v'] rest IH]; intros k v.
  - cbn [map String.concat members_text]. unfold Json.encode_item. cbn [fst snd].
    unfold Json.encode_string at 1. by rewrite !append_cons, !append_assoc.
  - cbn [map String.concat members_text] in *. rewrite !append_assoc, IH.
    unfold Json.encode_item. cbn [fst snd].
    unfold Json.encode_string at 1. by rewrite !append_cons, !append_assoc.
Qed.

Lemma dumps_members k v rest :
  Json.dumps ((k, v) :: rest)
  = "{" +:+ eol +:+ "  " +:+ String Json.dquote (members_text k v rest).
Proof. unfold Json.dumps. by rewrite <- members_text_concat. Qed.

Lemma skip_ws_keep c s : Json.is_ws c = false -> Json.skip_ws (String c s) = String c s.
Proof. intros H. unfold Json.skip_ws. cbn [Str.drop_while]. by rewrite H. Qed.

Lemma skip_ws_drop c s : Json.is_ws c = true -> Json.skip_ws (String c s) = Json.skip_ws s.
Proof. intros H. unfold Json.skip_ws. cbn [Str.drop_while]. by rewrite H. Qed.

(** One member read back: the key, the colon and the value. *)
Lemma members_member fuel k v tail pairs :
  unpaired_str k -> unpaired_str v ->
  Json.members (S fuel)
    (Json.escape_all k +:+ String Json.dquote (": " +:+ Json.encode_string v +:+ tail))
    pairs
  = match Json.skip_ws tail with
    | String "}" s => Some (pairs ++ [(k, v)], s)
    | String "," s =>
        match Json.skip_ws s with
        | String q s =>
            if Ascii.eqb q Json.dquote then Json.members fuel s (pairs ++ [(k, v)])
            else None
        | EmptyString => None
        end
    | _ => None
    end.
Proof.
  intros Hk Hv. cbn [Json.members]. rewrite scanstring_escape_all by done.
  unfold Json.encode_string. rewrite !append_cons, append_nil_l.
  rewrite (skip_ws_keep ":") by done. rewrite (skip_ws_drop " ") by done.
  rewrite (skip_ws_keep Json.dquote) by done. rewrite Ascii.eqb_refl.
  by rewrite append_assoc, append_cons, append_nil_l, scanstring_escape_all.
Qed.

Lemma members_members_text rest : forall k v fuel pairs,
  (length rest < fuel)%nat ->
  unpaired_catalog ((k, v) :: rest) ->
  Json.members fuel (members_text k v rest) pairs = Some (pairs ++ (k, v) :: rest, "").
Proof.
  induction rest as [|[k' v'] rest IH]; intros k v fuel pairs Hfuel Hstr;
    apply Forall_cons in Hstr as [[Hk Hv] Hrest]; cbn [fst snd] in Hk, Hv;
    (destruct fuel as [|fuel]; [cbn in Hfuel; lia|]);
    cbn [members_text]; rewrite members_member by done; unfold eol;
    rewrite !append_cons, !append_nil_l.
  - rewrite (skip_ws_drop "010") by done. by rewrite (skip_ws_keep "}") by done.
  - rewrite (skip_ws_keep ",") by done.
    rewrite (skip_ws_drop "010"), !(skip_ws_drop " ") by done.
    rewrite (skip_ws_keep Json.dquote) by done. rewrite Ascii.eqb_refl.
    rewrite IH by (done || (cbn in Hfuel; lia)). by rewrite <- app_assoc.
Qed.

Lemma of_pairs_nodup (pairs : list (string * string)) :
  NoDup (map fst pairs) -> Dict.of_pairs pairs = pairs.
Proof.
  intros Hnd. unfold Dict.of_pairs.
  assert (H : forall d, NoDup (map fst d ++ map fst pairs) ->
            fold_left (fun d kv => Dict.set (fst kv) (snd kv) d) pairs d = d ++ pairs).
  { clear Hnd. induction pairs as [|[k v] pairs IH]; intros d Hnd.
    - cbn. by rewrite app_nil_r.
    - cbn [fold_left fst snd]. apply NoDup_ListNoDup in Hnd. cbn [map fst] in Hnd.
      rewrite Dict_set_fresh.
      + rewrite IH; [by rewrite <- app_assoc|].
        apply NoDup_ListNoDup. by rewrite map_app, <- app_assoc.
      + apply List.NoDup_remove_2 in Hnd. intros Hin. apply Hnd, in_or_app. by left. }
  by apply (H []).
Qed.

Lemma length_dumps d : (length d < String.length (Json.dumps d))%nat.
Proof.
  destruct d as [|[k v] rest]; [cbn; lia|]. rewrite dumps_members.
  rewrite !length_append. cbn [String.length].
  assert (H : forall k v, (length rest < String.length (members_text k v rest))%nat).
  { induction rest as [|[k' v'] rest IH]; intros k0 v0; cbn [members_text];
      rewrite length_append; cbn [String.length length]; rewrite !length_append.
    - cbn. lia.
    - cbn [String.length]. specialize (IH k' v'). lia. }
  specialize (H k v). cbn [length]. lia.
Qed.

(** Reading back what was written. *)
Lemma loads_dumps d :
  NoDup (map fst d) -> unpaired_catalog d -> Json.loads (Json.dumps d) = Some d.
Proof.
  intros Hnd Hstr. destruct d as [|[k v] rest]; [done|].
  unfold Json.loads. pose proof (length_dumps ((k, v) :: rest)) as Hlen.
  revert Hlen. generalize (String.length (Json.dumps ((k, v) :: rest))).
  intros fuel Hfuel. rewrite dumps_members. unfold eol.
  rewrite !append_cons, !append_nil_l.
  rewrite (skip_ws_keep "{") by done.
  rewrite (skip_ws_drop "010"), !(skip_ws_drop " ") by done.
  rewrite (skip_ws_keep Json.dquote) by done.
  change (Ascii.eqb Json.dquote Json.dquote) with true. cbv iota.
  rewrite members_members_text by (done || (cbn in Hfuel; lia)).
  cbn [app]. cbv delta [Json.dquote]. cbv beta iota.
  change (Json.skip_ws "") with "". by rewrite of_pairs_nodup.
Qed.

Lemma Dict_set_keys_nodup {V} (k : string) (v : V) d :
  NoDup (map fst d) -> NoDup (map fst (Dict.set k v d)).
Proof.
  intros Hnd. destruct (decide (k ∈ map fst d)) as [Hin|Hnotin];
    rewrite list_elem_of_In in *.
  - assert (Hkeys : map fst (Dict.set k v d) = map fst d); [|by rewrite Hkeys].
    clear Hnd. induction d as [|[k' v'] d IH]; [done|]. cbn [Dict.set].
    destruct (String.eqb_spec k' k) as [->|Hne]; [done|]. cbn [map fst].
    f_equal. apply IH. by destruct Hin as [?|?].
  - rewrite Dict_set_fresh by done. rewrite map_app. cbn [map fst].
    apply NoDup_app. split; [done|]. split; [|apply NoDup_singleton].
    intros k' Hk' ->%list_elem_of_singleton. by apply list_elem_of_In in Hk'.
Qed.

Lemma keep_custom_nodup emoji : forall custom_emojis,
  NoDup (map fst custom_emojis) ->
  NoDup (map fst (fold_left keep_custom emoji custom_emojis)).
Proof.
  induction emoji as [|[name url] emoji IH]; intros acc Hnd; [done|].
  cbn [fold_left keep_custom]. apply IH.
  destruct (negb (is_alias url)); [by apply Dict_set_keys_nodup | done].
Qed.

Lemma load_emoji_list_run path w f d :
  Dict.get path (files w) = Some f -> Json.loads f = Some d ->
  load_emoji_list path w = (Ret d, log [OpenRead path] w).
Proof.
  intros Hget Hloads. unfold load_emoji_list, try_except, bind, open_read.
  by rewrite Hget, Hloads.
Qed.

Section ArtifactFacts.

Variable E : env.

(** What [list_emojis] writes and returns is read back. *)
Lemma list_emojis_then_load token path catalog w w1 :
  list_emojis E token path w = (Ret catalog, w1) ->
  unpaired_catalog catalog ->
  load_emoji_list path w1 = (Ret catalog, log [OpenRead path] w1).
Proof.
  rewrite list_emojis_unfold. cbv zeta.
  destruct (http_get E emoji_list_url (bearer token)) as [r|]; [|done].
  destruct (ok r); [|done]. destruct (json r) as [data|]; [|done].
  destruct (body_ok data); [|done]. destruct (body_emoji data) as [emoji|]; [|done].
  destruct (open_error E path); [done|]. intros [= <- <-] Hstr.
  apply load_emoji_list_run with (f := Json.dumps (fold_left keep_custom emoji [])).
  - rewrite files_log. cbn [files]. apply Dict_get_set_eq.
  - apply loads_dumps; [apply keep_custom_nodup, NoDup_nil_2 | done].
Qed.

(** C8.  A catalog whose names and addresses hold no high surrogate
    right before a low one, written to the artifact file as JSON, as
    [list_emojis] writes it, and loaded from that file again, as
    [download_emojis] loads it, is the catalog that was written. *)
Theorem emoji_list_round_trip path catalog w :
  NoDup (map fst catalog) -> unpaired_catalog catalog ->
  open_error E path = None ->
  Json.loads (Json.dumps catalog) = Some catalog
  /\ let w1 := snd (write_file E path (Json.dumps catalog) w) in
     load_emoji_list path w1 = (Ret catalog, log [OpenRead path] w1).
Proof.
  intros Hnd Hstr Hopen. split; [by apply loads_dumps|].
  unfold write_file. rewrite Hopen. cbn [snd].
  apply load_emoji_list_run with (f := Json.dumps catalog).
  - apply Dict_get_set_eq.
  - by apply loads_dumps.
Qed.

End ArtifactFacts.

(** ** The properties on scripted environments *)

Lemma list_emojis_drops_aliases_witness :
  fst (list_emojis source_env "xoxp-1" "emoji_list.json" empty_world)
  = Ret [("smile", "https://x/e1.png")].
Proof.
  refine (proj1 (list_emojis_drops_aliases source_env "xoxp-1" "emoji_list.json"
                   empty_world listing _ _ eq_refl eq_refl eq_refl eq_refl eq_refl
                   _ eq_refl)).
  apply NoDup_ListNoDup. repeat constructor; cbn; intuition discriminate.
Defined.

(** C7 (as stated).  [list_emojis] can fail although the HTTP status is
    OK and the success flag is true: here the listing is answered as it
    should be, and the output file cannot be opened for writing. *)
Lemma list_emojis_fails_on_readonly_file :
  let E := scripted [(emoji_list_url, Reply listing)] [] ["emoji_list.json"] in
  let o := fst (list_emojis E "xoxp-1" "emoji_list.json" empty_world) in
  http_get E emoji_list_url (bearer "xoxp-1") = Reply listing
  /\ o = Raise (Exn "PermissionError" "[Errno 13] Permission denied")
  /\ ~ (fails o <-> (ok listing = false \/ success_flag listing = false)).
Proof.
  split; [reflexivity|]. split; [reflexivity|]. intros [Hfails _].
  destruct Hfails as [H|H]; [exact I | discriminate H | discriminate H].
Qed.

(** C5 (as stated).  An entry whose address [urlparse] refuses is not
    logged and left out: its exception ends [download_emojis], although
    the image of the other entry was fetched.  And an entry that is an
    alias is left out without having failed: of two entries, none of
    which fails, one is returned and no failure is logged. *)
Lemma download_emojis_aborts_on_invalid_url :
  let run :=
    download_emojis source_env
      (inr [("smile", "https://x/e1.png"); ("broken", "https://[x/e3.png")])
      "emoji_downloads" [] empty_world in
  let aliased :=
    download_emojis source_env
      (inr [("smile", "https://x/e1.png"); ("party", "alias:smile")])
      "emoji_downloads" [] empty_world in
  fst run = Raise (Exn "ValueError" "Invalid IPv6 URL")
  /\ (forall downloaded, fst run <> Ret downloaded)
  /\ gets (trace (snd run)) = [("https://x/e1.png", [])]
  /\ fst aliased = Ret [("smile", "emoji_downloads/smile.png")]
  /\ printed (trace (snd aliased))
     = [downloading_line 2 "emoji_downloads"; downloaded_line 1].
Proof.
  cbv zeta.
  assert (Hrun : fst (download_emojis source_env
                        (inr [("smile", "https://x/e1.png");
                              ("broken", "https://[x/e3.png")])
                        "emoji_downloads" [] empty_world)
                 = Raise (Exn "ValueError" "Invalid IPv6 URL"))
    by (vm_compute; reflexivity).
  split; [exact Hrun|]. split; [by rewrite Hrun|].
  repeat split; vm_compute; reflexivity.
Qed.

Lemma download_emojis_isolates_failures_witness :
  fst (download_emojis source_env
         (inr (three_emoji ++ [("gone", "https://x/missing.jpg")]))
         "emoji_downloads" [3%nat; 0%nat] empty_world)
  = Ret [("smile", "emoji_downloads/smile.png");
         ("parrot", "emoji_downloads/parrot.png")]
  /\ length [("smile", "emoji_downloads/smile.png");
             ("parrot", "emoji_downloads/parrot.png")] = (4 - 2)%nat.
Proof.
  assert (Hcatalog : Forall (fun item => is_alias (snd item) = false
                                         /\ parses (snd item))
                       (three_emoji ++ [("gone", "https://x/missing.jpg")])).
  { repeat constructor; try (eexists; vm_compute; reflexivity). }
  destruct (download_emojis_isolates_failures source_env
              (three_emoji ++ [("gone", "https://x/missing.jpg")])
              "emoji_downloads" [3%nat; 0%nat] empty_world eq_refl Hcatalog)
    as (Hrun & _).
  split; [|reflexivity]. rewrite Hrun. vm_compute. reflexivity.
Defined.

(** C6 (as stated).  The file of an emoji whose name begins with "/"
    is not in the output directory: [os.path.join] drops the directory
    before such a name. *)
Lemma download_emoji_absolute_name :
  let run :=
    download_emoji source_env "/tmp/smile" "https://x/e1.png" "emoji_downloads"
      empty_world in
  fst run = Ret (Some ("/tmp/smile", "/tmp/smile.png"))
  /\ "/tmp/smile.png" <> "emoji_downloads" +:+ "/" +:+ "/tmp/smile" +:+ ".png"
  /\ Dict.get "/tmp/smile.png" (files (snd run)) = Some "GIF89a".
Proof. cbv zeta. split; [|split]; [vm_compute; reflexivity|discriminate|vm_compute; reflexivity]. Qed.

Lemma download_emoji_local_file_witness :
  (exists ext,
     ext = ".gif"
     /\ "emoji_downloads/parrot.gif" = "emoji_downloads" +:+ "/" +:+ "parrot" +:+ ext)
  /\ (exists ext,
        ext = ".png"
        /\ "emoji_downloads/wave.png" = "emoji_downloads" +:+ "/" +:+ "wave" +:+ ext).
Proof.
  split.
  - destruct (download_emoji_local_file edge_server "parrot"
                "https://emoji.slack-edge.com/T012AB3C4/parrot/5e1.tar.gif?v=2.jpg"
                "emoji_downloads" empty_world "parrot" "emoji_downloads/parrot.gif"
                eq_refl)
      as (ext & _ & _ & _ & _ & _ & Hplain & _ & Husual).
    exists ext. split.
    + destruct (Husual "https" "emoji.slack-edge.com" "/T012AB3C4/parrot/5e1.tar.gif"
                  "?v=2.jpg") as [_ Hlast].
      { exact (conj eq_refl (conj (or_intror eq_refl) (conj eq_refl
                 (conj (or_intror eq_refl) (conj eq_refl
                    (conj (or_intror (or_introl eq_refl)) eq_refl)))))). }
      destruct (Hlast "/T012AB3C4/parrot" "5e1.tar.gif" eq_refl eq_refl) as (Hext & _).
      apply (Hext "" "5e1.tar" "gif"); [reflexivity..|discriminate|reflexivity|reflexivity].
    + apply Hplain; [reflexivity|discriminate|reflexivity].
  - destruct (download_emoji_local_file edge_server "wave"
                "https://emoji.slack-edge.com/T012AB3C4/wave/image#large.jpg"
                "emoji_downloads" empty_world "wave" "emoji_downloads/wave.png"
                eq_refl)
      as (ext & _ & _ & _ & _ & _ & Hplain & _ & Husual).
    exists ext. split.
    + destruct (Husual "https" "emoji.slack-edge.com" "/T012AB3C4/wave/image"
                  "#large.jpg") as [_ Hlast].
      { exact (conj eq_refl (conj (or_intror eq_refl) (conj eq_refl
                 (conj (or_intror eq_refl) (conj eq_refl
                    (conj (or_intror (or_intror eq_refl)) eq_refl)))))). }
      destruct (Hlast "/T012AB3C4/wave" "image" eq_refl eq_refl) as (_ & _ & Hext).
      by apply Hext.
    + apply Hplain; [reflexivity|discriminate|reflexivity].
Defined.

Lemma download_emojis_submission_order_witness :
  fst (download_emojis source_env (inr three_emoji) "emoji_downloads"
         [2%nat; 1%nat; 0%nat] empty_world)
  = Ret [("smile", "emoji_downloads/smile.png");
         ("parrot", "emoji_downloads/parrot.png")].
Proof.
  assert (Hcatalog : Forall (fun item => parses (snd item)) three_emoji).
  { repeat constructor; eexists; vm_compute; reflexivity. }
  destruct (download_emojis_submission_order source_env three_emoji
              "emoji_downloads" [2%nat; 1%nat; 0%nat] empty_world eq_refl Hcatalog)
    as (Hrun & _).
  rewrite Hrun. vm_compute. reflexivity.
Defined.

(** C8 (as stated).  A name that holds a high surrogate right before a
    low one is not read back as it was written: [json.dump] writes an
    escape for each of the two, and [json.load] reads the two escapes as
    the one code point that they stand for in UTF-16. *)
Lemma emoji_list_round_trip_joins_surrogates :
  let catalog := [(Utf8.str [55357; 56832]%N, "https://x/e1.png")] in
  let w1 := snd (write_file source_env "emoji_list.json" (Json.dumps catalog)
                   empty_world) in
  Json.loads (Json.dumps catalog) = Some [(Utf8.str [128512]%N, "https://x/e1.png")]
  /\ Json.loads (Json.dumps catalog) <> Some catalog
  /\ fst (load_emoji_list "emoji_list.json" w1)
     = Ret [(Utf8.str [128512]%N, "https://x/e1.png")]
  /\ fst (load_emoji_list "emoji_list.json" w1) <> Ret catalog.
Proof.
  cbv zeta.
  split; [vm_compute; reflexivity|]. split; [vm_compute; discriminate|].
  split; [vm_compute; reflexivity|]. vm_compute; discriminate.
Qed.

Lemma emoji_list_round_trip_witness :
  let catalog := [("smile", "https://x/e1.png");
                  (String "009" "tab", String Json.dquote "C:\dir");
                  (Utf8.str [32117; 128512; 55357]%N, "https://x/e2.gif")] in
  Json.loads (Json.dumps catalog) = Some catalog.
Proof.
  refine (proj1 (emoji_list_round_trip source_env "emoji_list.json"
                   [("smile", "https://x/e1.png");
                    (String "009" "tab", String Json.dquote "C:\dir");
                    (Utf8.str [32117; 128512; 55357]%N, "https://x/e2.gif")]
                   empty_world _ _ eq_refl)).
  - apply NoDup_ListNoDup. repeat constructor; cbn; intuition discriminate.
  - repeat constructor; cbn [fst snd]; apply unpaired_str_decode; reflexivity.
Defined.

Lemma upload_emojis_skips_other_case_witness :
  ("emoji_downloads/smile.PNG" ∉ emoji_files "emoji_downloads" (files two_cases))
  /\ (fst (upload_emojis source_env "T012AB3C4" "d=cookie" "xoxc-1" "emoji_downloads"
             two_cases))
     = fst (upload_emojis source_env "T012AB3C4" "d=cookie" "xoxc-1" "emoji_downloads"
              {| trace := []; files := [("emoji_downloads/party.gif", "GIF89a")] |}).
Proof.
  refine (let H := upload_emojis_skips_other_case source_env "T012AB3C4" "d=cookie"
                     "xoxc-1" "emoji_downloads" two_cases "emoji_downloads/smile.PNG"
                     "smile.PNG" "smile" "PNG" eq_refl eq_refl _ in
          conj (proj1 (proj2 H)) (proj1 (proj2 (proj2 H)))).
  discriminate.
Defined.

(** * Further properties *)

(** ** Every way an upload attempt can go *)

Lemma sleeps_prints lines : sleeps (Print <$> lines) = [].
Proof. induction lines as [|line lines IH]; [done|]. by cbn. Qed.

Lemma posted_prints lines : posted (Print <$> lines) = 0%nat.
Proof. induction lines as [|line lines IH]; [done|]. by cbn. Qed.

Lemma opened_prints lines : opened (Print <$> lines) = 0%nat.
Proof. induction lines as [|line lines IH]; [done|]. by cbn. Qed.

Lemma opened_app t1 t2 : opened (t1 ++ t2) = (opened t1 + opened t2)%nat.
Proof. unfold opened. by rewrite List.filter_app, length_app. Qed.

Lemma pacings_app ds1 ds2 : pacings (ds1 ++ ds2) = (pacings ds1 + pacings ds2)%nat.
Proof. unfold pacings. by rewrite List.filter_app, length_app. Qed.

Lemma pacings_backoffs n : forall backoff, pacings (backoffs n backoff) = 0%nat.
Proof. induction n as [|n IH]; intros backoff; [done|]. cbn. apply IH. Qed.

Lemma of_upload_prints name file_path lines :
  forallb (of_upload name file_path) (Print <$> lines) = true.
Proof. induction lines as [|line lines IH]; [done|]. by cbn. Qed.

Lemma of_upload_attempt_events url headers token name file_path image :
  forallb (of_upload name file_path)
    (attempt_events url headers token name file_path image) = true.
Proof. cbn. by rewrite !String.eqb_refl. Qed.

Section AttemptFacts.

Variable E : env.

(** One turn of the loop ends the upload, by an exception or with a
    result after some lines, or it sleeps for [backoff] seconds and goes
    on with the next attempt and twice the backoff. *)
Lemma upload_attempt_cases remaining url headers token name file_path attempts
    backoff w :
  let run :=
    upload_attempts E (S remaining) url headers token name file_path attempts
      backoff w in
  (Dict.get file_path (files w) = None /\ exists e, run = (Raise e, w))
  \/ exists image,
       Dict.get file_path (files w) = Some image
       /\ let w1 := log (attempt_events url headers token name file_path image) w in
          let form := emoji_form token name image in
          (exists e,
             http_post E (posted (trace w)) url headers form = NetError e
             /\ run = (Raise e, w1))
          \/ exists r,
               http_post E (posted (trace w)) url headers form = Reply r
               /\ ((exists o lines,
                       run = (o, log (Print <$> lines) w1)
                       /\ (o = Ret true <-> is_accepted r = true)
                       /\ (o = Ret true \/ o = Ret false \/ exists e, o = Raise e))
                   \/ (is_accepted r = false
                       /\ exists lines,
                            run
                            = upload_attempts E remaining url headers token name
                                file_path (attempts + 1) (backoff * 2)
                                (log ((Print <$> lines) ++ [Sleep (Seconds backoff)])
                                   w1))).
Proof.
  cbv zeta. destruct (Dict.get file_path (files w)) as [image|] eqn:Hf.
  2: { left. split; [done|]. cbn [upload_attempts]. unfold bind at 1, open_read.
       rewrite Hf. by eexists. }
  right. exists image. split; [done|].
  destruct (http_post E (posted (trace w)) url headers (emoji_form token name image))
    as [r|e] eqn:Hp.
  2: { left. exists e. split; [done|]. cbn [upload_attempts].
       unfold bind at 1, open_read. rewrite Hf. unfold bind at 1, post.
       rewrite trace_log, posted_app, Nat.add_0_r. cbn [posted].
       unfold emoji_form in Hp. by rewrite Hp, log_log. }
  right. exists r. split; [done|].
  rewrite (upload_attempt_unfold _ _ _ _ _ _ _ _ _ _ _ _ Hf Hp). cbv zeta.
  unfold is_accepted, success_flag.
  destruct (ok r); cbn [andb].
  - destruct (json r) as [data|].
    + destruct (body_ok data).
      * left. eexists _, [_]. split; [reflexivity|]. split; [done|]. by left.
      * destruct (String.eqb _ "ratelimited").
        -- right. split; [done|]. by exists [rate_limited_line name r backoff +:+ eol].
        -- left. eexists _, [_]. split; [reflexivity|]. split; [done|].
           right. by left.
    + left. eexists _, []. rewrite log_nil. split; [reflexivity|]. split; [done|].
      right. right. by eexists.
  - destruct (status_code r =? 429).
    + right. split; [done|]. by exists [rate_limited_line name r backoff +:+ eol].
    + destruct (attempts + 1 <? max_retries).
      * right. split; [done|]. eexists [_; _]. by rewrite log_log.
      * left. eexists _, [_; _]. rewrite log_log. split; [reflexivity|].
        split; [done|]. right. by left.
Qed.

Lemma posted_attempt_events url headers token name file_path image :
  posted (attempt_events url headers token name file_path image) = 1%nat.
Proof. done. Qed.

(** Whatever the server answers, the loop posts once per attempt at
    most, opens the file once for each post, sleeps for the backoff after
    an attempt it repeats, twice as long each time, and leaves the files
    as they are. *)
Lemma upload_attempts_bounded remaining url headers token name file_path :
  forall attempts backoff w,
  let w' := snd (upload_attempts E remaining url headers token name file_path
                   attempts backoff w) in
  exists k,
    (k <= remaining)%nat
    /\ sleeps (trace w') = sleeps (trace w) ++ backoffs k backoff
    /\ (posted (trace w) + k <= posted (trace w') <= posted (trace w) + remaining)%nat
    /\ (opened (trace w') + posted (trace w) = opened (trace w) + posted (trace w'))%nat
    /\ files w' = files w.
Proof.
  induction remaining as [|remaining IH]; intros attempts backoff w; cbv zeta.
  { exists 0%nat. cbn. rewrite app_nil_r. repeat split; lia. }
  destruct (upload_attempt_cases remaining url headers token name file_path attempts
              backoff w)
    as [[_ [e ->]]|(image & _ & [(e & _ & ->)|(r & _ & [(o & lines & -> & _)
                                                        |(_ & lines & ->)])])];
    cbn [snd].
  - exists 0%nat. cbn. rewrite app_nil_r. repeat split; lia.
  - exists 0%nat. rewrite trace_log, sleeps_app, posted_app, opened_app. cbn.
    repeat split; lia.
  - exists 0%nat. rewrite !trace_log, !sleeps_app, !posted_app, !opened_app.
    rewrite sleeps_prints, posted_prints, opened_prints. cbn.
    rewrite !app_nil_r. repeat split; lia.
  - destruct (IH (attempts + 1) (backoff * 2)
                (log ((Print <$> lines) ++ [Sleep (Seconds backoff)])
                   (log (attempt_events url headers token name file_path image) w)))
      as (k & Hk & Hsl & Hpo & Hop & Hfi).
    exists (S k). rewrite Hsl, Hfi. clear Hsl Hfi.
    rewrite !trace_log, !sleeps_app, !posted_app, !opened_app in *.
    rewrite sleeps_prints, posted_prints, opened_prints in *. cbn in *.
    rewrite !app_nil_r, <- ?app_assoc. cbn. repeat split; lia.
Qed.

(** What the loop of the attempts adds to the trace: events of this
    upload, with one opening of the file for each post. *)
Lemma upload_attempts_segment remaining url headers token name file_path :
  forall attempts backoff w,
  let run := upload_attempts E remaining url headers token name file_path
               attempts backoff w in
  exists segment,
    trace (snd run) = trace w ++ segment
    /\ forallb (of_upload name file_path) segment = true
    /\ (posted segment <= remaining)%nat
    /\ opened segment = posted segment
    /\ (forall result, fst run = Ret result -> remaining <> 0%nat ->
        (1 <= posted segment)%nat).
Proof.
  induction remaining as [|remaining IH]; intros attempts backoff w; cbv zeta.
  { exists []. cbn [upload_attempts ret fst snd]. rewrite app_nil_r.
    repeat split; done || (cbn; lia). }
  destruct (upload_attempt_cases remaining url headers token name file_path attempts
              backoff w)
    as [[_ [e ->]]|(image & _ & [(e & _ & ->)|(r & _ & [(o & lines & -> & _)
                                                        |(_ & lines & ->)])])];
    cbn [fst snd].
  - exists []. rewrite app_nil_r. repeat split; done || (cbn; lia).
  - exists (attempt_events url headers token name file_path image).
    rewrite trace_log, of_upload_attempt_events.
    repeat split; done || (cbn; lia).
  - exists (attempt_events url headers token name file_path image ++ (Print <$> lines)).
    rewrite !trace_log, <- app_assoc, forallb_app, of_upload_attempt_events,
      of_upload_prints, posted_app, opened_app, posted_prints, opened_prints.
    repeat split; done || (cbn; lia) || (intros; cbn; lia).
  - destruct (IH (attempts + 1) (backoff * 2)
                (log ((Print <$> lines) ++ [Sleep (Seconds backoff)])
                   (log (attempt_events url headers token name file_path image) w)))
      as (segment & Htrace & Hof & Hle & Hop & _).
    exists (attempt_events url headers token name file_path image
            ++ ((Print <$> lines) ++ [Sleep (Seconds backoff)]) ++ segment).
    rewrite Htrace, !trace_log, <- !app_assoc. split; [done|].
    rewrite !forallb_app, of_upload_attempt_events, of_upload_prints, Hof.
    rewrite !posted_app, !opened_app, posted_prints, opened_prints, Hop.
    repeat split; done || (cbn; lia) || (intros; cbn; lia).
Qed.

(** Whoever ends with [True] was told so by the server: the last post
    was answered with an OK status and an ok body. *)
Lemma upload_attempts_true remaining url headers token name file_path :
  forall attempts backoff w,
  let run := upload_attempts E remaining url headers token name file_path
               attempts backoff w in
  fst run = Ret true ->
  exists image k r,
    Dict.get file_path (files w) = Some image
    /\ (k < remaining)%nat
    /\ http_post E (posted (trace w) + k) url headers (emoji_form token name image)
       = Reply r
    /\ is_accepted r = true
    /\ posted (trace (snd run)) = (posted (trace w) + S k)%nat.
Proof.
  induction remaining as [|remaining IH]; intros attempts backoff w; cbv zeta.
  { done. }
  destruct (upload_attempt_cases remaining url headers token name file_path attempts
              backoff w)
    as [[_ [e ->]]|(image & Hf & [(e & _ & ->)|(r & Hp & [(o & lines & -> & Ho & _)
                                                          |(_ & lines & ->)])])];
    cbn [fst snd]; [done..| |].
  - intros ->. exists image, 0%nat, r. rewrite Nat.add_0_r.
    split; [done|]. split; [lia|]. split; [done|]. split; [by apply Ho|].
    rewrite !trace_log, !posted_app, posted_prints. cbn. lia.
  - intros Htrue.
    destruct (IH _ _ _ Htrue) as (image' & k & r' & Hf' & Hk & Hp' & Hacc & Hpo).
    rewrite files_log, files_log, Hf in Hf'. injection Hf' as <-.
    rewrite !trace_log, !posted_app, posted_prints in Hp', Hpo.
    cbn in Hp', Hpo. rewrite Nat.add_0_r in Hp', Hpo.
    exists image, (S k), r'. split; [done|]. split; [lia|].
    split; [by rewrite <- Hp'; f_equal; lia|]. split; [done|]. lia.
Qed.

(** A response that is neither OK nor the status 429. *)
Lemma upload_attempts_all_bad_status remaining url headers token name file_path image :
  forall attempts backoff w,
  attempts = max_retries - Z.of_nat (S remaining) ->
  Dict.get file_path (files w) = Some image ->
  (forall k, (k <= remaining)%nat ->
     exists r, http_post E (posted (trace w) + k) url headers
                 (emoji_form token name image) = Reply r
               /\ ok r = false /\ status_code r <> 429) ->
  exists w',
    upload_attempts E (S remaining) url headers token name file_path attempts backoff w
    = (Ret false, w')
    /\ sleeps (trace w') = sleeps (trace w) ++ backoffs remaining backoff
    /\ posted (trace w') = (posted (trace w) + S remaining)%nat
    /\ (last (printed (trace w'))
        = Some (("    Max retries reached. Giving up on " +:+ name +:+ ".") +:+ eol)).
Proof.
  induction remaining as [|remaining IH]; intros attempts backoff w Hatt Hf Hall.
  - destruct (Hall 0%nat) as (r & Hp & Hok & Hst); [lia|]. rewrite Nat.add_0_r in Hp.
    rewrite (upload_attempt_unfold _ _ _ _ _ _ _ _ _ _ _ _ Hf Hp). cbv zeta.
    rewrite Hok. apply Z.eqb_neq in Hst as ->.
    assert ((attempts + 1 <? max_retries) = false) as ->.
    { apply Z.ltb_ge. unfold max_retries in *. lia. }
    eexists. split; [reflexivity|].
    rewrite !trace_log, !sleeps_app, !posted_app, !printed_app. cbn.
    rewrite !app_nil_r. split; [done|]. split; [lia|]. by rewrite last_snoc.
  - destruct (Hall 0%nat) as (r & Hp & Hok & Hst); [lia|]. rewrite Nat.add_0_r in Hp.
    rewrite (upload_attempt_unfold _ _ _ _ _ _ _ _ _ _ _ _ Hf Hp). cbv zeta.
    rewrite Hok. apply Z.eqb_neq in Hst as ->.
    assert ((attempts + 1 <? max_retries) = true) as ->.
    { apply Z.ltb_lt. unfold max_retries in *. lia. }
    set (w1 := log _ (log _ (log _ w))).
    destruct (IH (attempts + 1) (backoff * 2) w1) as (w' & Hrun & Hsl & Hpo & Hlast).
    + lia.
    + done.
    + intros k Hk. destruct (Hall (S k)) as (r' & Hp' & Hr'); [lia|].
      exists r'. split; [|done]. rewrite <- Hp'. f_equal.
      subst w1. rewrite !trace_log, !posted_app. cbn. lia.
    + exists w'. split; [done|]. subst w1.
      rewrite !trace_log, !sleeps_app in Hsl. rewrite !trace_log, !posted_app in Hpo.
      cbn in Hsl, Hpo. rewrite !app_nil_r in Hsl.
      split; [by rewrite Hsl, <- app_assoc|]. split; [lia | done].
Qed.

Lemma upload_attempts_returns remaining url headers token name file_path :
  forall attempts backoff w result,
  let run := upload_attempts E (S remaining) url headers token name file_path
               attempts backoff w in
  fst run = Ret result -> (posted (trace w) < posted (trace (snd run)))%nat.
Proof.
  intros attempts backoff w result. cbv zeta.
  destruct (upload_attempt_cases remaining url headers token name file_path attempts
              backoff w)
    as [[_ [e ->]]|(image & _ & [(e & _ & ->)|(r & _ & [(o & lines & -> & _)
                                                        |(_ & lines & ->)])])];
    cbn [fst snd]; [done..| |]; intros _.
  - rewrite !trace_log, !posted_app, posted_prints. cbn. lia.
  - destruct (upload_attempts_bounded remaining url headers token name file_path
                (attempts + 1) (backoff * 2)
                (log ((Print <$> lines) ++ [Sleep (Seconds backoff)])
                   (log (attempt_events url headers token name file_path image) w)))
      as (k & _ & _ & Hpo & _).
    rewrite !trace_log, !posted_app, posted_prints in Hpo. cbn in Hpo. lia.
Qed.

Lemma backoffs_take k :
  (k <= 5)%nat ->
  backoffs k 1 = take k [Seconds 1; Seconds 2; Seconds 4; Seconds 8; Seconds 16].
Proof. intros Hk. do 6 (destruct k as [|k]; [done|]). lia. Qed.

(** X1.  Whatever the server answers and however it ends,
    [upload_emoji] posts five times at most; it opens the file anew for
    every post; what it sleeps is the start of the schedule 1, 2, 4, 8,
    16 seconds, one delay after each attempt that it means to repeat;
    and it changes no file. *)
Theorem upload_emoji_bounded team_id cookie token name file_path w :
  let w' := snd (upload_emoji E team_id cookie token name file_path w) in
  exists k,
    (k <= 5)%nat
    /\ sleeps (trace w')
       = sleeps (trace w)
         ++ take k [Seconds 1; Seconds 2; Seconds 4; Seconds 8; Seconds 16]
    /\ (posted (trace w) + k <= posted (trace w') <= posted (trace w) + 5)%nat
    /\ (opened (trace w') - opened (trace w)
        = posted (trace w') - posted (trace w))%nat
    /\ files w' = files w.
Proof.
  cbv zeta. unfold upload_emoji. change (Z.to_nat (max_retries - 0)) with 5%nat.
  destruct (upload_attempts_bounded 5 (emoji_add_url team_id) [("Cookie", cookie)]
              token name file_path 0 1 w) as (k & Hk & Hsl & Hpo & Hop & Hfi).
  exists k. rewrite <- backoffs_take by done. unfold emoji_add_url in *.
  repeat split; try done; lia.
Qed.

(** X2.  When every one of the five attempts gets a status that is
    neither OK nor 429, [upload_emoji] returns [False] after five posts
    and four sleeps of 1, 2, 4 and 8 seconds: after the fifth attempt it
    does not sleep, and its last line says that it gives up. *)
Theorem upload_emoji_bad_status_every_attempt team_id cookie token name file_path
    w image :
  Dict.get file_path (files w) = Some image ->
  (forall k, (k < 5)%nat ->
     exists r, http_post E (posted (trace w) + k) (emoji_add_url team_id)
                 [("Cookie", cookie)] (emoji_form token name image) = Reply r
               /\ ok r = false /\ status_code r <> 429) ->
  exists w',
    upload_emoji E team_id cookie token name file_path w = (Ret false, w')
    /\ sleeps (trace w')
       = sleeps (trace w) ++ [Seconds 1; Seconds 2; Seconds 4; Seconds 8]
    /\ posted (trace w') = (posted (trace w) + 5)%nat
    /\ (last (printed (trace w'))
        = Some (("    Max retries reached. Giving up on " +:+ name +:+ ".") +:+ eol)).
Proof.
  intros Hf Hall. unfold upload_emoji. change (Z.to_nat (max_retries - 0)) with 5%nat.
  apply (upload_attempts_all_bad_status 4 (emoji_add_url team_id) [("Cookie", cookie)]
           token name file_path image 0 1 w); [done..|].
  intros k Hk. apply Hall. lia.
Qed.

(** X3.  [upload_emoji] returns [True] only when the server said so: the
    file was there, and the last of its posts, one of the first five,
    was answered with an OK status and a body whose ok flag is true. *)
Theorem upload_emoji_true_only_if_accepted team_id cookie token name file_path w :
  fst (upload_emoji E team_id cookie token name file_path w) = Ret true ->
  exists image k r,
    Dict.get file_path (files w) = Some image
    /\ (k < 5)%nat
    /\ http_post E (posted (trace w) + k) (emoji_add_url team_id) [("Cookie", cookie)]
         (emoji_form token name image) = Reply r
    /\ ok r = true /\ success_flag r = true
    /\ posted (trace (snd (upload_emoji E team_id cookie token name file_path w)))
       = (posted (trace w) + S k)%nat.
Proof.
  unfold upload_emoji. change (Z.to_nat (max_retries - 0)) with 5%nat.
  intros Htrue.
  destruct (upload_attempts_true 5 (emoji_add_url team_id) [("Cookie", cookie)]
              token name file_path 0 1 w Htrue)
    as (image & k & r & Hf & Hk & Hp & Hacc & Hpo).
  apply andb_prop in Hacc as [Hok Hflag]. by exists image, k, r.
Qed.

End AttemptFacts.

(** ** The batch of uploads *)

Section BatchFacts.

Variable E : env.

Lemma upload_each_cons team_id cookie token file_path emoji_files uploaded failed w :
  upload_each E team_id cookie token (file_path :: emoji_files) uploaded failed w
  = (let w0 := log [Print ("Uploading " +:+ stem file_path +:+ "... ")] w in
     match upload_emoji E team_id cookie token (stem file_path) file_path w0 with
     | (Ret flag, w1) =>
         upload_each E team_id cookie token emoji_files
           (if flag then S uploaded else uploaded)
           (if flag then failed else S failed)
           (log [Sleep Pacing] w1)
     | (Raise e, w1) => (Raise e, w1)
     | (Exit code, w1) => (Exit code, w1)
     end).
Proof.
  cbn [upload_each]. unfold bind at 1, print_noeol, emit. cbv zeta.
  unfold bind at 1.
  destruct (upload_emoji E team_id cookie token (stem file_path) file_path _)
    as [[flag| |] w1]; [|done..].
  by destruct flag.
Qed.

(** When the loop over the files returns, every file has been counted
    once, as uploaded or as failed, was posted once at least and five
    times at most, and was followed by one pacing delay. *)
Lemma upload_each_counts team_id cookie token emoji_files :
  forall uploaded failed w uploaded' failed',
  let run := upload_each E team_id cookie token emoji_files uploaded failed w in
  fst run = Ret (uploaded', failed') ->
  (uploaded' + failed' = uploaded + failed + length emoji_files)%nat
  /\ (uploaded <= uploaded')%nat
  /\ pacings (sleeps (trace (snd run)))
     = (pacings (sleeps (trace w)) + length emoji_files)%nat
  /\ (posted (trace w) + length emoji_files <= posted (trace (snd run))
      <= posted (trace w) + 5 * length emoji_files)%nat
  /\ files (snd run) = files w.
Proof.
  induction emoji_files as [|file_path emoji_files IH];
    intros uploaded failed w uploaded' failed'; cbv zeta.
  { cbn. intros [= <- <-]. repeat split; lia. }
  rewrite upload_each_cons. cbv zeta.
  set (w0 := log _ w).
  pose proof (upload_attempts_bounded E 5 (emoji_add_url team_id) [("Cookie", cookie)]
                token (stem file_path) file_path 0 1 w0) as (k & _ & Hsl & Hpo & _ & Hfi).
  pose proof (upload_attempts_returns E 4 (emoji_add_url team_id) [("Cookie", cookie)]
                token (stem file_path) file_path 0 1 w0) as Hret.
  cbv zeta in Hsl, Hpo, Hfi, Hret.
  change (upload_attempts E 5 (emoji_add_url team_id) [("Cookie", cookie)] token
            (stem file_path) file_path 0 1 w0)
    with (upload_emoji E team_id cookie token (stem file_path) file_path w0)
    in Hsl, Hpo, Hfi, Hret.
  destruct (upload_emoji E team_id cookie token (stem file_path) file_path w0)
    as [[flag| |] w1]; [|done..].
  cbn [fst snd] in *. specialize (Hret flag eq_refl).
  intros Hrun. apply IH in Hrun as (Hsum & Hup & Hpa & Hposts & Hfiles).
  rewrite Hpa, Hfiles, files_log, Hfi. clear Hpa Hfiles Hfi IH.
  rewrite trace_log, posted_app in Hposts. rewrite trace_log, sleeps_app, Hsl.
  subst w0. rewrite files_log, !trace_log, !sleeps_app, !pacings_app.
  rewrite !trace_log, !posted_app in Hpo, Hret.
  rewrite pacings_backoffs. cbn in *.
  repeat split; destruct flag; lia.
Qed.

(** When the loop over the files returns, it has gone through one
    episode for each file, in the order of the files. *)
Lemma upload_each_episodes team_id cookie token emoji_files :
  forall uploaded failed w counts,
  let run := upload_each E team_id cookie token emoji_files uploaded failed w in
  fst run = Ret counts ->
  exists segments,
    trace (snd run) = trace w ++ concat (zip_with episode emoji_files segments)
    /\ Forall2 (fun file_path attempts =>
                  forallb (of_upload (stem file_path) file_path) attempts = true
                  /\ (1 <= posted attempts <= 5)%nat
                  /\ opened attempts = posted attempts)
         emoji_files segments.
Proof.
  induction emoji_files as [|file_path emoji_files IH];
    intros uploaded failed w counts; cbv zeta.
  { intros _. exists []. cbn. by rewrite app_nil_r. }
  rewrite upload_each_cons. cbv zeta.
  set (w0 := log _ w).
  pose proof (upload_attempts_segment E 5 (emoji_add_url team_id) [("Cookie", cookie)]
                token (stem file_path) file_path 0 1 w0)
    as (segment & Htrace & Hof & Hle & Hop & Hge).
  cbv zeta in Htrace, Hge.
  change (upload_attempts E 5 (emoji_add_url team_id) [("Cookie", cookie)] token
            (stem file_path) file_path 0 1 w0)
    with (upload_emoji E team_id cookie token (stem file_path) file_path w0)
    in Htrace, Hge.
  destruct (upload_emoji E team_id cookie token (stem file_path) file_path w0)
    as [[flag| |] w1]; [|done..].
  cbn [fst snd] in *. specialize (Hge flag eq_refl ltac:(discriminate)).
  intros Hrun. apply IH in Hrun as (segments & Hrest & Hall).
  exists (segment :: segments). split.
  - rewrite Hrest, trace_log, Htrace. subst w0. rewrite trace_log.
    cbn [zip_with concat].
    change (episode file_path segment)
      with ([Print ("Uploading " +:+ stem file_path +:+ "... ")]
            ++ segment ++ [Sleep Pacing]).
    by rewrite <- !app_assoc.
  - constructor; [|done]. repeat split; done || lia.
Qed.

Lemma upload_emojis_run team_id cookie token emoji_dir w :
  upload_emojis E team_id cookie token emoji_dir w
  = (let found := emoji_files emoji_dir (files w) in
     let w0 := log [Print (("Found " +:+ Str.of_nat (length found)
                            +:+ " emoji files in " +:+ emoji_dir) +:+ eol)] w in
     match upload_each E team_id cookie token found 0 0 w0 with
     | (Ret (uploaded, failed), w1) =>
         (Ret uploaded, log [Print (uploaded_line uploaded failed)] w1)
     | (Raise e, w1) => (Raise e, w1)
     | (Exit code, w1) => (Exit code, w1)
     end).
Proof.
  unfold upload_emojis.
  rewrite (bind_read (fun w => emoji_files emoji_dir (files w))).
  unfold bind at 1, print at 1, emit. unfold bind at 1. cbv beta zeta.
  destruct (upload_each E team_id cookie token _ 0%nat 0%nat _)
    as [[[up failed]| |] w1]; done.
Qed.

(** X5.  When [upload_emojis] returns, the number it returns and the
    number of failures it prints in its last line add up to the number of
    files that the scan found.  Between its first and its last line it
    has gone through one episode for each of these files, in their
    order: the file is announced, it is opened and posted under its
    stem once at least and five times at most, and one pacing delay
    follows. *)
Theorem upload_emojis_counts team_id cookie token emoji_dir w uploaded :
  let run := upload_emojis E team_id cookie token emoji_dir w in
  let found := length (emoji_files emoji_dir (files w)) in
  fst run = Ret uploaded ->
  (uploaded <= found)%nat
  /\ last (printed (trace (snd run))) = Some (uploaded_line uploaded (found - uploaded))
  /\ pacings (sleeps (trace (snd run))) = (pacings (sleeps (trace w)) + found)%nat
  /\ (posted (trace w) + found <= posted (trace (snd run))
      <= posted (trace w) + 5 * found)%nat
  /\ exists segments,
       trace (snd run)
       = trace w
         ++ [Print (("Found " +:+ Str.of_nat found +:+ " emoji files in " +:+ emoji_dir)
                    +:+ eol)]
         ++ concat (zip_with episode (emoji_files emoji_dir (files w)) segments)
         ++ [Print (uploaded_line uploaded (found - uploaded))]
       /\ Forall2 (fun file_path attempts =>
                     forallb (of_upload (stem file_path) file_path) attempts = true
                     /\ (1 <= posted attempts <= 5)%nat
                     /\ opened attempts = posted attempts)
            (emoji_files emoji_dir (files w)) segments.
Proof.
  cbv zeta. rewrite upload_emojis_run. cbv zeta.
  match goal with
  | |- context [upload_each E team_id cookie token ?fs 0%nat 0%nat ?w0] =>
      pose proof (upload_each_counts team_id cookie token fs 0 0 w0) as Hcounts;
      pose proof (upload_each_episodes team_id cookie token fs 0 0 w0) as Hepisodes;
      cbv zeta in Hcounts, Hepisodes;
      destruct (upload_each E team_id cookie token fs 0%nat 0%nat w0)
        as [[[up failed]| |] w1]; [|done..]
  end.
  destruct (Hcounts up failed eq_refl) as (Hsum & _ & Hpa & Hposts & _).
  destruct (Hepisodes (up, failed) eq_refl) as (segments & Htrace & Hall).
  cbn [fst snd] in *. intros [= <-].
  replace (length (emoji_files emoji_dir (files w)) - up)%nat with failed by lia.
  split; [lia|]. split; [|split; [|split]].
  - rewrite trace_log, printed_app. cbn [printed omap list_omap].
    by rewrite last_snoc.
  - rewrite trace_log, sleeps_app, pacings_app, Hpa.
    rewrite trace_log, sleeps_app, pacings_app. cbn. lia.
  - rewrite trace_log, posted_app. rewrite trace_log, posted_app in Hposts.
    cbn in *. lia.
  - exists segments. split; [|done].
    rewrite trace_log, Htrace, trace_log. by rewrite <- !app_assoc.
Qed.

(** X4.  An exception of the transport during an upload is not caught:
    [upload_emojis] ends with it at once, the files after that one are
    not attempted and the last line is not printed. *)
Theorem upload_emojis_transport_error team_id cookie token emoji_dir w file_path
    others image e :
  emoji_files emoji_dir (files w) = file_path :: others ->
  Dict.get file_path (files w) = Some image ->
  http_post E (posted (trace w)) (emoji_add_url team_id) [("Cookie", cookie)]
    (emoji_form token (stem file_path) image) = NetError e ->
  upload_emojis E team_id cookie token emoji_dir w
  = (Raise e,
     log [Print (("Found " +:+ Str.of_nat (S (length others)) +:+ " emoji files in "
                  +:+ emoji_dir) +:+ eol);
          Print ("Uploading " +:+ stem file_path +:+ "... ");
          OpenRead file_path;
          Post (emoji_add_url team_id) [("Cookie", cookie)]
            (emoji_form token (stem file_path) image)] w).
Proof.
  intros Hfound Hf Hp. rewrite upload_emojis_run, Hfound. cbv zeta.
  rewrite upload_each_cons. cbv zeta. rewrite !log_log.
  set (w0 := log _ w).
  assert (Hposted : posted (trace w0) = posted (trace w)).
  { subst w0. rewrite trace_log, posted_app. cbn. lia. }
  pose proof (upload_attempt_cases E 4 (emoji_add_url team_id) [("Cookie", cookie)]
                token (stem file_path) file_path 0 1 w0) as Hcases.
  cbv zeta in Hcases.
  change (upload_attempts E 5 (emoji_add_url team_id) [("Cookie", cookie)] token
            (stem file_path) file_path 0 1 w0)
    with (upload_emoji E team_id cookie token (stem file_path) file_path w0)
    in Hcases.
  assert (Hf0 : Dict.get file_path (files w0) = Some image) by done.
  rewrite Hposted in Hcases.
  destruct Hcases as [[Hnone _]|(image' & Hsome & Hcases)]; [congruence|].
  assert (image' = image) as -> by congruence.
  destruct Hcases as [(e' & He' & ->)|(r & Hr & _)]; [|congruence].
  assert (e' = e) as -> by congruence.
  subst w0. by rewrite log_log.
Qed.

End BatchFacts.

(** ** The further properties of uploads on scripted environments *)

Lemma upload_emoji_bad_status_every_attempt_witness :
  exists w',
    upload_emoji broken_server "T012AB3C4" "d=cookie" "xoxc-1" "smile"
      "emoji_downloads/smile.png" one_asset
    = (Ret false, w')
    /\ sleeps (trace w')
       = sleeps (trace one_asset) ++ [Seconds 1; Seconds 2; Seconds 4; Seconds 8]
    /\ posted (trace w') = (posted (trace one_asset) + 5)%nat
    /\ (last (printed (trace w'))
        = Some (("    Max retries reached. Giving up on " +:+ "smile" +:+ ".") +:+ eol)).
Proof.
  apply (upload_emoji_bad_status_every_attempt broken_server "T012AB3C4" "d=cookie"
           "xoxc-1" "smile" "emoji_downloads/smile.png" one_asset "GIF89a").
  - reflexivity.
  - apply lt_cases_5; exists (plain_response 500 None);
      (split; [reflexivity|split; [reflexivity|discriminate]]).
Defined.

Lemma upload_emoji_true_only_if_accepted_witness :
  exists image k r,
    Dict.get "emoji_downloads/smile.png" (files one_asset) = Some image
    /\ (k < 5)%nat
    /\ http_post (scripted [] (replicate 3 (Reply too_many_requests) ++ [Reply accepted]) [])
         (posted (trace one_asset) + k) (emoji_add_url "T012AB3C4")
         [("Cookie", "d=cookie")] (emoji_form "xoxc-1" "smile" image) = Reply r
    /\ ok r = true /\ success_flag r = true
    /\ posted (trace (snd (upload_emoji
                             (scripted [] (replicate 3 (Reply too_many_requests)
                                           ++ [Reply accepted]) [])
                             "T012AB3C4" "d=cookie" "xoxc-1" "smile"
                             "emoji_downloads/smile.png" one_asset)))
       = (posted (trace one_asset) + S k)%nat.
Proof.
  apply (upload_emoji_true_only_if_accepted
           (scripted [] (replicate 3 (Reply too_many_requests) ++ [Reply accepted]) [])
           "T012AB3C4" "d=cookie" "xoxc-1" "smile" "emoji_downloads/smile.png"
           one_asset).
  vm_compute; reflexivity.
Defined.

Lemma upload_emojis_counts_witness :
  fst (upload_emojis broken_server "T012AB3C4" "d=cookie" "xoxc-1" "emoji_downloads"
         two_assets) = Ret 0%nat
  /\ last (printed (trace (snd (upload_emojis broken_server "T012AB3C4" "d=cookie"
                                 "xoxc-1" "emoji_downloads" two_assets))))
     = Some (uploaded_line 0 2)
  /\ posted (trace (snd (upload_emojis broken_server "T012AB3C4" "d=cookie"
                           "xoxc-1" "emoji_downloads" two_assets))) = 10%nat.
Proof.
  assert (Hrun : fst (upload_emojis broken_server "T012AB3C4" "d=cookie" "xoxc-1"
                        "emoji_downloads" two_assets) = Ret 0%nat)
    by (vm_compute; reflexivity).
  split; [exact Hrun|].
  destruct (upload_emojis_counts broken_server "T012AB3C4" "d=cookie" "xoxc-1"
              "emoji_downloads" two_assets 0 Hrun) as (_ & Hlast & _ & _).
  split; [exact Hlast|]. vm_compute; reflexivity.
Defined.

Lemma upload_emojis_transport_error_witness :
  fst (upload_emojis unreachable "T012AB3C4" "d=cookie" "xoxc-1" "emoji_downloads"
         two_assets)
  = Raise (Exn "ConnectionError" "Connection refused")
  /\ posted (trace (snd (upload_emojis unreachable "T012AB3C4" "d=cookie" "xoxc-1"
                           "emoji_downloads" two_assets))) = 1%nat.
Proof.
  rewrite (upload_emojis_transport_error unreachable "T012AB3C4" "d=cookie" "xoxc-1"
             "emoji_downloads" two_assets "emoji_downloads/smile.png"
             ["emoji_downloads/party.gif"] "PNG"
             (Exn "ConnectionError" "Connection refused"));
    [split; reflexivity|vm_compute; reflexivity..].
Defined.

(** ** The pool of downloads, whatever the catalog *)

Lemma gets_app t1 t2 : gets (t1 ++ t2) = gets t1 ++ gets t2.
Proof. unfold gets. by rewrite omap_app. Qed.

Lemma posted_permutation t1 t2 : t1 ≡ₚ t2 -> posted t1 = posted t2.
Proof.
  unfold posted. induction 1 as [|e t1 t2 _ IH|e1 e2 t|t1 t2 t3 _ IH1 _ IH2];
    cbn [List.filter]; [done| |by destruct (is_post e1), (is_post e2)|congruence].
  destruct (is_post e); cbn [length]; by rewrite IH.
Qed.

Lemma bind_lookup_permutation {A B} (f : A -> list B) (items : list A) order :
  order ≡ₚ seq 0 (length items) ->
  (order ≫= fun i => match items !! i with Some item => f item | None => [] end)
  ≡ₚ items ≫= f.
Proof. intros ->. by rewrite <- (bind_seq_lookup f items []). Qed.

Section PoolFacts.

Variable E : env.

Lemma trace_download_effect name url output_dir w :
  trace (download_effect E name url output_dir w)
  = trace w ++ item_events E output_dir (name, url).
Proof.
  unfold download_effect, item_events, is_fetched. cbn [fst snd].
  destruct (is_alias url); [by rewrite app_nil_r|].
  by destruct (urlparse_path url); [|rewrite app_nil_r].
Qed.

Lemma trace_pool_effect output_dir items order : forall w,
  trace (pool_effect E output_dir items order w)
  = trace w
    ++ (order ≫= fun i => match items !! i with
                          | Some item => item_events E output_dir item
                          | None => []
                          end).
Proof.
  induction order as [|i order IH]; intros w.
  - cbn. by rewrite app_nil_r.
  - rewrite pool_effect_cons, IH, bind_cons.
    destruct (items !! i) as [[name url]|]; [|done].
    by rewrite trace_download_effect, <- app_assoc.
Qed.

Lemma gets_item_events output_dir items :
  gets (items ≫= item_events E output_dir)
  = (fun item => (snd item, [])) <$> List.filter is_fetched items.
Proof.
  induction items as [|item items IH]; [done|].
  rewrite bind_cons, gets_app, IH. cbn [List.filter]. unfold item_events.
  destruct (is_fetched item); [|done].
  unfold download_events. rewrite !gets_app. cbn [gets omap list_omap app fmap list_fmap].
  by destruct (download_writes E _ _), (download_failure E _ _).
Qed.

Lemma posted_item_events output_dir items :
  posted (items ≫= item_events E output_dir) = 0%nat.
Proof.
  induction items as [|item items IH]; [done|].
  rewrite bind_cons, posted_app, IH. unfold item_events.
  destruct (is_fetched item); [|done].
  unfold download_events. rewrite !posted_app. cbn [posted List.filter is_post length].
  by destruct (download_writes E _ _), (download_failure E _ _).
Qed.

(** The tasks write into the files of the entries and nowhere else. *)
Lemma files_pool_effect output_dir items path order : forall w,
  (forall item, item ∈ items -> is_fetched item = true ->
     path <> local_file output_dir (fst item) (snd item)) ->
  Dict.get path (files (pool_effect E output_dir items order w))
  = Dict.get path (files w).
Proof.
  induction order as [|i order IH]; intros w Hpath; [done|].
  rewrite pool_effect_cons, IH by done.
  destruct (items !! i) as [[name url]|] eqn:Hi; [|done].
  apply list_elem_of_lookup_2 in Hi. specialize (Hpath _ Hi).
  unfold download_effect, is_fetched in *. cbn [fst snd] in *.
  destruct (is_alias url); [done|].
  destruct (urlparse_path url); [|done]. cbn [files].
  destruct (download_writes E url _); [|done].
  apply Dict_get_set_ne. intros Heq. by apply Hpath.
Qed.

Lemma join_joined results : forall downloaded w,
  join (Some <$> results) downloaded w = (joined results downloaded, w).
Proof.
  induction results as [|[[r|]|e|code] results IH]; intros downloaded w; [done|..];
    cbn [fmap list_fmap join joined]; unfold bind at 1, future_result;
    by rewrite ?IH.
Qed.

(** An entry that cannot be parsed gives the batch its exception. *)
Lemma first_url_error_some items :
  (exists item, item ∈ items /\ is_alias (snd item) = false
                /\ urlparse_path (snd item) = None) ->
  exists e, first_url_error items = Some e.
Proof.
  induction items as [|[name url] items IH]; intros (item & Hin & Ha & Hp).
  { by apply elem_of_nil in Hin. }
  cbn [first_url_error].
  destruct (is_alias url) eqn:Halias.
  { apply elem_of_cons in Hin as [->|Hin]; [cbn in Ha; congruence|].
    apply IH. by exists item. }
  destruct (urlparse_path url) eqn:Hparse; [|by eexists].
  apply elem_of_cons in Hin as [->|Hin]; [cbn in Hp; congruence|].
  apply IH. by exists item.
Qed.

(** The loop over the futures ends with the exception of the first task
    that raised. *)
Lemma joined_invalid output_dir items e : forall downloaded,
  first_url_error items = Some e ->
  joined ((fun item => download_result E (fst item) (snd item) output_dir) <$> items)
    downloaded
  = Raise e.
Proof.
  induction items as [|[name url] items IH]; intros downloaded He; [done|].
  cbn [fmap list_fmap joined fst snd]. cbn [first_url_error] in He.
  unfold download_result at 1.
  destruct (is_alias url) eqn:Halias; [by apply IH|].
  destruct (urlparse_path url) eqn:Hparse; [|by injection He as <-].
  destruct (download_failure E url _); by apply IH.
Qed.

(** [download_emojis] on a catalog, whatever its addresses. *)
Lemma download_emojis_unfold catalog output_dir sched w :
  makedirs_error E output_dir = None ->
  download_emojis E (inr catalog) output_dir sched w
  = (let w1 :=
       pool_effect E output_dir catalog (completion_order sched (length catalog))
         (log [MakeDirs output_dir;
               Print (downloading_line (length catalog) output_dir)] w) in
     match joined ((fun item => download_result E (fst item) (snd item) output_dir)
                   <$> catalog) [] with
     | Ret downloaded =>
         (Ret downloaded, log [Print (downloaded_line (length downloaded))] w1)
     | Raise e => (Raise e, w1)
     | Exit code => (Exit code, w1)
     end).
Proof.
  intros Hmk. unfold download_emojis, makedirs. rewrite Hmk.
  unfold bind at 1, emit. unfold bind at 1, ret at 1.
  unfold bind at 1, print at 1, emit. rewrite log_log. cbn [app].
  unfold bind at 1. rewrite length_map, run_tasks_download.
  rewrite settle_all by apply completion_order_permutation.
  unfold bind at 1.
  rewrite (list_fmap_compose
             (fun item => download_result E (fst item) (snd item) output_dir) Some),
    join_joined.
  cbv zeta.
  destruct (joined _ []); [|done..].
  by run_effects.
Qed.

Lemma gets_pool output_dir catalog order w :
  order ≡ₚ seq 0 (length catalog) ->
  gets (trace (pool_effect E output_dir catalog order w))
  ≡ₚ gets (trace w) ++ ((fun item => (snd item, [])) <$> List.filter is_fetched catalog).
Proof.
  intros Horder. rewrite trace_pool_effect, gets_app.
  apply Permutation_app_head. rewrite <- (gets_item_events output_dir). unfold gets.
  by rewrite (bind_lookup_permutation (item_events E output_dir) catalog order Horder).
Qed.

Lemma posted_pool output_dir catalog order w :
  order ≡ₚ seq 0 (length catalog) ->
  posted (trace (pool_effect E output_dir catalog order w)) = posted (trace w).
Proof.
  intros Horder. rewrite trace_pool_effect, posted_app.
  rewrite (posted_permutation _ _
             (bind_lookup_permutation (item_events E output_dir) catalog order Horder)).
  rewrite posted_item_events. lia.
Qed.

Lemma failure_line_not_downloaded (name reason : string) n :
  downloaded_line n <> failure_line name reason.
Proof. unfold failure_line, downloaded_line. by rewrite !append_cons. Qed.

Lemma item_lines_failure output_dir item line :
  line ∈ item_lines E output_dir item ->
  exists reason, line = failure_line (fst item) reason.
Proof.
  unfold item_lines. destruct (is_alias (snd item)); [by intros ?%elem_of_nil|].
  destruct (urlparse_path (snd item)); [|by intros ?%elem_of_nil].
  destruct (download_failure E _ _) as [reason|]; [|by intros ?%elem_of_nil].
  intros ->%list_elem_of_singleton. by exists reason.
Qed.

Lemma gets_download_emojis catalog output_dir sched w :
  makedirs_error E output_dir = None ->
  gets (trace (snd (download_emojis E (inr catalog) output_dir sched w)))
  ≡ₚ gets (trace w) ++ ((fun item => (snd item, [])) <$> List.filter is_fetched catalog).
Proof.
  intros Hmk. rewrite download_emojis_unfold by done. cbv zeta.
  pose proof (completion_order_permutation sched (length catalog)) as Horder.
  pose proof (gets_pool output_dir catalog _
                (log [MakeDirs output_dir;
                      Print (downloading_line (length catalog) output_dir)] w) Horder)
    as Hgets.
  rewrite trace_log, gets_app, app_nil_r in Hgets.
  destruct (joined _ []); cbn [snd]; [|done..].
  by rewrite trace_log, gets_app, app_nil_r.
Qed.

Lemma posted_download_emojis catalog output_dir sched w :
  posted (trace (snd (download_emojis E (inr catalog) output_dir sched w)))
  = posted (trace w).
Proof.
  destruct (makedirs_error E output_dir) as [e|] eqn:Hmk.
  { unfold download_emojis, makedirs. by rewrite Hmk. }
  rewrite download_emojis_unfold by done. cbv zeta.
  pose proof (completion_order_permutation sched (length catalog)) as Horder.
  pose proof (posted_pool output_dir catalog _
                (log [MakeDirs output_dir;
                      Print (downloading_line (length catalog) output_dir)] w) Horder)
    as Hposted.
  rewrite trace_log, posted_app, Nat.add_0_r in Hposted.
  destruct (joined _ []); cbn [snd]; [|done..].
  by rewrite trace_log, posted_app, Nat.add_0_r.
Qed.

(** X6.  [download_emojis] sends one request, without any header, for
    every entry of the catalog that is no alias and whose address can be
    parsed, in whatever order the pool runs them, and no other request;
    it posts nothing.  An entry whose address is of the usual form is
    one of those that are requested. *)
Theorem download_emojis_requests catalog output_dir sched w :
  makedirs_error E output_dir = None ->
  let run := download_emojis E (inr catalog) output_dir sched w in
  gets (trace (snd run))
  ≡ₚ gets (trace w) ++ ((fun item => (snd item, [])) <$> List.filter is_fetched catalog)
  /\ posted (trace (snd run)) = posted (trace w)
  /\ forall name url scheme host path tail,
       (name, url) ∈ catalog -> usual_url url scheme host path tail ->
       (url, []) ∈ gets (trace (snd run)).
Proof.
  intros Hmk. cbv zeta.
  split; [by apply gets_download_emojis|]. split; [apply posted_download_emojis|].
  intros name url scheme host path tail Hin Hurl.
  rewrite gets_download_emojis by done. apply elem_of_app. right.
  apply (list_elem_of_fmap_2 (fun item => (snd item, [])) _ (name, url)).
  apply list_elem_of_In, filter_In. rewrite <- list_elem_of_In. split; [done|].
  unfold is_fetched, urlparse_path. cbn [snd].
  rewrite (urlparse_usual url scheme host path tail Hurl).
  destruct Hurl as (-> & [-> | ->] & _); done.
Qed.

(** X7.  An entry that is no alias and whose address cannot be parsed
    makes [download_emojis] end with the exception of the parser, and not
    with a result: the exception that [urlparse] raises for the first
    such entry of the catalog.  The other tasks have run all the same:
    every entry that can be fetched was requested and the failures were
    logged, but the line that counts the downloads is not printed. *)
Theorem download_emojis_invalid_url catalog output_dir sched w name url :
  makedirs_error E output_dir = None ->
  (name, url) ∈ catalog ->
  is_alias url = false ->
  urlparse_path url = None ->
  let run := download_emojis E (inr catalog) output_dir sched w in
  (exists e, first_url_error catalog = Some e /\ fst run = Raise e)
  /\ (forall item, item ∈ catalog -> is_fetched item = true ->
        (snd item, []) ∈ gets (trace (snd run)))
  /\ exists lines,
       printed (trace (snd run))
       = printed (trace w) ++ downloading_line (length catalog) output_dir :: lines
       /\ lines ≡ₚ catalog ≫= item_lines E output_dir
       /\ forall n, downloaded_line n ∉ lines.
Proof.
  intros Hmk Hin Halias Hparse. cbv zeta.
  pose proof (gets_download_emojis catalog output_dir sched w Hmk) as Hgets.
  revert Hgets.
  rewrite download_emojis_unfold by done. cbv zeta.
  destruct (first_url_error_some catalog) as [e He]; [by exists (name, url)|].
  rewrite (joined_invalid _ _ e) by done. cbn [fst snd]. intros Hgets.
  split; [by exists e|]. split.
  { intros item Hitem Hfetched. rewrite Hgets. apply elem_of_app. right.
    apply (list_elem_of_fmap_2 (fun item => (snd item, []))).
    apply list_elem_of_In, filter_In. by rewrite <- list_elem_of_In. }
  pose proof (completion_order_permutation sched (length catalog)) as Horder.
  eexists. rewrite printed_pool_effect, trace_log, printed_app.
  cbn [printed omap list_omap]. rewrite <- app_assoc. cbn [app].
  split; [reflexivity|]. split; [by apply pool_lines_permutation|].
  intros n Hn. rewrite (pool_lines_permutation E output_dir catalog _ Horder) in Hn.
  apply list_elem_of_bind in Hn as (item & Hline & _).
  apply item_lines_failure in Hline as [reason Hline].
  by apply failure_line_not_downloaded with (fst item) reason n.
Qed.

(** X8.  [download_emojis] writes into the files of the entries that it
    fetches and nowhere else: any other file is as it was, however the
    run ends. *)
Theorem download_emojis_touches_only_local_files catalog output_dir sched w path :
  (forall item, item ∈ catalog -> is_fetched item = true ->
     path <> local_file output_dir (fst item) (snd item)) ->
  Dict.get path (files (snd (download_emojis E (inr catalog) output_dir sched w)))
  = Dict.get path (files w).
Proof.
  intros Hpath. destruct (makedirs_error E output_dir) as [e|] eqn:Hmk.
  { unfold download_emojis, makedirs. by rewrite Hmk. }
  rewrite download_emojis_unfold by done. cbv zeta.
  destruct (joined _ []); cbn [snd]; rewrite ?files_log;
    by rewrite files_pool_effect.
Qed.


End PoolFacts.

(** ** The commands *)

Lemma no_post_bind {A B} (m : M A) (k : A -> M B) :
  no_post m -> (forall a, no_post (k a)) -> no_post (bind m k).
Proof.
  intros Hm Hk w. unfold bind. specialize (Hm w).
  destruct (m w) as [[a| |] w1]; [|done..]. cbn [snd] in Hm. by rewrite Hk.
Qed.

Lemma no_post_ret {A} (a : A) : no_post (ret a).
Proof. done. Qed.

Lemma no_post_raise {A} e : no_post (@raise A e).
Proof. done. Qed.

Lemma no_post_sys_exit {A} code : no_post (@sys_exit A code).
Proof. done. Qed.

Lemma no_post_print s : no_post (print s).
Proof.
  intros w. unfold print, emit. cbn [snd]. rewrite trace_log, posted_app. cbn. lia.
Qed.

Lemma no_post_print_noeol s : no_post (print_noeol s).
Proof.
  intros w. unfold print_noeol, emit. cbn [snd]. rewrite trace_log, posted_app.
  cbn. lia.
Qed.

Lemma no_post_getattr args name : no_post (getattr args name).
Proof. unfold getattr. by destruct (Dict.get name (attributes args)). Qed.

Lemma no_post_os_path_exists path : no_post (os_path_exists path).
Proof. done. Qed.

Lemma no_post_open_read path : no_post (open_read path).
Proof.
  intros w. unfold open_read. destruct (Dict.get path (files w)); [|done].
  cbn [snd]. rewrite trace_log, posted_app. cbn. lia.
Qed.

Lemma no_post_parse_args p argv : no_post (parse_args p argv).
Proof.
  intros w. unfold parse_args.
  destruct (match chosen argv with Some c => _ | None => _ end); [|done].
  cbv zeta. destruct (forallb _ _); [|done]. by destruct (fill _ _).
Qed.

Lemma parse_args_command p argv w args :
  fst (parse_args p argv w) = Ret args -> command args = chosen argv.
Proof.
  unfold parse_args.
  destruct (match chosen argv with Some c => _ | None => _ end); [|done].
  cbv zeta. destruct (forallb _ _); [|done]. destruct (fill _ _); [|done].
  by intros [= <-].
Qed.

Lemma parse_args_world p argv w : snd (parse_args p argv w) = w.
Proof.
  unfold parse_args.
  destruct (match chosen argv with Some c => _ | None => _ end); [|done].
  cbv zeta. destruct (forallb _ _); [|done]. by destruct (fill _ _).
Qed.

Lemma bind_ext {A B} (m : M A) (k1 k2 : A -> M B) w :
  (forall a w', k1 a w' = k2 a w') -> bind m k1 w = bind m k2 w.
Proof. intros Hk. unfold bind. destruct (m w) as [[a| |] w1]; [apply Hk|done..]. Qed.

Lemma fails_bind {A B} (m : M A) (k : A -> M B) w :
  (forall a w', fails (fst (k a w'))) -> fails (fst (bind m k w)).
Proof. intros Hk. unfold bind. destruct (m w) as [[a| |] w1]; [apply Hk|done..]. Qed.

(** The arguments of the export command: those of its subparser and
    the output directory; no token among them. *)
Lemma parse_args_export values w args :
  fst (parse_args setup_argparse {| chosen := Some "export"; given := values |} w)
  = Ret args ->
  exists source_token cookie team_id,
    Dict.get "source_token" values = Some source_token
    /\ command args = Some "export"
    /\ attributes args
       = [("output_dir", default DEFAULT_OUTPUT_DIR (Dict.get "output_dir" values));
          ("source_token", source_token); ("cookie", cookie); ("team_id", team_id)].
Proof.
  unfold parse_args. cbn [chosen given].
  set (sub := Dict.get "export" (subparsers setup_argparse)). vm_compute in sub.
  subst sub. cbv zeta.
  unfold setup_argparse. cbn [common app].
  destruct (forallb _ values); [|done].
  cbn [fill]. unfold DEFAULT_OUTPUT_DIR.
  destruct (Dict.get "source_token" values) as [source_token|]; [|by destruct (Dict.get _ _)].
  destruct (Dict.get "cookie" values) as [cookie|]; [|by destruct (Dict.get _ _)].
  destruct (Dict.get "team_id" values) as [team_id|]; [|by destruct (Dict.get _ _)].
  intros Hargs. exists source_token, cookie, team_id. split; [done|].
  destruct (Dict.get "output_dir" values); cbn in Hargs; by injection Hargs as <-.
Qed.

Section ProgramFacts.

Variable E : env.
Variable help : string.

Lemma no_post_list_emojis token output_file : no_post (list_emojis E token output_file).
Proof.
  intros w. rewrite list_emojis_unfold. cbv zeta.
  assert (Hget : posted (trace (log [Get emoji_list_url (bearer token)] w))
                 = posted (trace w)).
  { rewrite trace_log, posted_app. cbn. lia. }
  destruct (http_get E emoji_list_url (bearer token)) as [r|e]; [|done].
  assert (Hexit : posted (trace (log [Print (listing_diagnostic r +:+ eol)]
                                   (log [Get emoji_list_url (bearer token)] w)))
                  = posted (trace w)).
  { rewrite trace_log, posted_app, Hget. cbn. lia. }
  destruct (ok r); [|done].
  destruct (json r) as [data|]; [|done].
  destruct (body_ok data); [|done].
  destruct (body_emoji data) as [emoji|]; [|done].
  destruct (open_error E output_file); [done|].
  cbn [snd]. rewrite trace_log, posted_app. cbn [trace].
  rewrite posted_app, Hget. cbn. lia.
Qed.

Lemma no_post_download_emojis catalog output_dir sched :
  no_post (download_emojis E (inr catalog) output_dir sched).
Proof.
  intros w. apply posted_download_emojis.
Qed.

Ltac no_posts :=
  repeat first
    [ apply no_post_list_emojis | apply no_post_download_emojis
    | apply no_post_ret | apply no_post_raise | apply no_post_sys_exit
    | apply no_post_print | apply no_post_print_noeol | apply no_post_getattr
    | apply no_post_os_path_exists | apply no_post_open_read
    | apply no_post_bind; [|intros ?; cbv beta]
    | match goal with
      | |- no_post (if ?b then _ else _) => destruct b
      | |- no_post (match ?x with _ => _ end) => destruct x
      end ].

(** X10.  Only the upload command posts: whatever the command line, the
    server and the files, [main] with another command, with none or with
    arguments that the parser refuses posts nothing, however it ends. *)
Theorem main_posts_only_for_upload argv sched w :
  chosen argv <> Some "upload" ->
  posted (trace (snd (main E help argv sched w))) = posted (trace w).
Proof.
  intros Hcmd. unfold main. cbv zeta. unfold bind at 1.
  pose proof (parse_args_command setup_argparse argv w) as Hc.
  pose proof (parse_args_world setup_argparse argv w) as Hw.
  destruct (parse_args setup_argparse argv w) as [[args| |] w0] eqn:Hparse;
    cbn [fst snd] in *; subst w0; [|done..].
  rewrite (Hc args eq_refl).
  destruct (chosen argv) as [cmd|] eqn:Hchosen.
  2: { apply (no_post_bind (print_noeol help)); no_posts. }
  destruct (String.eqb cmd "").
  { apply (no_post_bind (print_noeol help)); no_posts. }
  destruct (String.eqb cmd "list").
  { match goal with
    | |- posted (trace (snd (?m w))) = _ => enough (Hm : no_post m) by apply Hm
    end.
    no_posts. }
  destruct (String.eqb cmd "download").
  { match goal with
    | |- posted (trace (snd (?m w))) = _ => enough (Hm : no_post m) by apply Hm
    end.
    no_posts. }
  destruct (String.eqb_spec cmd "upload") as [->|_]; [done|].
  destruct (String.eqb_spec cmd "export") as [->|_]; [|done].
  destruct argv as [cmd values]. cbn [chosen] in Hchosen. subst cmd.
  apply (f_equal fst) in Hparse.
  apply parse_args_export in Hparse as (st & ck & tm & _ & _ & Hattrs).
  match goal with
  | |- posted (trace (snd (?m w))) = _ => enough (Hm : no_post m) by apply Hm
  end.
  apply no_post_bind; [apply no_post_getattr|intros source_token].
  apply no_post_bind; [apply no_post_list_emojis|intros emoji_list].
  apply no_post_bind; [apply no_post_getattr|intros output_dir].
  apply no_post_bind; [apply no_post_download_emojis|intros _].
  apply no_post_bind; [apply no_post_getattr|intros team_id].
  apply no_post_bind; [apply no_post_getattr|intros cookie].
  intros w'. unfold bind at 1, getattr. by rewrite Hattrs.
Qed.

Lemma main_export_run values sched w args :
  parse_args setup_argparse {| chosen := Some "export"; given := values |} w
  = (Ret args, w) ->
  main E help {| chosen := Some "export"; given := values |} sched w
  = (source_token <- getattr args "source_token" ;;
     emoji_list <- list_emojis E source_token "emoji_list.json" ;;
     output_dir <- getattr args "output_dir" ;;
     _ <- download_emojis E (inr emoji_list) output_dir sched ;;
     raise (no_attribute "token")) w.
Proof.
  intros Hparse. unfold main. cbv zeta. unfold bind at 1. rewrite Hparse.
  apply (f_equal fst) in Hparse.
  apply parse_args_export in Hparse as (st & ck & tm & _ & -> & Hattrs).
  simpl (String.eqb _ _). cbv iota.
  do 4 (apply bind_ext; intros ? ?).
  unfold bind, getattr, raise. rewrite Hattrs. cbn [Dict.get].
  simpl (String.eqb _ _). by cbv iota.
Qed.

(** X11.  The export command never completes: whatever the command
    line gives, the server answers and the files hold, [main] ends with
    an exit or an exception. *)
Theorem main_export_never_completes values sched w :
  fails (fst (main E help {| chosen := Some "export"; given := values |} sched w)).
Proof.
  pose proof (parse_args_world setup_argparse
                {| chosen := Some "export"; given := values |} w) as Hw.
  destruct (parse_args setup_argparse {| chosen := Some "export"; given := values |} w)
    as [[args| |] w0] eqn:Hparse; cbn [snd] in Hw; subst w0.
  - rewrite (main_export_run values sched w args Hparse).
    do 4 (apply fails_bind; intros ? ?). done.
  - unfold main. cbv zeta. unfold bind at 1. by rewrite Hparse.
  - unfold main. cbv zeta. unfold bind at 1. by rewrite Hparse.
Qed.

(** X12.  When the arguments of the export command are accepted, the
    listing returns a catalog and the download returns, [main] ends
    right after the download with the exception of the missing attribute
    [token], which the subparser of the command does not define: nothing
    is uploaded. *)
Theorem main_export_attribute_error values sched w args :
  fst (parse_args setup_argparse {| chosen := Some "export"; given := values |} w)
  = Ret args ->
  exists source_token,
    Dict.get "source_token" values = Some source_token
    /\ forall catalog w1 downloaded w2,
         list_emojis E source_token "emoji_list.json" w = (Ret catalog, w1) ->
         download_emojis E (inr catalog)
           (default DEFAULT_OUTPUT_DIR (Dict.get "output_dir" values)) sched w1
         = (Ret downloaded, w2) ->
         main E help {| chosen := Some "export"; given := values |} sched w
         = (Raise (no_attribute "token"), w2).
Proof.
  intros Hparse.
  pose proof (parse_args_world setup_argparse
                {| chosen := Some "export"; given := values |} w) as Hw.
  destruct (parse_args setup_argparse {| chosen := Some "export"; given := values |} w)
    as [o w0] eqn:Hrun. cbn [fst snd] in Hparse, Hw. subst o w0.
  pose proof (parse_args_export values w args) as Hexport.
  rewrite Hrun in Hexport.
  destruct (Hexport eq_refl) as (source_token & cookie & team_id & Hst & _ & Hattrs).
  exists source_token. split; [done|].
  intros catalog w1 downloaded w2 Hlist Hdownload.
  rewrite (main_export_run values sched w args Hrun).
  unfold bind at 1, getattr at 1. rewrite Hattrs. cbn [Dict.get].
  simpl (String.eqb _ _). cbv iota. unfold ret at 1.
  unfold bind at 1. rewrite Hlist.
  unfold bind at 1, getattr at 1. rewrite Hattrs. cbn [Dict.get].
  simpl (String.eqb _ _). cbv iota. unfold ret at 1.
  unfold bind at 1. by rewrite Hdownload.
Qed.

End ProgramFacts.

(** ** From the download to the scan *)

Lemma rpartition_after c s before after :
  Str.rpartition c s = Some (before, after) -> Str.contains c after = false.
Proof.
  revert before. induction s as [|a s IH]; intros before; [done|].
  cbn [Str.rpartition]. destruct (Str.rpartition c s) as [[b t]|] eqn:Hs.
  - intros [= <- <-]. by apply (IH b).
  - destruct (Ascii.eqb a c); [|done]. intros [= <- <-]. by apply rpartition_none.
Qed.

Lemma strip_prefix_append p s : Str.strip_prefix p (p +:+ s) = Some s.
Proof.
  induction p as [|a p IH]; [by destruct s|]. rewrite append_cons.
  cbn [Str.strip_prefix]. by rewrite Ascii.eqb_refl.
Qed.

Lemma startswith_slash c s : Str.contains c s = false -> Str.startswith s (String c "") = false.
Proof.
  destruct s as [|a s]; [done|]. cbn [Str.contains]. intros [Ha _]%orb_false_elim.
  unfold Str.startswith. cbn [Str.strip_prefix]. rewrite Ascii.eqb_sym. by rewrite Ha.
Qed.

(** Joining a name that holds no separator puts it after the directory
    of the entries. *)
Lemma os_path_join_entry dir name :
  Str.contains "/" name = false ->
  os_path_join dir name = os_path_join dir "" +:+ name.
Proof.
  intros Hname. unfold os_path_join. rewrite (startswith_slash "/" name Hname).
  change (Str.startswith "" "/") with false. cbv iota.
  destruct (String.eqb dir "" || Str.endswith dir "/").
  - by rewrite append_nil_r.
  - by rewrite !append_assoc.
Qed.

Lemma entry_name_join dir name :
  name <> "" -> Str.contains "/" name = false ->
  entry_name dir (os_path_join dir name) = Some name.
Proof.
  intros Hne Hname. unfold entry_name.
  rewrite (os_path_join_entry dir name Hname), strip_prefix_append, Hname.
  by apply String.eqb_neq in Hne as ->.
Qed.

Lemma basename_join dir name :
  Str.contains "/" name = false -> basename (os_path_join dir name) = name.
Proof.
  intros Hname. rewrite (os_path_join_entry dir name Hname).
  unfold basename, os_path_join. change (Str.startswith "" "/") with false. cbv iota.
  destruct (String.eqb_spec dir "") as [->|Hdir]; cbn [orb].
  { change ("" +:+ "") with "". rewrite append_nil_l.
    by rewrite rpartition_absent. }
  destruct (Str.endswith dir "/") eqn:Hend.
  - apply endswith_append in Hend as [pre ->].
    rewrite !append_nil_r, append_assoc. change ("/" +:+ name) with (String "/" name).
    by rewrite rpartition_last.
  - rewrite !append_assoc. change ("/" +:+ "" +:+ name) with (String "/" name).
    by rewrite rpartition_last.
Qed.

Lemma image_extensions_plain e :
  e ∈ image_extensions ->
  e <> "" /\ Str.contains "." e = false /\ Str.contains "/" e = false.
Proof.
  unfold image_extensions. intros He.
  repeat (apply elem_of_cons in He as [->|He]; [done|]).
  by apply elem_of_nil in He.
Qed.

(** The extension that a download gives its file: a dot and what
    follows the last dot. *)
Lemma basename_plain p : Str.contains "/" (basename p) = false.
Proof.
  unfold basename. destruct (Str.rpartition "/" p) as [[dir name]|] eqn:Hsplit.
  - by apply rpartition_after in Hsplit.
  - by apply rpartition_none.
Qed.

Lemma extension_of_dot url :
  exists e, extension_of url = String "." e
            /\ Str.contains "." e = false /\ Str.contains "/" e = false.
Proof.
  unfold extension_of, splitext_ext. cbv zeta.
  set (p := default "" (urlparse_path url)).
  destruct (Str.rpartition "." _) as [[before e]|] eqn:Hsplit.
  - exists e. split; [by change ("." +:+ e) with (String "." e)|].
    split; [by apply rpartition_after in Hsplit|].
    pose proof (basename_plain p) as Hplain.
    destruct (drop_while_append is_dot (basename p)) as [pre Hpre].
    apply rpartition_append in Hsplit.
    rewrite Hpre, Hsplit, !contains_append in Hplain. cbn [Str.contains] in Hplain.
    by repeat (apply orb_false_elim in Hplain as [? Hplain]).
  - by exists "png".
Qed.

Lemma stem_of_name_extension name e :
  name <> "" -> e <> "" -> Str.contains "." e = false ->
  stem_of_name (name +:+ String "." e) = name.
Proof.
  intros Hname He Hdot. unfold stem_of_name. rewrite rpartition_last by done.
  apply String.eqb_neq in Hname as ->. by apply String.eqb_neq in He as ->.
Qed.

Lemma Dict_set_elem {V} (k : string) (v : V) d : (k, v) ∈ Dict.set k v d.
Proof.
  induction d as [|[k' v'] d IH]; cbn [Dict.set]; [by apply list_elem_of_here|].
  destruct (String.eqb_spec k' k) as [->|_].
  - apply list_elem_of_here.
  - by apply list_elem_of_further.
Qed.

Section HandoverFacts.

Variable E : env.

(** A download that returns an entry has written its file. *)
Lemma download_emoji_some name url output_dir w n file :
  fst (download_emoji E name url output_dir w) = Ret (Some (n, file)) ->
  n = name /\ file = local_file output_dir name url
  /\ exists content,
       files (snd (download_emoji E name url output_dir w))
       = Dict.set file content (files w).
Proof.
  rewrite download_emoji_run. cbn [fst snd]. unfold download_result, download_effect.
  destruct (is_alias url); [done|].
  destruct (urlparse_path url); [|done]. cbv zeta.
  destruct (download_failure E url _) eqn:Hfail; [done|].
  intros [= <- <-]. split; [done|]. split; [done|].
  apply download_failure_writes in Hfail as [content Hcontent].
  exists content. cbn [files]. by rewrite Hcontent.
Qed.

(** X13.  The file of a downloaded emoji, whose name is not empty and
    holds no separator, is found by the scan that [upload_emojis] makes
    of the same directory exactly when the extension taken from its
    address is one of .png, .jpg, .jpeg and .gif, in lower case; the name
    that the upload derives from the file is then the name of the
    emoji. *)
Theorem downloaded_file_scanned name url output_dir w n file :
  fst (download_emoji E name url output_dir w) = Ret (Some (n, file)) ->
  name <> "" ->
  Str.contains "/" name = false ->
  let scanned :=
    file ∈ emoji_files output_dir (files (snd (download_emoji E name url output_dir w))) in
  (scanned <-> exists e, e ∈ image_extensions /\ extension_of url = String "." e)
  /\ (scanned -> stem file = name).
Proof.
  intros (-> & -> & content & Hfiles)%download_emoji_some Hname Hslash. cbv zeta.
  rewrite Hfiles. unfold local_file.
  destruct (extension_of_dot url) as (e' & Hext & Hdot & Hslash'). rewrite Hext.
  assert (Hplain : Str.contains "/" (name +:+ String "." e') = false).
  { rewrite contains_append, Hslash. cbn [Str.contains orb]. by rewrite Hslash'. }
  assert (Hfull : name +:+ String "." e' <> "") by (by destruct name).
  assert (Hiff : os_path_join output_dir (name +:+ String "." e')
                 ∈ emoji_files output_dir
                     (Dict.set (os_path_join output_dir (name +:+ String "." e'))
                        content (files w))
                 <-> e' ∈ image_extensions).
  { rewrite emoji_files_spec. split.
    - intros (nm & st & e & c & _ & Hentry & Hsplit & He).
      rewrite entry_name_join in Hentry by done.
      injection Hentry as <-. rewrite rpartition_last in Hsplit by done.
      by injection Hsplit as <- <-.
    - intros He. exists (name +:+ String "." e'), name, e', content.
      split; [apply Dict_set_elem|]. split; [by apply entry_name_join|].
      split; [by apply rpartition_last|done]. }
  split.
  - rewrite Hiff. split.
    + intros He. by exists e'.
    + intros (e & He & [= <-]). done.
  - intros He%Hiff. destruct (image_extensions_plain e' He) as (Hne & _ & _).
    unfold stem. rewrite basename_join by done.
    by apply stem_of_name_extension.
Qed.

End HandoverFacts.

(** ** The scan and the listing *)

Lemma glob_extension emoji_dir e f path :
  Str.forallb is_literal (String "." e) = true ->
  Str.contains "." e = false ->
  path ∈ glob emoji_dir (String "*" (String "." e)) f
  <-> exists name stem content,
        (path, content) ∈ f /\ entry_name emoji_dir path = Some name
        /\ Str.rpartition "." name = Some (stem, e).
Proof.
  intros Hlit He. unfold glob. rewrite list_elem_of_omap. split.
  - intros ([q content] & Hin & Hq). cbn [fst] in Hq.
    destruct (entry_name emoji_dir q) as [name|] eqn:Hname; [|done].
    destruct (fnmatch _ name) eqn:Hmatch; [|done]. injection Hq as <-.
    rewrite fnmatch_star in Hmatch by done.
    apply endswith_extension in Hmatch as [stem Hstem]; [|done].
    by exists name, stem, content.
  - intros (name & stem & content & Hin & Hname & Hstem).
    exists (path, content). split; [done|]. cbn [fst]. rewrite Hname.
    rewrite fnmatch_star by done.
    by rewrite (proj2 (endswith_extension name e He) (ex_intro _ stem Hstem)).
Qed.

(** Two patterns for different extensions match no common file. *)
Lemma glob_disjoint emoji_dir e1 e2 f path :
  Str.forallb is_literal (String "." e1) = true -> Str.contains "." e1 = false ->
  Str.forallb is_literal (String "." e2) = true -> Str.contains "." e2 = false ->
  e1 <> e2 ->
  path ∈ glob emoji_dir (String "*" (String "." e1)) f ->
  path ∉ glob emoji_dir (String "*" (String "." e2)) f.
Proof.
  intros Hl1 Hd1 Hl2 Hd2 Hne.
  rewrite !glob_extension by done.
  intros (name & stem & _ & _ & Hname & Hstem) (name' & stem' & _ & _ & Hname' & Hstem').
  congruence.
Qed.

(** One scan lists no file twice. *)
Lemma glob_nodup emoji_dir pat (f : fs) : NoDup (fst <$> f) -> NoDup (glob emoji_dir pat f).
Proof.
  unfold glob. induction f as [|[path content] f IH]; [constructor|].
  rewrite fmap_cons, NoDup_cons. cbn [fst]. intros [Hpath Hf].
  cbn [omap list_omap fst]. fold (glob emoji_dir pat f).
  destruct (entry_name emoji_dir path) as [name|]; [|by apply IH].
  destruct (fnmatch pat name); [|by apply IH].
  apply NoDup_cons. split; [|by apply IH].
  intros ([q c] & Hin & Hq)%list_elem_of_omap. cbn [fst] in Hq.
  destruct (entry_name emoji_dir q); [|done]. destruct (fnmatch pat _); [|done].
  injection Hq as ->. apply Hpath.
  by apply (list_elem_of_fmap_2 fst) in Hin.
Qed.

(** X14.  The four scans of [upload_emojis] never find the same file
    twice: in a file system where every path names one file, the list of
    the files to upload has no duplicates. *)
Theorem emoji_files_no_duplicates emoji_dir (f : fs) :
  NoDup (fst <$> f) -> NoDup (emoji_files emoji_dir f).
Proof.
  intros Hf. unfold emoji_files. cbn [flat_map]. rewrite app_nil_r.
  repeat (apply NoDup_app; split; [by apply glob_nodup|split]);
    try (by apply glob_nodup);
    intros path Hpath; rewrite ?elem_of_app;
    repeat (intros [Hother|Hother]; [by eapply glob_disjoint in Hother|revert Hother]);
    intros Hother; by eapply glob_disjoint in Hother.
Qed.

Section ListingFacts.

Variable E : env.

(** X15.  However it ends, [list_emojis] has sent one request, to the
    listing address with the token as bearer, and has posted nothing; it
    leaves every file other than its output file as it was, and the
    output file too unless it returns. *)
Theorem list_emojis_footprint token output_file w :
  let run := list_emojis E token output_file w in
  gets (trace (snd run)) = gets (trace w) ++ [(emoji_list_url, bearer token)]
  /\ posted (trace (snd run)) = posted (trace w)
  /\ (forall path, path <> output_file ->
        Dict.get path (files (snd run)) = Dict.get path (files w))
  /\ (fails (fst run) -> files (snd run) = files w).
Proof.
  cbv zeta. split; [|split; [apply no_post_list_emojis|]].
  - rewrite list_emojis_unfold. cbv zeta.
    assert (Hget : gets (trace (log [Get emoji_list_url (bearer token)] w))
                   = gets (trace w) ++ [(emoji_list_url, bearer token)]).
    { by rewrite trace_log, gets_app. }
    destruct (http_get E emoji_list_url (bearer token)) as [r|e]; [|done].
    assert (Hexit : gets (trace (log [Print (listing_diagnostic r +:+ eol)]
                                   (log [Get emoji_list_url (bearer token)] w)))
                    = gets (trace w) ++ [(emoji_list_url, bearer token)]).
    { by rewrite trace_log, gets_app, Hget, app_nil_r. }
    destruct (ok r); [|done].
    destruct (json r) as [data|]; [|done].
    destruct (body_ok data); [|done].
    destruct (body_emoji data) as [emoji|]; [|done].
    destruct (open_error E output_file); [done|].
    cbn [snd]. rewrite trace_log, gets_app. cbn [trace].
    by rewrite gets_app, Hget, !app_nil_r.
  - rewrite list_emojis_unfold. cbv zeta.
    destruct (http_get E emoji_list_url (bearer token)) as [r|e]; [|done].
    destruct (ok r); [|done].
    destruct (json r) as [data|]; [|done].
    destruct (body_ok data); [|done].
    destruct (body_emoji data) as [emoji|]; [|done].
    destruct (open_error E output_file); [done|].
    cbn [fst snd]. split; [|done]. intros path Hpath.
    rewrite files_log. cbn [files]. by apply Dict_get_set_ne.
Qed.

End ListingFacts.

(** ** The further properties of the other commands on scripted
    environments *)

Lemma download_emojis_requests_witness :
  gets (trace (snd (download_emojis source_env (inr odd_catalog) "emoji_downloads"
                      [3; 0]%nat empty_world)))
  ≡ₚ [("https://x/e1.png", []); ("https://x/e2.gif", [])]
  /\ posted (trace (snd (download_emojis source_env (inr odd_catalog)
                           "emoji_downloads" [3; 0]%nat empty_world)))
     = 0%nat.
Proof.
  pose proof (download_emojis_requests source_env odd_catalog "emoji_downloads"
                [3; 0]%nat empty_world eq_refl) as (Hgets & Hposted & _).
  split; [exact Hgets | exact Hposted].
Defined.

Lemma download_emojis_invalid_url_witness :
  fst (download_emojis source_env (inr odd_catalog) "emoji_downloads" [3; 0]%nat
         empty_world)
  = Raise invalid_url.
Proof.
  destruct (proj1 (download_emojis_invalid_url source_env odd_catalog
                     "emoji_downloads" [3; 0]%nat empty_world "broken"
                     "https://[x/e3.png" eq_refl
                     ltac:(unfold odd_catalog; apply list_elem_of_In; cbn; tauto)
                     eq_refl eq_refl))
    as (e & He & Hrun).
  vm_compute in He. injection He as <-. exact Hrun.
Defined.

Lemma download_emojis_touches_only_local_files_witness :
  Dict.get "emoji_list.json"
    (files (snd (download_emojis source_env (inr three_emoji) "emoji_downloads"
                   [2; 0]%nat listed_world)))
  = Dict.get "emoji_list.json" (files listed_world).
Proof.
  apply (download_emojis_touches_only_local_files source_env three_emoji
           "emoji_downloads" [2; 0]%nat listed_world "emoji_list.json").
  intros item Hin _. apply list_elem_of_In in Hin. cbn in Hin.
  destruct Hin as [<-|[<-|[<-|[]]]]; vm_compute; discriminate.
Defined.


Lemma main_posts_only_for_upload_witness :
  posted (trace (snd (main source_env "usage"
                        {| chosen := Some "list";
                           given := [("source_token", "xoxp-1")] |} []
                        empty_world)))
  = posted (trace empty_world).
Proof.
  apply (main_posts_only_for_upload source_env "usage"
           {| chosen := Some "list"; given := [("source_token", "xoxp-1")] |} []
           empty_world).
  discriminate.
Defined.

Lemma main_export_attribute_error_witness :
  fst (main source_env "usage" export_line [] empty_world)
  = Raise (no_attribute "token").
Proof.
  destruct (main_export_attribute_error source_env "usage" (given export_line) []
              empty_world
              {| command := Some "export";
                 attributes := [("output_dir", "emoji_downloads");
                                ("source_token", "xoxp-1"); ("cookie", "d=cookie");
                                ("team_id", "T012AB3C4")] |})
    as (source_token & Htoken & Hrun); [vm_compute; reflexivity|].
  injection Htoken as <-.
  change {| chosen := Some "export"; given := given export_line |} with export_line
    in Hrun.
  set (w1 := snd (list_emojis source_env "xoxp-1" "emoji_list.json" empty_world)).
  set (w2 := snd (download_emojis source_env (inr [("smile", "https://x/e1.png")])
                    "emoji_downloads" [] w1)).
  assert (Hlist : list_emojis source_env "xoxp-1" "emoji_list.json" empty_world
                  = (Ret [("smile", "https://x/e1.png")], w1))
    by (vm_compute; reflexivity).
  assert (Hdown : download_emojis source_env (inr [("smile", "https://x/e1.png")])
                    (default DEFAULT_OUTPUT_DIR
                       (Dict.get "output_dir" (given export_line))) [] w1
                  = (Ret [("smile", "emoji_downloads/smile.png")], w2))
    by (vm_compute; reflexivity).
  exact (f_equal fst (Hrun _ _ _ _ Hlist Hdown)).
Defined.

Lemma downloaded_file_scanned_witness :
  "emoji_downloads/smile.png"
  ∈ emoji_files "emoji_downloads"
      (files (snd (download_emoji source_env "smile" "https://x/e1.png"
                     "emoji_downloads" empty_world)))
  /\ stem "emoji_downloads/smile.png" = "smile".
Proof.
  pose proof (downloaded_file_scanned source_env "smile" "https://x/e1.png"
                "emoji_downloads" empty_world "smile" "emoji_downloads/smile.png")
    as Hscan.
  cbv zeta in Hscan.
  destruct Hscan as [Hiff Hstem]; [vm_compute; reflexivity|discriminate|reflexivity|].
  assert (Hin : "emoji_downloads/smile.png"
                ∈ emoji_files "emoji_downloads"
                    (files (snd (download_emoji source_env "smile" "https://x/e1.png"
                                   "emoji_downloads" empty_world)))).
  { apply Hiff. exists "png". split; [apply list_elem_of_here|vm_compute; reflexivity]. }
  split; [exact Hin|exact (Hstem Hin)].
Defined.

Lemma emoji_files_no_duplicates_witness :
  NoDup (emoji_files "emoji_downloads" (files two_assets)).
Proof.
  apply (emoji_files_no_duplicates "emoji_downloads" (files two_assets)).
  apply NoDup_ListNoDup. repeat constructor; cbn; intuition discriminate.
Defined.

(** ** A stream that breaks, and the list file of the download command *)

Section StreamFacts.

Variable E : env.

(** X16.  When the body of an image breaks off while it is streamed,
    [download_emoji] logs the error and returns no entry, so that the
    emoji is not counted as downloaded; the file that it had opened
    stays behind, with the chunks received so far. *)
Theorem download_emoji_broken_stream name url output_dir w r e :
  is_alias url = false ->
  parses url ->
  http_get E url [] = Reply r ->
  ok r = true ->
  stream_error r = Some e ->
  open_error E (local_file output_dir name url) = None ->
  let run := download_emoji E name url output_dir w in
  fst run = Ret None
  /\ Dict.get (local_file output_dir name url) (files (snd run))
     = Some (String.concat "" (iter_content r))
  /\ (last (printed (trace (snd run))) = Some (failure_line name (exn_str e))).
Proof.
  intros Halias [path Hpath] Hget Hok Hstream Hopen. cbv zeta.
  rewrite download_emoji_run. cbn [fst snd].
  unfold download_result, download_effect. rewrite Halias, Hpath. cbv zeta.
  unfold download_events, download_failure, download_writes.
  rewrite Hget, Hok, Hopen, Hstream. cbn [fmap option_fmap option_map files trace].
  split; [done|]. split; [apply Dict_get_set_eq|].
  change ([Get url []] ++ [Write (local_file output_dir name url)]
          ++ [Print (failure_line name (exn_str e))])
    with ([Get url []; Write (local_file output_dir name url)]
          ++ [Print (failure_line name (exn_str e))]).
  rewrite app_assoc, printed_app. cbn [printed omap list_omap].
  by rewrite last_snoc.
Qed.

(** The requests of [download_emojis] carry no header. *)
Lemma gets_download_emojis_plain catalog output_dir sched w :
  exists requests,
    gets (trace (snd (download_emojis E (inr catalog) output_dir sched w)))
    = gets (trace w) ++ requests
    /\ Forall (fun request => snd request = []) requests.
Proof.
  destruct (makedirs_error E output_dir) as [e|] eqn:Hmk.
  { exists []. unfold download_emojis, makedirs. rewrite Hmk. cbn [snd bind raise].
    by rewrite app_nil_r. }
  rewrite download_emojis_unfold by done. cbv zeta.
  set (order := completion_order sched (length catalog)).
  exists (gets (order ≫= fun i => match catalog !! i with
                                  | Some item => item_events E output_dir item
                                  | None => []
                                  end)).
  split.
  - destruct (joined _ []); cbn [snd];
      rewrite ?trace_log, trace_pool_effect, ?trace_log, !gets_app;
      cbn [gets omap list_omap]; by rewrite ?app_nil_r.
  - clear. induction order as [|i order IH]; [constructor|].
    rewrite bind_cons, gets_app. apply Forall_app. split; [|done].
    destruct (catalog !! i) as [item|]; [|constructor]. unfold item_events.
    destruct (is_fetched item); [|constructor].
    unfold download_events. rewrite !gets_app. cbn [gets omap list_omap app].
    destruct (download_writes E _ _), (download_failure E _ _);
      by repeat constructor.
Qed.

End StreamFacts.

(** The arguments of the download command. *)
Lemma parse_args_download values w args :
  fst (parse_args setup_argparse {| chosen := Some "download"; given := values |} w)
  = Ret args ->
  exists source_token,
    command args = Some "download"
    /\ attributes args
       = [("output_dir", default DEFAULT_OUTPUT_DIR (Dict.get "output_dir" values));
          ("source_token", source_token);
          ("emoji_list", default "emoji_list.json" (Dict.get "emoji_list" values))].
Proof.
  unfold parse_args. cbn [chosen given].
  set (sub := Dict.get "download" (subparsers setup_argparse)). vm_compute in sub.
  subst sub. cbv zeta. unfold setup_argparse. cbn [common app].
  destruct (forallb _ values); [|done].
  cbn [fill]. unfold DEFAULT_OUTPUT_DIR.
  destruct (Dict.get "source_token" values) as [source_token|];
    [|by destruct (Dict.get _ _)].
  intros Hargs. exists source_token.
  destruct (Dict.get "output_dir" values), (Dict.get "emoji_list" values);
    cbn in Hargs; by injection Hargs as <-.
Qed.

Section DownloadCommandFacts.

Variable E : env.
Variable help : string.

(** X17.  When the list file exists, the download command does not ask
    the workspace for its listing: it reads the file, and every request
    that it sends is without headers, so that none carries the source
    token that the command requires. *)
Theorem main_download_uses_list_file values sched w :
  let argv := {| chosen := Some "download"; given := values |} in
  let path := default "emoji_list.json" (Dict.get "emoji_list" values) in
  let run := main E help argv sched w in
  is_Some (Dict.get path (files w)) ->
  exists requests,
    gets (trace (snd run)) = gets (trace w) ++ requests
    /\ Forall (fun request => snd request = []) requests
    /\ forall token, (emoji_list_url, bearer token) ∉ requests.
Proof.
  assert (Hplain : forall requests : list (string * list (string * string)),
            Forall (fun request => snd request = []) requests ->
            Forall (fun request => snd request = []) requests
            /\ forall token, (emoji_list_url, bearer token) ∉ requests).
  { intros requests Hall. split; [done|]. intros token Hin.
    by apply (proj1 (Forall_forall _ _) Hall) in Hin. }
  cbv zeta. intros [content Hfile].
  pose proof (parse_args_world setup_argparse
                {| chosen := Some "download"; given := values |} w) as Hw.
  unfold main. cbv zeta. unfold bind at 1.
  destruct (parse_args setup_argparse {| chosen := Some "download"; given := values |} w)
    as [[args| |] w0] eqn:Hparse; cbn [snd] in Hw; subst w0.
  2,3: exists []; rewrite app_nil_r; split; [done|by apply Hplain].
  apply (f_equal fst) in Hparse. cbn [fst] in Hparse.
  apply parse_args_download in Hparse as (source_token & -> & Hattrs).
  simpl (String.eqb _ _). cbv iota.
  unfold bind at 1, getattr at 1. rewrite Hattrs. cbn [Dict.get].
  simpl (String.eqb _ _). cbv iota. unfold ret at 1.
  unfold bind at 1, os_path_exists. rewrite Hfile.
  rewrite bool_decide_eq_true_2 by (by eexists). cbn [negb].
  unfold bind at 1. unfold bind at 1, getattr at 1. rewrite Hattrs. cbn [Dict.get].
  simpl (String.eqb _ _). cbv iota. unfold ret at 1.
  unfold bind at 1, open_read. rewrite Hfile.
  set (w1 := log [OpenRead _] w).
  assert (Hgets1 : gets (trace w1) = gets (trace w)).
  { subst w1. by rewrite trace_log, gets_app, app_nil_r. }
  destruct (Json.loads content) as [emoji_list|].
  2: { exists []. rewrite app_nil_r. split; [done|by apply Hplain]. }
  unfold ret at 1. unfold bind at 1, getattr at 1. rewrite Hattrs. cbn [Dict.get].
  simpl (String.eqb _ _). cbv iota. unfold ret at 1.
  set (output_dir := default "emoji_downloads" (Dict.get "output_dir" values)).
  destruct (gets_download_emojis_plain E emoji_list output_dir sched w1)
    as (requests & Hgets & Hall).
  exists requests. split; [|by apply Hplain].
  rewrite <- Hgets1, <- Hgets. unfold bind at 1. subst output_dir.
  unfold DEFAULT_OUTPUT_DIR.
  by destruct (download_emojis E (inr emoji_list) _ sched w1)
    as [[downloaded| |] w2].
Qed.

End DownloadCommandFacts.

Lemma download_emoji_broken_stream_witness :
  fst (download_emoji cut_off "smile" "https://x/e1.png" "emoji_downloads" empty_world)
  = Ret None
  /\ Dict.get (local_file "emoji_downloads" "smile" "https://x/e1.png")
       (files (snd (download_emoji cut_off "smile" "https://x/e1.png"
                      "emoji_downloads" empty_world)))
     = Some (String.concat "" ["GIF8"]).
Proof.
  pose proof (download_emoji_broken_stream cut_off "smile" "https://x/e1.png"
                "emoji_downloads" empty_world
                {| status_code := 200; text := ""; json := None;
                   iter_content := ["GIF8"];
                   stream_error :=
                     Some (Exn "ChunkedEncodingError" "Connection broken") |}
                (Exn "ChunkedEncodingError" "Connection broken")) as Hrun.
  cbv zeta in Hrun.
  destruct Hrun as (Hnone & Hfile & _);
    [reflexivity|eexists; vm_compute; reflexivity|reflexivity..|].
  split; [exact Hnone|exact Hfile].
Defined.

Lemma main_download_uses_list_file_witness :
  exists requests,
    gets (trace (snd (main source_env "usage" download_line [] catalog_world)))
    = gets (trace catalog_world) ++ requests
    /\ Forall (fun request => snd request = []) requests
    /\ forall token, (emoji_list_url, bearer token) ∉ requests.
Proof.
  apply (main_download_uses_list_file source_env "usage" (given download_line) []
           catalog_world).
  eexists. vm_compute. reflexivity.
Defined.
